(** * The write path of the WebSocket connection (write.go)

    A shallow embedding of [Conn.Write], [Conn.Writer], the message writer
    ([msgWriter]), the control-frame path ([writeControl]) and frame
    emission ([writeFrame], [writeFramePayload]), followed by the
    properties the specification states about them.

    The model is sequential: one goroutine runs to completion.  Locks are
    booleans (held / free); a call that would park the goroutine forever
    ends in [Halts Blocked]. *)

From Stdlib Require Import String.
From Stdlib Require Import ZArith List Bool Lia.
Import ListNotations.
Local Open Scope string_scope.
Local Open Scope list_scope.
Local Open Scope Z_scope.

(** ** Errors

    [xerrors.New] and [xerrors.Errorf("...: %w", err)].  Errors that come
    from outside (the network, the close cause, a context) are arbitrary
    values of this type. *)
Inductive error : Type :=
| errNew (msg : string)
| errWrap (msg : string) (cause : error).

(** The innermost error of a chain of [%w] wrappers. *)
Fixpoint rootCause (e : error) : error :=
  match e with
  | errNew _ => e
  | errWrap _ e' => rootCause e'
  end.

(** [errd.Wrap(&err, msg)]: wraps a non-nil error, leaves nil alone. *)
Definition errd_Wrap (msg : string) (err : option error) : option error :=
  match err with
  | Some e => Some (errWrap msg e)
  | None => None
  end.

Definition UseClosedWriter : error := errNew "cannot use closed writer".
Definition io_ErrShortWrite : error := errNew "short write".
Definition io_EOF : error := errNew "EOF".
Definition io_ErrUnexpectedEOF : error := errNew "unexpected EOF".
Definition context_DeadlineExceeded : error := errNew "context deadline exceeded".

(** ** Contexts

    A context as the write path sees it: its deadline (nanoseconds on the
    clock of [time.Now]) and, when it has fired, the error [ctx.Err()]. *)
Record context : Type := mkContext {
  ctxDeadline : option Z;
  ctxErr : option error
}.

Definition context_Background : context := mkContext None None.

(** [context.WithDeadline(parent, d)] read at clock value [now]: a parent
    deadline that is earlier wins; a deadline already passed fires at once. *)
Definition context_WithDeadline (now : Z) (parent : context) (d : Z) : context :=
  match ctxDeadline parent with
  | Some cur => if cur <? d then parent else
      mkContext (Some d)
        (match ctxErr parent with
         | Some e => Some e
         | None => if d - now <=? 0 then Some context_DeadlineExceeded else None
         end)
  | None =>
      mkContext (Some d)
        (match ctxErr parent with
         | Some e => Some e
         | None => if d - now <=? 0 then Some context_DeadlineExceeded else None
         end)
  end.

(** [context.WithTimeout(parent, timeout)] is [WithDeadline(parent, time.Now().Add(timeout))]. *)
Definition context_WithTimeout (now : Z) (parent : context) (timeout : Z) : context :=
  context_WithDeadline now parent (now + timeout).

(** [time.Second], in nanoseconds. *)
Definition time_Second : Z := 1000000000.

(** ** Opcodes, message types, frame headers *)

(** Modelled from the spec: the opcode type is declared outside write.go;
    the spec lists continuation(0x0), text(0x1), binary(0x2), close(0x8),
    ping(0x9), pong(0xA). *)
Inductive opcode : Type :=
| opContinuation | opText | opBinary | opClose | opPing | opPong.

Definition opcode_code (o : opcode) : Z :=
  match o with
  | opContinuation => 0 | opText => 1 | opBinary => 2
  | opClose => 8 | opPing => 9 | opPong => 10
  end.

Definition opcode_eqb (a b : opcode) : bool := opcode_code a =? opcode_code b.

(** The text [%v] prints for an opcode (the generated [String] method). *)
Definition opcode_String (o : opcode) : string :=
  match o with
  | opContinuation => "opContinuation" | opText => "opText"
  | opBinary => "opBinary" | opClose => "opClose"
  | opPing => "opPing" | opPong => "opPong"
  end.

(** Modelled from the spec: the message type is declared outside write.go;
    the spec has type in {text, binary}. *)
Inductive MessageType : Type := MessageText | MessageBinary.

(** The conversion [opcode(typ)]. *)
Definition opcode_of (typ : MessageType) : opcode :=
  match typ with
  | MessageText => opText
  | MessageBinary => opBinary
  end.

(** Modelled from the spec: the header struct is declared outside
    write.go; these are the fields [writeFrame] assigns. *)
Record header : Type := mkHeader {
  h_fin : bool;
  h_rsv1 : bool;
  h_opcode : opcode;
  h_payloadLength : Z;
  h_masked : bool;
  h_maskKey : Z
}.

Definition header_zero : header := mkHeader false false opContinuation 0 false 0.

(** ** Byte helpers *)

(** Bytes are integers in 0..255; [len] is Go's [len] on a slice. *)
Definition len (p : list Z) : Z := Z.of_nat (length p).

(** Byte [i] (0 = least significant) of a 32-bit key. *)
Definition keyByte (key : Z) (i : nat) : Z :=
  Z.land (Z.shiftr key (8 * Z.of_nat (i mod 4))) 255.

(** [bits.RotateLeft32(key, -8)] on a uint32. *)
Definition rotr8 (key : Z) : Z :=
  Z.lor (Z.shiftr key 8) (Z.shiftl (Z.land key 255) 24).

(** Modelled from the spec: [mask] is defined outside write.go.  The spec:
    the four-byte key is XOR'd cyclically against the payload and the
    operation returns the next rotation of the key.  This is the naive byte
    loop [b[i] ^= byte(key); key = rotate(key)]; the result pairs the
    returned key with the bytes left in [b]. *)
Fixpoint mask (key : Z) (b : list Z) : Z * list Z :=
  match b with
  | [] => (key, [])
  | x :: b' =>
      let r := mask (rotr8 key) b' in
      (fst r, Z.lxor x (Z.land key 255) :: snd r)
  end.

(** The payload XOR'd cyclically with the key, written without the
    rotation: byte [i] meets key byte [(off + i) mod 4]. *)
Fixpoint xorCyclic (key : Z) (off : nat) (p : list Z) : list Z :=
  match p with
  | [] => []
  | x :: p' => Z.lxor x (keyByte key off) :: xorCyclic key (S off) p'
  end.

(** [binary.Read(src, binary.LittleEndian, &maskKey)] on a uint32: four
    bytes, the first one least significant; fewer than four bytes left is
    an error. *)
Definition readUint32LE (src : list Z) : option (Z * list Z) :=
  match src with
  | b0 :: b1 :: b2 :: b3 :: rest =>
      Some ((Z.lor (Z.lor b0 (Z.shiftl b1 8))
                   (Z.lor (Z.shiftl b2 16) (Z.shiftl b3 24))) mod 2 ^ 32, rest)
  | _ => None
  end.

(** The error of [io.ReadFull] on a source that runs dry: [io.EOF] when
    nothing was read, [io.ErrUnexpectedEOF] after a partial read. *)
Definition readFull_error (src : list Z) : error :=
  match src with
  | [] => io_EOF
  | _ :: _ => io_ErrUnexpectedEOF
  end.

(** Big-endian bytes of [v], [n] of them. *)
Fixpoint bigEndian (n : nat) (v : Z) : list Z :=
  match n with
  | O => []
  | S n' => Z.land (Z.shiftr v (8 * Z.of_nat n')) 255 :: bigEndian n' v
  end.

Definition boolBit (b : bool) (v : Z) : Z := if b then v else 0.

(** Modelled from the spec: the header encoder is defined outside
    write.go.  RFC 6455 section 5.2: FIN, RSV1 and the opcode in the first
    byte; the mask bit and the 7-bit length discriminator in the second
    (inline up to 125, 126 + 16 bits up to 65535, 127 + 64 bits otherwise);
    the four key bytes, when masked, immediately after the length. *)
Definition encodeHeader (h : header) : list Z :=
  let b0 := Z.lor (Z.lor (boolBit (h_fin h) 128) (boolBit (h_rsv1 h) 64))
                  (opcode_code (h_opcode h)) in
  let n := h_payloadLength h in
  let m := boolBit (h_masked h) 128 in
  let lenBytes :=
    if 65535 <? n then Z.lor m 127 :: bigEndian 8 n
    else if 125 <? n then Z.lor m 126 :: bigEndian 2 n
    else [Z.lor m n] in
  let keyBytes :=
    if h_masked h
    then [keyByte (h_maskKey h) 0; keyByte (h_maskKey h) 1;
          keyByte (h_maskKey h) 2; keyByte (h_maskKey h) 3]
    else [] in
  b0 :: lenBytes ++ keyBytes.

(** ** The byte stream and the buffered writer over it *)

(** The connection's byte stream, write side.  [room = None]: every write
    succeeds.  [room = Some q]: the stream accepts [q] more bytes and then
    fails with [ioErr]. *)
Record netConn : Type := mkNet {
  sent : list Z;
  room : option nat;
  ioErr : error
}.

(** [io.Writer.Write] of the byte stream: the count written and the error. *)
Definition net_Write (w : netConn) (p : list Z) : nat * option error * netConn :=
  match room w with
  | None => (length p, None, mkNet (sent w ++ p) None (ioErr w))
  | Some q =>
      if (length p <=? q)%nat
      then (length p, None, mkNet (sent w ++ p) (Some (q - length p)%nat) (ioErr w))
      else (q, Some (ioErr w), mkNet (sent w ++ firstn q p) (Some O) (ioErr w))
  end.

(** [bufio.Writer] of the Go standard library.  [bw_buf] is the filled
    part [b.buf[0:b.n]] of the backing slice, [bw_size] is [len(b.buf)],
    [bw_err] the sticky error.  [Conn.writeBuf] is this same backing slice
    (extractBufioWriterBuf), so [writeBuf[i:j]] with [j <= b.n] is
    [bw_buf] between [i] and [j]. *)
Record bufio_Writer : Type := mkBw {
  bw_buf : list Z;
  bw_size : nat;
  bw_err : option error
}.

Definition bw_Available (b : bufio_Writer) : nat := (bw_size b - length (bw_buf b))%nat.
Definition bw_Buffered (b : bufio_Writer) : nat := length (bw_buf b).

Definition isNil {A : Type} (o : option A) : bool :=
  match o with None => true | Some _ => false end.

(** [Flush] of [bufio.Writer]. *)
Definition bw_Flush (b : bufio_Writer) (w : netConn)
  : option error * bufio_Writer * netConn :=
  match bw_err b with
  | Some e => (Some e, b, w)
  | None =>
      if (bw_Buffered b =? 0)%nat then (None, b, w) else
      let '(n, err, w') := net_Write w (bw_buf b) in
      let err := if (n <? bw_Buffered b)%nat && isNil err
                 then Some io_ErrShortWrite else err in
      match err with
      | Some e => (Some e, mkBw (skipn n (bw_buf b)) (bw_size b) (Some e), w')
      | None => (None, mkBw [] (bw_size b) None, w')
      end
  end.

(** The loop of [Write] of [bufio.Writer]:
    [for len(p) > b.Available() && b.err == nil].  It runs its body at
    most twice (fill and flush, then one direct write), see
    [bw_Write_loop_exits]. *)
Fixpoint bw_Write_loop (fuel : nat) (p : list Z) (nn : nat)
    (b : bufio_Writer) (w : netConn) : list Z * nat * bufio_Writer * netConn :=
  match fuel with
  | O => (p, nn, b, w)
  | S fuel' =>
      if (bw_Available b <? length p)%nat && isNil (bw_err b) then
        if (bw_Buffered b =? 0)%nat then
          (* Large write, empty buffer: write directly from p. *)
          let '(n, err, w') := net_Write w p in
          bw_Write_loop fuel' (skipn n p) (nn + n)%nat
            (mkBw (bw_buf b) (bw_size b) err) w'
        else
          let n := Nat.min (bw_Available b) (length p) in
          let b1 := mkBw (bw_buf b ++ firstn n p) (bw_size b) (bw_err b) in
          let '(_, b2, w') := bw_Flush b1 w in
          bw_Write_loop fuel' (skipn n p) (nn + n)%nat b2 w'
      else (p, nn, b, w)
  end.

(** [Write] of [bufio.Writer]. *)
Definition bw_Write (p : list Z) (b : bufio_Writer) (w : netConn)
  : nat * option error * bufio_Writer * netConn :=
  let '(p', nn, b', w') := bw_Write_loop 3 p 0 b w in
  match bw_err b' with
  | Some e => (nn, Some e, b', w')
  | None =>
      let n := Nat.min (bw_Available b') (length p') in
      ((nn + n)%nat, None, mkBw (bw_buf b' ++ firstn n p') (bw_size b') None, w')
  end.

(** ** Trim writer and sliding window *)

(** Modelled from the spec: the trim writer is defined outside write.go.
    It withholds the last four bytes of the cumulative burst; [tw_tail]
    is the withheld tail (at most four bytes). *)
Record trimLastFourBytesWriter : Type := mkTrim { tw_tail : list Z }.

Definition tw_reset (tw : trimLastFourBytesWriter) : trimLastFourBytesWriter :=
  mkTrim [].

(** Modelled from the spec: the sliding window is defined outside
    write.go.  Fixed capacity; holds the tail of the plaintext stream. *)
Record slidingWindow : Type := mkWindow { sw_cap : Z; sw_buf : list Z }.

Definition lastn {A : Type} (n : nat) (l : list A) : list A :=
  skipn (length l - n) l.

(** [init(C)], lazy: a window that is already there is kept, so that it
    carries over from one message to the next under context takeover. *)
Definition sw_init (n : Z) (d : option slidingWindow) : option slidingWindow :=
  match d with
  | Some _ => d
  | None => Some (mkWindow n [])
  end.

(** [write(bytes)]: append, evicting the oldest bytes past capacity. *)
Definition sw_write (p : list Z) (d : option slidingWindow) : option slidingWindow :=
  match d with
  | Some s => Some (mkWindow (sw_cap s) (lastn (Z.to_nat (sw_cap s)) (sw_buf s ++ p)))
  | None => None
  end.

(** [close()]: release the window. *)
Definition sw_close (d : option slidingWindow) : option slidingWindow := None.

(** The field [dict.buf] handed to the compressor as preset dictionary. *)
Definition sw_bytes (d : option slidingWindow) : list Z :=
  match d with
  | Some s => sw_buf s
  | None => []
  end.

(** ** Connection and message-writer state *)

Record compressionOptions : Type := mkCopts {
  clientNoContextTakeover : bool;
  serverNoContextTakeover : bool
}.

(** [mw_mu] and [mw_writeMu] say whether the lock is held.  [mw_trimWriter]
    is [None] while the pointer is nil; [mw_dict] is [None] while the
    window has no buffer. *)
Record msgWriter : Type := mkMsgWriter {
  mw_mu : bool;
  mw_writeMu : bool;
  mw_ctx : context;
  mw_opcode : opcode;
  mw_closed : bool;
  mw_flate : bool;
  mw_trimWriter : option trimLastFourBytesWriter;
  mw_dict : option slidingWindow
}.

(** A frame as handed to the buffered writer: the header and the payload
    before masking. *)
Definition frame : Type := (header * list Z)%type.

(** The fields of [Conn] the write path reads or writes.
    - [flateEnabled] is what [c.flate()] reports (modelled from the spec:
      whether permessage-deflate was negotiated);
    - [closed] is the close state: [Some cause] once the [closed] channel
      is closed, [cause] being [closeErr];
    - [writeTimeout] lists the contexts sent on the write-timeout mailbox;
    - [randReader] is what [crypto/rand.Reader] will deliver;
    - [emitted] is a ghost trace: the frames whose header and payload the
      buffered writer accepted, oldest first. *)
Record Conn : Type := mkConn {
  client : bool;
  flateEnabled : bool;
  copts : compressionOptions;
  flateThreshold : Z;
  closed : option error;
  writeFrameMu : bool;
  writeTimeout : list context;
  writeHeader : header;
  bw : bufio_Writer;
  rwc : netConn;
  randReader : list Z;
  mw : msgWriter;
  emitted : list frame
}.

Definition set_writeFrameMu (v : bool) (c : Conn) : Conn :=
  mkConn (client c) (flateEnabled c) (copts c) (flateThreshold c) (closed c)
    v (writeTimeout c) (writeHeader c) (bw c) (rwc c) (randReader c) (mw c) (emitted c).

Definition set_writeTimeout (v : list context) (c : Conn) : Conn :=
  mkConn (client c) (flateEnabled c) (copts c) (flateThreshold c) (closed c)
    (writeFrameMu c) v (writeHeader c) (bw c) (rwc c) (randReader c) (mw c) (emitted c).

Definition set_writeHeader (v : header) (c : Conn) : Conn :=
  mkConn (client c) (flateEnabled c) (copts c) (flateThreshold c) (closed c)
    (writeFrameMu c) (writeTimeout c) v (bw c) (rwc c) (randReader c) (mw c) (emitted c).

Definition set_io (b : bufio_Writer) (w : netConn) (c : Conn) : Conn :=
  mkConn (client c) (flateEnabled c) (copts c) (flateThreshold c) (closed c)
    (writeFrameMu c) (writeTimeout c) (writeHeader c) b w (randReader c) (mw c) (emitted c).

Definition set_randReader (v : list Z) (c : Conn) : Conn :=
  mkConn (client c) (flateEnabled c) (copts c) (flateThreshold c) (closed c)
    (writeFrameMu c) (writeTimeout c) (writeHeader c) (bw c) (rwc c) v (mw c) (emitted c).

Definition set_mw (v : msgWriter) (c : Conn) : Conn :=
  mkConn (client c) (flateEnabled c) (copts c) (flateThreshold c) (closed c)
    (writeFrameMu c) (writeTimeout c) (writeHeader c) (bw c) (rwc c) (randReader c) v (emitted c).

Definition set_emitted (v : list frame) (c : Conn) : Conn :=
  mkConn (client c) (flateEnabled c) (copts c) (flateThreshold c) (closed c)
    (writeFrameMu c) (writeTimeout c) (writeHeader c) (bw c) (rwc c) (randReader c) (mw c) v.

Definition set_mu (v : bool) (m : msgWriter) : msgWriter :=
  mkMsgWriter v (mw_writeMu m) (mw_ctx m) (mw_opcode m) (mw_closed m) (mw_flate m)
    (mw_trimWriter m) (mw_dict m).

Definition set_writeMu (v : bool) (m : msgWriter) : msgWriter :=
  mkMsgWriter (mw_mu m) v (mw_ctx m) (mw_opcode m) (mw_closed m) (mw_flate m)
    (mw_trimWriter m) (mw_dict m).

Definition set_ctx (v : context) (m : msgWriter) : msgWriter :=
  mkMsgWriter (mw_mu m) (mw_writeMu m) v (mw_opcode m) (mw_closed m) (mw_flate m)
    (mw_trimWriter m) (mw_dict m).

Definition set_opcode (v : opcode) (m : msgWriter) : msgWriter :=
  mkMsgWriter (mw_mu m) (mw_writeMu m) (mw_ctx m) v (mw_closed m) (mw_flate m)
    (mw_trimWriter m) (mw_dict m).

Definition set_closed (v : bool) (m : msgWriter) : msgWriter :=
  mkMsgWriter (mw_mu m) (mw_writeMu m) (mw_ctx m) (mw_opcode m) v (mw_flate m)
    (mw_trimWriter m) (mw_dict m).

Definition set_flate (v : bool) (m : msgWriter) : msgWriter :=
  mkMsgWriter (mw_mu m) (mw_writeMu m) (mw_ctx m) (mw_opcode m) (mw_closed m) v
    (mw_trimWriter m) (mw_dict m).

Definition set_trimWriter (v : option trimLastFourBytesWriter) (m : msgWriter) : msgWriter :=
  mkMsgWriter (mw_mu m) (mw_writeMu m) (mw_ctx m) (mw_opcode m) (mw_closed m) (mw_flate m)
    v (mw_dict m).

Definition set_dict (v : option slidingWindow) (m : msgWriter) : msgWriter :=
  mkMsgWriter (mw_mu m) (mw_writeMu m) (mw_ctx m) (mw_opcode m) (mw_closed m) (mw_flate m)
    (mw_trimWriter m) v.

(** All the bytes handed to the byte stream or still staged for it, in
    order: what the peer has received plus what the next flush delivers. *)
Definition output (c : Conn) : list Z := sent (rwc c) ++ bw_buf (bw c).

(** ** Running a method

    A method either returns ([Done], with its results and the state it
    leaves) or never does: it parks on a lock nobody will release
    ([Blocked]), spins ([Spins]) or dereferences a nil pointer ([Panic]). *)
Inductive halt : Type := Blocked | Spins | Panic.

Inductive run (A : Type) : Type :=
| Done (a : A) (c : Conn)
| Halts (why : halt).
Arguments Done {A} a c.
Arguments Halts {A} why.

Definition M (A : Type) : Type := Conn -> run A.

Definition ret {A : Type} (a : A) : M A := fun c => Done a c.

Definition bind {A B : Type} (m : M A) (k : A -> M B) : M B :=
  fun c => match m c with
           | Done a c' => k a c'
           | Halts why => Halts why
           end.

Definition get : M Conn := fun c => Done c c.
Definition modify (f : Conn -> Conn) : M unit := fun c => Done tt (f c).
Definition modify_mw (f : msgWriter -> msgWriter) : M unit :=
  fun c => Done tt (set_mw (f (mw c)) c).
Definition halts {A : Type} (why : halt) : M A := fun _ => Halts why.

Declare Scope go_scope.
Delimit Scope go_scope with go.
Notation "x <- m ;; k" := (bind m (fun x => k))
  (at level 61, m at next level, right associativity) : go_scope.
Notation "m ;;; k" := (bind m (fun _ => k))
  (at level 61, right associativity) : go_scope.
Local Open Scope go_scope.

(** ** The context-aware mutex *)

Inductive lockResult : Type :=
| Acquired
| LockFailed (e : error)
| Parked.

(** Modelled from the spec: the mutex type [mu] is defined outside
    write.go.  The spec: exactly one holder; on connection close every
    acquisition fails with the close error immediately; awaiting
    acquisition observes the cancellation token (it fails with the error
    of a context that has fired).  A waiter whose context has not fired,
    on a held lock of an open connection, stays parked. *)
Definition mu_Lock (closedSt : option error) (ctx : context) (held : bool) : lockResult :=
  match closedSt with
  | Some e => LockFailed e
  | None =>
      match ctxErr ctx with
      | Some e => LockFailed e
      | None => if held then Parked else Acquired
      end
  end.

(** ** A new message writer *)

(** [newMsgWriter] of write.go: every field at its zero value (the mutex
    free, no context yet, opcode 0, no trim writer, an empty window). *)
Definition newMsgWriter : msgWriter :=
  mkMsgWriter false false context_Background opContinuation false false None None.


(** ** Sample data for the examples *)

(** A stand-in for the compressor, for the examples only (it is not
    DEFLATE): one block per call, ending in the four bytes the trim
    writer withholds. *)
Definition sampleDeflate (p : list Z) (eof : bool) (dict : list Z) : list (list Z) :=
  if eof then [[1; 0; 0; 255; 255]]
  else match p with
       | [] => []
       | _ :: _ => [map (fun x => Z.lxor x 85) p ++ [0; 0; 255; 255]]
       end.

(** A fresh connection: role, whether compression is negotiated, the
    threshold, the size of the buffered writer and the random bytes to
    come. *)
Definition sampleConn (isClient flate : bool) (threshold : Z) (size : nat)
    (rand : list Z) : Conn :=
  mkConn isClient flate (mkCopts false true) threshold None false []
    header_zero (mkBw [] size None) (mkNet [] None (errNew "broken pipe"))
    rand newMsgWriter [].

Definition hello : list Z := [72; 101; 108; 108; 111].

Definition sampleRand : list Z :=
  [17; 34; 51; 68; 85; 102; 119; 136; 153; 170; 187; 204].

(** The same connection with a byte stream that accepts [q] more bytes. *)
Definition withRoom (q : nat) (c : Conn) : Conn :=
  set_io (bw c) (mkNet (sent (rwc c)) (Some q) (ioErr (rwc c))) c.

(** The same connection once closed with [cause]. *)
Definition closedWith (cause : error) (c : Conn) : Conn :=
  mkConn (client c) (flateEnabled c) (copts c) (flateThreshold c) (Some cause)
    (writeFrameMu c) (writeTimeout c) (writeHeader c) (bw c) (rwc c)
    (randReader c) (mw c) (emitted c).

(** ** write.go *)

Section WritePath.

Set Default Proof Using "Type".

(** [flate.StatelessDeflate] belongs to klauspost/compress, outside the
    repository.  All the write path needs of it is the sequence of byte
    blocks it writes to its output for the input [p], the [eof] flag and
    the preset dictionary; every theorem below holds for any compressor. *)
Variable deflateBlocks : list Z -> bool -> list Z -> list (list Z).

(** The loop of [writeFramePayload] for a masked frame, [for len(p) > 0].
    Each round stages [j >= 1] bytes when the buffer has a positive size,
    so [length p] rounds are enough; with a buffer of size 0 the loop
    spins. *)
Fixpoint writeFramePayload_loop (fuel : nat) (key : Z) (p : list Z) (n : nat)
    : M (nat * option error) :=
  match p with
  | [] => ret (n, None)
  | _ :: _ =>
      match fuel with
      | O => halts Spins
      | S fuel' => fun c =>
          (* If the buffer is full, we need to flush. *)
          let '(ferr, b1, w1) :=
            if (bw_Available (bw c) =? 0)%nat
            then bw_Flush (bw c) (rwc c) else (None, bw c, rwc c) in
          match ferr with
          | Some e => Done (n, Some e) (set_io b1 w1 c)
          | None =>
              (* Start of next write in the buffer. *)
              let i := bw_Buffered b1 in
              let j := if (bw_Available b1 <? length p)%nat
                       then bw_Available b1 else length p in
              let '(_, werr, b2, w2) := bw_Write (firstn j p) b1 w1 in
              match werr with
              | Some e => Done (n, Some e) (set_io b2 w2 c)
              | None =>
                  (* mask(maskKey, c.writeBuf[i:c.bw.Buffered()]), in place *)
                  let r := mask key (skipn i (bw_buf b2)) in
                  let b3 := mkBw (firstn i (bw_buf b2) ++ snd r)
                                 (bw_size b2) (bw_err b2) in
                  writeFramePayload_loop fuel' (fst r) (skipn j p) (n + j)%nat
                    (set_io b3 w2 c)
              end
          end
      end
  end.

Definition writeFramePayload (p : list Z) : M (nat * option error) :=
  fun c =>
    if negb (h_masked (writeHeader c)) then
      let '(n, err, b, w) := bw_Write p (bw c) (rwc c) in
      Done (n, errd_Wrap "failed to write frame payload" err) (set_io b w c)
    else
      match writeFramePayload_loop (length p) (h_maskKey (writeHeader c)) p 0 c with
      | Done r c' => Done (fst r, errd_Wrap "failed to write frame payload" (snd r)) c'
      | Halts why => Halts why
      end.

(** Modelled from the spec: [writeFrameHeader] is defined outside
    write.go; it writes the RFC 6455 encoding of the header to the
    buffered writer. *)
Definition writeFrameHeader (h : header) : M (option error) :=
  fun c =>
    let '(_, err, b, w) := bw_Write (encodeHeader h) (bw c) (rwc c) in
    Done (errd_Wrap "failed to write frame header" err) (set_io b w c).

Definition set_fin_opcode_len (f : bool) (o : opcode) (n : Z) (h : header) : header :=
  mkHeader f (h_rsv1 h) o n (h_masked h) (h_maskKey h).

Definition set_masked (v : bool) (h : header) : header :=
  mkHeader (h_fin h) (h_rsv1 h) (h_opcode h) (h_payloadLength h) v (h_maskKey h).

Definition set_maskKey (v : Z) (h : header) : header :=
  mkHeader (h_fin h) (h_rsv1 h) (h_opcode h) (h_payloadLength h) (h_masked h) v.

Definition set_rsv1 (v : bool) (h : header) : header :=
  mkHeader (h_fin h) v (h_opcode h) (h_payloadLength h) (h_masked h) (h_maskKey h).

Definition modify_header (f : header -> header) : M unit :=
  modify (fun c => set_writeHeader (f (writeHeader c)) c).

(** [select { case <-c.closed: ...; case c.writeTimeout <- ctx: }]: the
    close cause when the connection is closed, else the send. *)
Definition select_closed_or_send (ctx : context) : M (option error) :=
  fun c =>
    match closed c with
    | Some e => Done (Some e) c
    | None => Done None (set_writeTimeout (writeTimeout c ++ [ctx]) c)
    end.

(** The client's key draw,
    [binary.Read(rand.Reader, binary.LittleEndian, &c.writeHeader.maskKey)]. *)
Definition draw_maskKey : M (option error) :=
  fun c =>
    match readUint32LE (randReader c) with
    | Some (k, rest) =>
        Done None (set_randReader rest (set_writeHeader (set_maskKey k (writeHeader c)) c))
    | None => Done (Some (readFull_error (randReader c))) (set_randReader [] c)
    end.

(** The body of [writeFrame], run with [writeFrameMu] held. *)
Definition writeFrame_locked (ctx : context) (fin flate : bool) (opcode : opcode)
    (p : list Z) : M (nat * option error) :=
  sel <- select_closed_or_send ctx ;;
  match sel with
  | Some e => ret (O, Some e)
  | None =>
      modify_header (set_fin_opcode_len fin opcode (len p)) ;;;
      c <- get ;;
      kerr <- (if client c
               then modify_header (set_masked true) ;;; draw_maskKey
               else ret None) ;;
      match kerr with
      | Some e => ret (O, Some (errWrap "failed to generate masking key" e))
      | None =>
          modify_header (set_rsv1 false) ;;;
          (if flate && (opcode_eqb opcode opText || opcode_eqb opcode opBinary)
           then modify_header (set_rsv1 true) else ret tt) ;;;
          c <- get ;;
          herr <- writeFrameHeader (writeHeader c) ;;
          match herr with
          | Some e => ret (O, Some e)
          | None =>
              r <- writeFramePayload p ;;
              match snd r with
              | Some e => ret (fst r, Some e)
              | None =>
                  modify (fun c => set_emitted (emitted c ++ [(writeHeader c, p)]) c) ;;;
                  c <- get ;;
                  ferr <- (if h_fin (writeHeader c)
                           then fun c =>
                                  let '(e, b, w) := bw_Flush (bw c) (rwc c) in
                                  Done e (set_io b w c)
                           else ret None) ;;
                  match ferr with
                  | Some e => ret (fst r, Some (errWrap "failed to flush" e))
                  | None =>
                      sel2 <- select_closed_or_send context_Background ;;
                      match sel2 with
                      | Some e => ret (fst r, Some e)
                      | None => ret (fst r, None)
                      end
                  end
              end
          end
      end
  end.

(** [writeFrame]: all writes to the connection. *)
Definition writeFrame (ctx : context) (fin flate : bool) (opcode : opcode)
    (p : list Z) : M (nat * option error) :=
  fun c =>
    match mu_Lock (closed c) ctx (writeFrameMu c) with
    | LockFailed e => Done (O, Some e) c
    | Parked => Halts Blocked
    | Acquired =>
        (r <- writeFrame_locked ctx fin flate opcode p ;;
         modify (set_writeFrameMu false) ;;;
         ret r) (set_writeFrameMu true c)
    end.

Definition writeControl (now : Z) (ctx : context) (opcode : opcode) (p : list Z)
    : M (option error) :=
  let ctx := context_WithTimeout now ctx (time_Second * 5) in
  r <- writeFrame ctx true false opcode p ;;
  match snd r with
  | Some e =>
      ret (Some (errWrap ("failed to write control frame " ++ opcode_String opcode)%string e))
  | None => ret None
  end.

(** *** The message writer *)

Definition ensureFlate : M unit :=
  modify_mw (fun m =>
    let m := match mw_trimWriter m with
             | None => set_trimWriter (Some (mkTrim [])) m
             | Some _ => m
             end in
    let m := set_dict (sw_init 8192 (mw_dict m)) m in
    set_flate true m).

Definition flateContextTakeover (c : Conn) : bool :=
  if client c then negb (clientNoContextTakeover (copts c))
  else negb (serverNoContextTakeover (copts c)).

(** [msgWriter.write]: one non-final data frame. *)
Definition msgWriter_write (p : list Z) : M (nat * option error) :=
  c <- get ;;
  r <- writeFrame (mw_ctx (mw c)) false (mw_flate (mw c)) (mw_opcode (mw c)) p ;;
  match snd r with
  | Some e => ret (fst r, Some (errWrap "failed to write data frame" e))
  | None => modify_mw (set_opcode opContinuation) ;;; ret (fst r, None)
  end.

(** Modelled from the spec: the trim writer's [Write] is defined outside
    write.go.  It emits downstream (to [msgWriter.write], as [ensureFlate]
    wires it) the withheld tail followed by the input, except the last
    four bytes of the two together, which it retains; with nothing to
    emit it makes no downstream call. *)
Definition trimWriter_Write (p : list Z) : M (nat * option error) :=
  c <- get ;;
  match mw_trimWriter (mw c) with
  | None => halts Panic
  | Some tw =>
      let all := tw_tail tw ++ p in
      let k := (length all - 4)%nat in
      if (k =? 0)%nat then
        modify_mw (set_trimWriter (Some (mkTrim all))) ;;; ret (length p, None)
      else
        r <- msgWriter_write (firstn k all) ;;
        match snd r with
        | Some e => ret (O, Some e)
        | None =>
            modify_mw (set_trimWriter (Some (mkTrim (skipn k all)))) ;;;
            ret (length p, None)
        end
  end.

(** The compressor's output blocks written to the trim writer one by one,
    up to the first error. *)
Fixpoint writeBlocks (blocks : list (list Z)) : M (option error) :=
  match blocks with
  | [] => ret None
  | b :: rest =>
      r <- trimWriter_Write b ;;
      match snd r with
      | Some e => ret (Some e)
      | None => writeBlocks rest
      end
  end.

(** [flate.StatelessDeflate(mw.trimWriter, p, eof, dict)]. *)
Definition flate_StatelessDeflate (p : list Z) (eof : bool) (dict : list Z)
    : M (option error) :=
  writeBlocks (deflateBlocks p eof dict).

(** [sync.Mutex.Lock] on [writeMu], the body, then the deferred Unlock. *)
Definition with_writeMu {A : Type} (body : M A) : M A :=
  c <- get ;;
  if mw_writeMu (mw c) then halts Blocked else
  modify_mw (set_writeMu true) ;;;
  r <- body ;;
  modify_mw (set_writeMu false) ;;;
  ret r.

(** Does this call of [msgWriter.Write] turn compression on? *)
Definition activates (c : Conn) (p : list Z) : bool :=
  flateEnabled c
  && negb (opcode_eqb (mw_opcode (mw c)) opContinuation)
  && (flateThreshold c <=? len p).

Definition msgWriter_Write_locked (p : list Z) : M (nat * option error) :=
  c <- get ;;
  if mw_closed (mw c) then ret (O, Some (errNew "cannot use closed writer")) else
  (if activates c p then ensureFlate else ret tt) ;;;
  c <- get ;;
  if mw_flate (mw c) then
    err <- flate_StatelessDeflate p false (sw_bytes (mw_dict (mw c))) ;;
    modify_mw (fun m => set_dict (sw_write p (mw_dict m)) m) ;;;
    ret (length p, err)
  else msgWriter_write p.

(** [msgWriter.Write]. *)
Definition msgWriter_Write (p : list Z) : M (nat * option error) :=
  r <- with_writeMu (msgWriter_Write_locked p) ;;
  ret (fst r, errd_Wrap "failed to write" (snd r)).

Definition msgWriter_Close_locked : M (option error) :=
  c <- get ;;
  if mw_closed (mw c) then ret (Some (errNew "cannot use closed writer")) else
  err <- (if mw_flate (mw c) then flate_StatelessDeflate [] true [] else ret None) ;;
  match err with
  | Some e => ret (Some (errWrap "failed to flush flate" e))
  | None =>
      (* We set closed after flushing the flate writer to ensure Write can succeed. *)
      modify_mw (set_closed true) ;;;
      c <- get ;;
      r <- writeFrame (mw_ctx (mw c)) true (mw_flate (mw c)) (mw_opcode (mw c)) [] ;;
      match snd r with
      | Some e => ret (Some (errWrap "failed to write fin frame" e))
      | None =>
          c <- get ;;
          (if mw_flate (mw c) && negb (flateContextTakeover c)
           then modify_mw (fun m => set_dict (sw_close (mw_dict m)) m)
           else ret tt) ;;;
          modify_mw (set_mu false) ;;;
          ret None
      end
  end.

(** [msgWriter.Close]. *)
Definition msgWriter_Close : M (option error) :=
  r <- with_writeMu msgWriter_Close_locked ;;
  ret (errd_Wrap "failed to close writer" r).

(** [msgWriter.close], run when the connection goes away: it takes
    [writeMu] for good and releases the window. *)
Definition msgWriter_close : M unit :=
  c <- get ;;
  if mw_writeMu (mw c) then halts Blocked else
  modify_mw (set_writeMu true) ;;;
  modify_mw (fun m => set_dict (sw_close (mw_dict m)) m).

Definition msgWriter_reset (ctx : context) (typ : MessageType) : M (option error) :=
  c <- get ;;
  match mu_Lock (closed c) ctx (mw_mu (mw c)) with
  | LockFailed e => ret (Some e)
  | Parked => halts Blocked
  | Acquired =>
      modify_mw (set_mu true) ;;;
      modify_mw (set_closed false) ;;;
      modify_mw (set_ctx ctx) ;;;
      modify_mw (set_opcode (opcode_of typ)) ;;;
      modify_mw (set_flate false) ;;;
      modify_mw (fun m => match mw_trimWriter m with
                          | Some tw => set_trimWriter (Some (tw_reset tw)) m
                          | None => m
                          end) ;;;
      ret None
  end.

(** [Conn.writer]; the handle it returns is the connection's one
    [msgWriter], so only the error is a result here. *)
Definition Conn_writer (ctx : context) (typ : MessageType) : M (option error) :=
  msgWriter_reset ctx typ.

(** [Conn.Writer]. *)
Definition Conn_Writer (ctx : context) (typ : MessageType) : M (option error) :=
  err <- Conn_writer ctx typ ;;
  ret (errd_Wrap "failed to get writer" err).

(** [Conn.write]. *)
Definition Conn_write (ctx : context) (typ : MessageType) (p : list Z)
    : M (nat * option error) :=
  err <- Conn_writer ctx typ ;;
  match err with
  | Some e => ret (O, Some e)
  | None =>
      c <- get ;;
      if negb (flateEnabled c) then
        r <- writeFrame ctx true false (mw_opcode (mw c)) p ;;
        modify_mw (set_mu false) ;;;
        ret r
      else
        r <- msgWriter_Write p ;;
        match snd r with
        | Some e => ret (fst r, Some e)
        | None =>
            cerr <- msgWriter_Close ;;
            ret (fst r, cerr)
        end
  end.

(** [Conn.Write]. *)
Definition Conn_Write (ctx : context) (typ : MessageType) (p : list Z) : M (option error) :=
  r <- Conn_write ctx typ p ;;
  ret (errd_Wrap "failed to write msg" (snd r)).

(** The streaming path for one whole message: [Writer], one [Write] of
    the payload, [Close]; it stops at the first error, as a caller does. *)
Definition stream_message (ctx : context) (typ : MessageType) (p : list Z)
    : M (option error) :=
  err <- Conn_Writer ctx typ ;;
  match err with
  | Some e => ret (Some e)
  | None =>
      r <- msgWriter_Write p ;;
      match snd r with
      | Some e => ret (Some e)
      | None => msgWriter_Close
      end
  end.

(** * The vocabulary of the properties *)

(** ** Masking *)

Definition uint32 (k : Z) : Prop := 0 <= k < 2 ^ 32.

(** ** The buffered writer *)

(** What every operation of the buffered writer keeps: the size of the
    buffer, the error the stream fails with, a sticky error once set, and
    a stream that never fails. *)
Definition io_keeps (b : bufio_Writer) (w : netConn) (b' : bufio_Writer) (w' : netConn) : Prop :=
  bw_size b' = bw_size b /\ ioErr w' = ioErr w /\
  (bw_err b' = None -> bw_err b = None) /\
  (room w = None -> room w' = None).

(** The loop has left because its condition is false. *)
Definition exited (p : list Z) (b : bufio_Writer) : Prop :=
  (length p <= bw_Available b)%nat \/ bw_err b <> None.

(** ** Frame payload *)

(** What a run of the masked loop guarantees.  It never returns only when
    the buffer has size 0 (or the fuel is short of the payload); a run
    that reports no error has appended to the output exactly the payload
    masked in one pass, whatever the size of the buffer and however full
    it was on entry. *)
Definition payload_loop_post (fuel : nat) (key : Z) (p : list Z) (n : nat)
    (c : Conn) (res : run (nat * option error)) : Prop :=
  match res with
  | Halts _ => bw_size (bw c) = O \/ (fuel < length p)%nat
  | Done r c' =>
      exists b w,
        c' = set_io b w c /\
        io_keeps (bw c) (rwc c) b w /\
        (snd r = None ->
           fst r = (n + length p)%nat /\
           sent w ++ bw_buf b = output c ++ snd (mask key p)) /\
        (room (rwc c) = None -> bw_err (bw c) = None ->
           snd r = None /\ bw_err b = None)
  end.

(** ** One frame *)

(** The payload as it goes to the buffered writer. *)
Definition payloadBytes (h : header) (p : list Z) : list Z :=
  if h_masked h then snd (mask (h_maskKey h) p) else p.

Definition isData (o : opcode) : bool := opcode_eqb o opText || opcode_eqb o opBinary.

(** The header [writeFrame] builds in state [c]: a client sets the mask
    flag and draws the next four bytes of the random source as key. *)
Definition frameHeader (c : Conn) (fin flate : bool) (op : opcode) (p : list Z) : header :=
  mkHeader fin (flate && isData op) op (len p)
    (if client c then true else h_masked (writeHeader c))
    (if client c
     then match readUint32LE (randReader c) with
          | Some (k, _) => k
          | None => h_maskKey (writeHeader c)
          end
     else h_maskKey (writeHeader c)).

(** What no frame emission touches. *)
Definition keeps (c c' : Conn) : Prop :=
  client c' = client c /\ flateEnabled c' = flateEnabled c /\
  copts c' = copts c /\ flateThreshold c' = flateThreshold c /\
  closed c' = closed c /\ writeFrameMu c' = writeFrameMu c /\ mw c' = mw c /\
  bw_size (bw c') = bw_size (bw c) /\ ioErr (rwc c') = ioErr (rwc c).

(** The second half of [writeFrame_locked], from the header write on. *)
Definition stage (p : list Z) : M (nat * option error) :=
  c <- get ;;
  herr <- writeFrameHeader (writeHeader c) ;;
  match herr with
  | Some e => ret (O, Some e)
  | None =>
      r <- writeFramePayload p ;;
      match snd r with
      | Some e => ret (fst r, Some e)
      | None =>
          modify (fun c => set_emitted (emitted c ++ [(writeHeader c, p)]) c) ;;;
          c <- get ;;
          ferr <- (if h_fin (writeHeader c)
                   then fun c =>
                          let '(e, b, w) := bw_Flush (bw c) (rwc c) in
                          Done e (set_io b w c)
                   else ret None) ;;
          match ferr with
          | Some e => ret (fst r, Some (errWrap "failed to flush" e))
          | None =>
              sel2 <- select_closed_or_send context_Background ;;
              match sel2 with
              | Some e => ret (fst r, Some e)
              | None => ret (fst r, None)
              end
          end
      end
  end.

(** The state in which [stage] starts: the context is on the mailbox, the
    header is set and, for a client, the key is drawn. *)
Definition prepared (ctx : context) (h : header) (c : Conn) : Conn :=
  set_randReader (if client c then skipn 4 (randReader c) else randReader c)
    (set_writeHeader h
       (set_writeTimeout (writeTimeout c ++ [ctx]) (set_writeFrameMu true c))).

(** How [stage] can end.  [h] is the header in place and [p] the payload. *)
Inductive staged (h : header) (p : list Z) (c : Conn)
    (r : nat * option error) (c' : Conn) : Prop :=
| StagedNot :
    emitted c' = emitted c -> snd r <> None -> staged h p c r c'
| StagedOk :
    emitted c' = emitted c ++ [(h, p)] -> r = (length p, None) ->
    output c' = output c ++ encodeHeader h ++ payloadBytes h p ->
    (h_fin h = true -> bw_buf (bw c') = []) ->
    writeTimeout c' = writeTimeout c ++ [context_Background] ->
    staged h p c r c'
| StagedFlushFailed :
    emitted c' = emitted c ++ [(h, p)] -> snd r <> None -> h_fin h = true ->
    staged h p c r c'.

Ltac keeps_from K :=
  unfold keeps; cbn; destruct K as (? & ? & _); repeat split; auto.

(** The three ways a call of [writeFrame] that returns can end.  [h] is
    the header of the frame and [p] its payload. *)
Inductive frame_outcome (ctx : context) (h : header) (p : list Z)
    (c : Conn) (r : nat * option error) (c' : Conn) : Prop :=
| NotEmitted :
    (* an error before the whole frame was staged *)
    emitted c' = emitted c -> snd r <> None ->
    frame_outcome ctx h p c r c'
| Emitted :
    emitted c' = emitted c ++ [(h, p)] -> r = (length p, None) ->
    writeHeader c' = h ->
    output c' = output c ++ encodeHeader h ++ payloadBytes h p ->
    (h_fin h = true -> bw_buf (bw c') = []) ->
    writeTimeout c' = writeTimeout c ++ [ctx; context_Background] ->
    randReader c' = (if client c then skipn 4 (randReader c) else randReader c) ->
    closed c = None -> ctxErr ctx = None ->
    frame_outcome ctx h p c r c'
| EmittedFlushFailed :
    (* the frame was staged whole; the flush of a final frame failed *)
    emitted c' = emitted c ++ [(h, p)] -> snd r <> None -> h_fin h = true ->
    frame_outcome ctx h p c r c'.

(** A connection on which the next [n] frames go through: open, frame
    lock free, no sticky error, a byte stream that accepts everything, a
    buffer of positive size and, for a client, [4 * n] random bytes. *)
Definition ready (n : nat) (c : Conn) : Prop :=
  closed c = None /\ writeFrameMu c = false /\
  bw_err (bw c) = None /\ room (rwc c) = None /\
  (0 < bw_size (bw c))%nat /\
  (client c = true -> (4 * n <= length (randReader c))%nat).

(** ** The message writer *)

(** What no method of the message writer touches. *)
Definition mkeeps (c c' : Conn) : Prop :=
  client c' = client c /\ flateEnabled c' = flateEnabled c /\
  copts c' = copts c /\ flateThreshold c' = flateThreshold c /\
  closed c' = closed c /\ writeFrameMu c' = writeFrameMu c /\
  bw_size (bw c') = bw_size (bw c) /\ ioErr (rwc c') = ioErr (rwc c) /\
  (room (rwc c) = None -> room (rwc c') = None).

(** The non-final frames a writer emits in a row: the first carries the
    writer's opcode [o] and, when compression is on and [o] is text or
    binary, RSV1; every later one is a continuation frame without RSV1.
    [o'] is the writer's opcode after the last of them. *)
Inductive chain (fl : bool) : opcode -> list frame -> opcode -> Prop :=
| chain_nil (o : opcode) : chain fl o [] o
| chain_cons (o o' : opcode) (f : frame) (fs : list frame) :
    h_opcode (fst f) = o -> h_fin (fst f) = false ->
    h_rsv1 (fst f) = fl && isData o ->
    chain fl opContinuation fs o' ->
    chain fl o (f :: fs) o'.

(** The fields of the writer that emitting data frames leaves alone. *)
Definition wkeeps (m m' : msgWriter) : Prop :=
  mw_mu m' = mw_mu m /\ mw_writeMu m' = mw_writeMu m /\ mw_ctx m' = mw_ctx m /\
  mw_closed m' = mw_closed m /\ mw_flate m' = mw_flate m /\
  mw_dict m' = mw_dict m /\
  isNil (mw_trimWriter m') = isNil (mw_trimWriter m).

(** A stretch of data-frame emission by the writer. *)
Definition wsteps (c c' : Conn) : Prop :=
  mkeeps c c' /\ wkeeps (mw c) (mw c') /\
  exists fs,
    emitted c' = emitted c ++ fs /\
    chain (mw_flate (mw c)) (mw_opcode (mw c)) fs (mw_opcode (mw c')).

(** *** [msgWriter.Write] *)

(** The writer after [ensureFlate]. *)
Definition ensureFlate_mw (m : msgWriter) : msgWriter :=
  let m1 := match mw_trimWriter m with
            | None => set_trimWriter (Some (mkTrim [])) m
            | Some _ => m
            end in
  set_flate true (set_dict (sw_init 8192 (mw_dict m1)) m1).

(** What a [Write] on an open writer does to the writer and to the trace. *)
Record write_post (p : list Z) (c c' : Conn) : Prop := {
  wp_keeps : mkeeps c c';
  wp_mu : mw_mu (mw c') = mw_mu (mw c);
  wp_writeMu : mw_writeMu (mw c) = false /\ mw_writeMu (mw c') = false;
  wp_ctx : mw_ctx (mw c') = mw_ctx (mw c);
  wp_closed : mw_closed (mw c') = false;
  wp_flate : mw_flate (mw c') = mw_flate (mw c) || activates c p;
  wp_dict :
    mw_dict (mw c') =
    if mw_flate (mw c')
    then sw_write p (if activates c p then sw_init 8192 (mw_dict (mw c))
                     else mw_dict (mw c))
    else mw_dict (mw c);
  wp_trim :
    isNil (mw_trimWriter (mw c')) =
    if activates c p then false else isNil (mw_trimWriter (mw c));
  wp_frames :
    exists fs,
      emitted c' = emitted c ++ fs /\
      chain (mw_flate (mw c')) (mw_opcode (mw c)) fs (mw_opcode (mw c'))
}.

(** ** Uncompressed messages *)

(** The writer after a successful [reset]. *)
Definition reset_mw (ctx : context) (typ : MessageType) (m : msgWriter) : msgWriter :=
  mkMsgWriter true (mw_writeMu m) ctx (opcode_of typ) false false
    (match mw_trimWriter m with
     | Some tw => Some (tw_reset tw)
     | None => None
     end)
    (mw_dict m).

(** ** One-shot and streaming *)

(** A frame as it travels: the header and the payload after masking. *)
Definition onWire (f : frame) : frame := (fst f, payloadBytes (fst f) (snd f)).

(** Modelled from the spec: the message reader is outside write.go.  The
    spec: a text or binary frame begins a message and fixes its type and,
    by RSV1, whether it is compressed; continuation frames extend it; the
    frame with FIN ends it; a continuation frame with no message in
    progress is a protocol error.  The payload is unmasked with the key of
    the frame.  [reassemble_rest] reads the frames after the first. *)
Fixpoint reassemble_rest (acc : list Z) (fs : list frame) : option (list Z) :=
  match fs with
  | [] => None
  | (h, q) :: rest =>
      match h_opcode h with
      | opContinuation =>
          if h_fin h
          then match rest with
               | [] => Some (acc ++ payloadBytes h q)
               | _ :: _ => None
               end
          else reassemble_rest (acc ++ payloadBytes h q) rest
      | _ => None
      end
  end.

(** The one message a list of received frames makes up: its type, its
    compression flag and its payload. *)
Definition reassemble (fs : list frame) : option (opcode * bool * list Z) :=
  match fs with
  | [] => None
  | (h, q) :: rest =>
      if isData (h_opcode h) then
        if h_fin h
        then match rest with
             | [] => Some (h_opcode h, h_rsv1 h, payloadBytes h q)
             | _ :: _ => None
             end
        else match reassemble_rest (payloadBytes h q) rest with
             | Some body => Some (h_opcode h, h_rsv1 h, body)
             | None => None
             end
      else None
  end.

(** ** Callers of the message writer *)

(** What a caller does with an open writer. *)
Inductive writerOp : Type :=
| OpWrite (p : list Z)
| OpClose.

Definition run_op (o : writerOp) : M (option error) :=
  match o with
  | OpWrite p => r <- msgWriter_Write p ;; ret (snd r)
  | OpClose => msgWriter_Close
  end.

(** The calls one after the other, whatever each returns; the result
    lists the errors. *)
Fixpoint run_ops (ops : list writerOp) : M (list (option error)) :=
  match ops with
  | [] => ret []
  | o :: rest =>
      e <- run_op o ;;
      es <- run_ops rest ;;
      ret (e :: es)
  end.

(** The error of a call on a closed writer. *)
Definition closed_writer_error (o : writerOp) : option error :=
  match o with
  | OpWrite _ => Some (errWrap "failed to write" UseClosedWriter)
  | OpClose => Some (errWrap "failed to close writer" UseClosedWriter)
  end.

(** ** Close under compression; a failed final frame *)

(** Does the negotiated option forbid this side to reuse its dictionary? *)
Definition noContextTakeover (c : Conn) : bool :=
  if client c then clientNoContextTakeover (copts c)
  else serverNoContextTakeover (copts c).

(** ** The frames of a message *)

(** A continuation frame without RSV1. *)
Definition cont_frame (f : frame) : Prop :=
  h_opcode (fst f) = opContinuation /\ h_rsv1 (fst f) = false.

(** The frames of one message, as they stand at some point: a run of
    non-final frames from the message type on and, once the writer is
    closed, possibly the final frame. *)
Definition trace_inv (t : opcode) (c0 c : Conn) : Prop :=
  exists fs,
    chain (mw_flate (mw c)) t fs (mw_opcode (mw c)) /\
    (emitted c = emitted c0 ++ fs \/
     (mw_closed (mw c) = true /\
      exists h,
        emitted c = emitted c0 ++ fs ++ [(h, [])] /\ h_fin h = true /\
        h_opcode h = mw_opcode (mw c) /\
        h_rsv1 h = mw_flate (mw c) && isData (mw_opcode (mw c)))).

(** ** After a failed frame *)

(** A connection on which no frame can go out under [ctx] any more: it is
    closed, the context has fired, the buffered writer holds its sticky
    error or, for a client, the random source has run dry. *)
Definition dead (ctx : context) (c : Conn) : Prop :=
  closed c <> None \/ ctxErr ctx <> None \/ bw_err (bw c) <> None \/
  (client c = true /\ readUint32LE (randReader c) = None).

(** The writer's own context is the one its frames go out under. *)
Definition stuck (c : Conn) : Prop := dead (mw_ctx (mw c)) c.

(** A computation that, started on a stuck connection, emits nothing and
    leaves the connection stuck. *)
Definition mute_at {A : Type} (m : M A) (c : Conn) : Prop :=
  stuck c -> forall r c', m c = Done r c' -> emitted c' = emitted c /\ stuck c'.

(** ** Activation of compression; opcode and RSV1 along a message *)

(** A message that stays uncompressed: compression is off and, the first
    frame being out (or the writer closed), cannot come on any more. *)
Definition plain_inv (c0 c : Conn) : Prop :=
  mw_flate (mw c) = false /\
  (mw_opcode (mw c) = opContinuation \/ mw_closed (mw c) = true) /\
  exists fs,
    emitted c = emitted c0 ++ fs /\
    Forall (fun f => h_rsv1 (fst f) = false) fs.

(** ** Failed frames; the locks *)

(** A connection on which a frame write under [ctx] can only fail: it is
    closed, the context has fired or the buffered writer holds its sticky
    error. *)
Definition broken (ctx : context) (c : Conn) : Prop :=
  closed c <> None \/ ctxErr ctx <> None \/ bw_err (bw c) <> None.

(** ** Whole messages *)

(** The frames of an uncompressed message written in the pieces [ps]:
    one non-final frame for each piece, the first with the opcode [o] and
    the others continuation frames, then an empty final frame; none has
    RSV1. *)
Inductive plain_frames : opcode -> list (list Z) -> list frame -> Prop :=
| plain_last (o : opcode) (h : header) :
    h_fin h = true -> h_opcode h = o -> h_rsv1 h = false ->
    plain_frames o [] [(h, [])]
| plain_more (o : opcode) (h : header) (p : list Z) (ps : list (list Z))
    (fs : list frame) :
    h_fin h = false -> h_opcode h = o -> h_rsv1 h = false ->
    plain_frames opContinuation ps fs ->
    plain_frames o (p :: ps) ((h, p) :: fs).

(** The bytes of a run of frames as they travel: each header followed by
    its payload, masked when the header says so. *)
Definition wireBytes (fs : list frame) : list Z :=
  concat (map (fun f => encodeHeader (fst f) ++ payloadBytes (fst f) (snd f)) fs).

(** ** Control frames while a message is written *)

(** Close, ping and pong are the control opcodes (8 and above). *)
Definition isControl (o : opcode) : bool := 8 <=? opcode_code o.

(** What happens on the write side while a message is in progress: a
    call on the message writer, or a control frame. *)
Inductive connOp : Type :=
| OnWriter (o : writerOp)
| OnControl (now : Z) (ctx : context) (op : opcode) (p : list Z).

Definition run_connOp (a : connOp) : M (option error) :=
  match a with
  | OnWriter o => run_op o
  | OnControl now ctx op p => writeControl now ctx op p
  end.

Fixpoint run_connOps (l : list connOp) : M (list (option error)) :=
  match l with
  | [] => ret []
  | a :: rest =>
      e <- run_connOp a ;;
      es <- run_connOps rest ;;
      ret (e :: es)
  end.

(** Every control write is given a control opcode. *)
Definition control_opcodes (l : list connOp) : Prop :=
  Forall (fun a => match a with
                   | OnControl _ _ op _ => isControl op = true
                   | OnWriter _ => True
                   end) l.

(** The data frames among the frames emitted. *)
Definition dataFrames (fs : list frame) : list frame :=
  filter (fun f => negb (isControl (h_opcode (fst f)))) fs.

(** The data frames of one message, as they stand at some point, against
    the state of the writer: a run of non-final frames from the message
    type on and, once the writer is closed, possibly the final frame. *)
Definition data_inv (t : opcode) (ds : list frame) (m : msgWriter) : Prop :=
  exists fs,
    chain (mw_flate m) t fs (mw_opcode m) /\
    (ds = fs \/
     (mw_closed m = true /\
      exists h,
        ds = fs ++ [(h, [])] /\ h_fin h = true /\ h_opcode h = mw_opcode m /\
        h_rsv1 h = mw_flate m && isData (mw_opcode m))).

(** ** What the write path leaves alone; one-shot writes in a row *)

(** One-shot writes one after the other. *)
Fixpoint write_all (ctx : context) (ms : list (MessageType * list Z))
    : M (list (option error)) :=
  match ms with
  | [] => ret []
  | m :: rest =>
      e <- Conn_Write ctx (fst m) (snd m) ;;
      es <- write_all ctx rest ;;
      ret (e :: es)
  end.

(** * Properties *)

(** ** Masking *)

Lemma mask_app (key : Z) (a b : list Z) :
  mask key (a ++ b) =
  (fst (mask (fst (mask key a)) b),
   snd (mask key a) ++ snd (mask (fst (mask key a)) b)).
Proof.
  revert key; induction a as [|x a IH]; intros key; cbn [mask app fst snd].
  - destruct (mask key b); reflexivity.
  - rewrite IH; reflexivity.
Qed.

Lemma mask_length (key : Z) (b : list Z) : length (snd (mask key b)) = length b.
Proof.
  revert key; induction b as [|x b IH]; intros key; cbn [mask snd length]; auto.
Qed.

Lemma testbit_uint32_high (k m : Z) : uint32 k -> 32 <= m -> Z.testbit k m = false.
Proof.
  intros [H0 H1] Hm.
  destruct (Z.eq_dec k 0) as [->|Hk]; [apply Z.bits_0|].
  apply Z.bits_above_log2; [lia|].
  assert (Z.log2 k < 32) by (apply Z.log2_lt_pow2; lia).
  lia.
Qed.

Lemma rotr8_testbit (k m : Z) :
  0 <= m ->
  Z.testbit (rotr8 k) m =
  Z.testbit k (m + 8) || ((24 <=? m) && (m <? 32) && Z.testbit k (m - 24)).
Proof.
  intros Hm. unfold rotr8.
  rewrite Z.lor_spec, Z.shiftr_spec by lia.
  f_equal.
  destruct (Z.leb_spec 24 m) as [H24|H24].
  - rewrite Z.shiftl_spec by lia.
    change 255 with (Z.ones 8).
    rewrite Z.land_spec, Z.testbit_ones_nonneg by lia.
    destruct (Z.ltb_spec m 32) as [H32|H32];
      destruct (Z.ltb_spec (m - 24) 8); try lia; cbn [andb];
      rewrite ?andb_true_r, ?andb_false_r; reflexivity.
  - rewrite Z.shiftl_spec_low by lia. reflexivity.
Qed.

Lemma rotr8_uint32 (k : Z) : uint32 k -> uint32 (rotr8 k).
Proof.
  intros Hk. pose proof Hk as [H0 H1].
  assert (Hnn : 0 <= rotr8 k).
  { unfold rotr8. apply Z.lor_nonneg. split.
    - apply Z.shiftr_nonneg; lia.
    - apply Z.shiftl_nonneg. apply Z.land_nonneg. right; lia. }
  split; [exact Hnn|].
  destruct (Z.eq_dec (rotr8 k) 0) as [->|Hne]; [lia|].
  apply Z.log2_lt_pow2; [lia|].
  destruct (Z.lt_ge_cases (Z.log2 (rotr8 k)) 32) as [Hlt|Hge]; [exact Hlt|].
  exfalso.
  assert (Hb : Z.testbit (rotr8 k) (Z.log2 (rotr8 k)) = true)
    by (apply Z.bit_log2; lia).
  rewrite rotr8_testbit in Hb by lia.
  rewrite (testbit_uint32_high k (Z.log2 (rotr8 k) + 8)) in Hb by (auto; lia).
  destruct (Z.ltb_spec (Z.log2 (rotr8 k)) 32); [lia|].
  rewrite andb_false_r in Hb. discriminate.
Qed.

Lemma keyByte_testbit (k : Z) (i : nat) (n : Z) :
  0 <= n ->
  Z.testbit (keyByte k i) n = Z.testbit k (n + 8 * Z.of_nat (i mod 4)) && (n <? 8).
Proof.
  intros Hn. unfold keyByte. change 255 with (Z.ones 8).
  rewrite Z.land_spec, Z.testbit_ones_nonneg, Z.shiftr_spec by lia.
  reflexivity.
Qed.

Lemma keyByte_rotr8 (k : Z) (i : nat) :
  uint32 k -> keyByte (rotr8 k) i = keyByte k (S i).
Proof.
  intros Hk. apply Z.bits_inj'. intros n Hn.
  rewrite !keyByte_testbit by lia.
  destruct (Z.ltb_spec n 8) as [Hn8|Hn8]; [|rewrite !andb_false_r; reflexivity].
  rewrite !andb_true_r.
  assert (Hj : (i mod 4 < 4)%nat) by (apply Nat.mod_upper_bound; lia).
  assert (HS : (S i mod 4 = S (i mod 4) mod 4)%nat).
  { replace (S i) with (i + 1)%nat by lia.
    rewrite <- Nat.Div0.add_mod_idemp_l.
    replace (i mod 4 + 1)%nat with (S (i mod 4)) by lia. reflexivity. }
  rewrite HS. rewrite rotr8_testbit by lia.
  destruct (i mod 4)%nat as [|[|[|[|j]]]]; try lia;
    repeat match goal with
           | |- context [Z.of_nat ?x] =>
               let v := eval vm_compute in (Z.of_nat x) in
               change (Z.of_nat x) with v
           end;
    rewrite ?(testbit_uint32_high k (n + 8 * 3 + 8)) by (auto; lia);
    match goal with
    | |- context [24 <=? ?e] =>
        destruct (Z.leb_spec 24 e); destruct (Z.ltb_spec e 32); try lia
    end;
    cbn [andb orb]; rewrite ?orb_false_r; f_equal; lia.
Qed.

(** The byte loop with its rotating key is the cyclic XOR. *)
Lemma mask_xorCyclic_from (key k : Z) (off : nat) (p : list Z) :
  uint32 k ->
  (forall i, keyByte k i = keyByte key (off + i)) ->
  snd (mask k p) = xorCyclic key off p.
Proof.
  revert k off; induction p as [|x p IH]; intros k off Hk Hrot;
    cbn [mask xorCyclic snd]; [reflexivity|].
  f_equal.
  - f_equal. specialize (Hrot O). rewrite Nat.add_0_r in Hrot.
    rewrite <- Hrot. unfold keyByte.
    change (8 * Z.of_nat (0 mod 4)) with 0. rewrite Z.shiftr_0_r. reflexivity.
  - apply IH; [apply rotr8_uint32; exact Hk|].
    intros i. rewrite keyByte_rotr8 by exact Hk.
    rewrite Hrot. f_equal. lia.
Qed.

Lemma mask_xorCyclic (key : Z) (p : list Z) :
  uint32 key -> snd (mask key p) = xorCyclic key 0 p.
Proof.
  intros Hk. apply mask_xorCyclic_from; [exact Hk|]. intros i; reflexivity.
Qed.

Lemma xorCyclic_nth (key : Z) (off : nat) (p : list Z) (i : nat) :
  (i < length p)%nat ->
  nth i (xorCyclic key off p) 0 = Z.lxor (nth i p 0) (keyByte key (off + i)).
Proof.
  revert off i; induction p as [|x p IH]; intros off i Hi; cbn [length] in Hi; [lia|].
  destruct i as [|i]; cbn [xorCyclic nth].
  - rewrite Nat.add_0_r; reflexivity.
  - rewrite IH by lia. do 2 f_equal. lia.
Qed.

Lemma readUint32LE_uint32 (src rest : list Z) (k : Z) :
  readUint32LE src = Some (k, rest) -> uint32 k /\ rest = skipn 4 src.
Proof.
  destruct src as [|b0 [|b1 [|b2 [|b3 r]]]]; cbn; try discriminate.
  intros H; inversion H; subst. split; [|reflexivity].
  unfold uint32. apply Z.mod_pos_bound. lia.
Qed.

(** ** The buffered writer *)

Lemma net_Write_spec (w : netConn) (p : list Z) :
  let '(n, err, w') := net_Write w p in
  ioErr w' = ioErr w /\
  (err = None -> n = length p /\ sent w' = sent w ++ p) /\
  (room w = None -> err = None /\ room w' = None).
Proof.
  unfold net_Write. destruct (room w) as [q|] eqn:R.
  - destruct (Nat.leb_spec (length p) q); cbn; repeat split; auto; discriminate.
  - cbn; repeat split; auto.
Qed.

Lemma io_keeps_refl b w : io_keeps b w b w.
Proof. unfold io_keeps; auto. Qed.

Lemma io_keeps_trans b w b1 w1 b2 w2 :
  io_keeps b w b1 w1 -> io_keeps b1 w1 b2 w2 -> io_keeps b w b2 w2.
Proof.
  unfold io_keeps. intros (A1 & A2 & A3 & A4) (B1 & B2 & B3 & B4).
  repeat split; try congruence; auto.
Qed.

Lemma bw_Flush_spec (b : bufio_Writer) (w : netConn) :
  let '(err, b', w') := bw_Flush b w in
  io_keeps b w b' w' /\ bw_err b' = err /\
  (err = None ->
     sent w' ++ bw_buf b' = sent w ++ bw_buf b /\ bw_buf b' = []) /\
  (room w = None -> bw_err b = None -> err = None).
Proof.
  unfold bw_Flush, io_keeps.
  destruct (bw_err b) as [e|] eqn:E;
    [cbn; repeat split; intros; auto; congruence|].
  destruct (Nat.eqb_spec (bw_Buffered b) 0) as [H0|H0].
  - unfold bw_Buffered in H0. apply length_zero_iff_nil in H0.
    cbn. rewrite H0. repeat split; auto.
  - pose proof (net_Write_spec w (bw_buf b)) as S.
    destruct (net_Write w (bw_buf b)) as [[n err] w'].
    destruct S as (S1 & S2 & S3).
    destruct err as [e|].
    + rewrite andb_false_r. cbn. repeat split; intros; auto; try congruence.
      * apply S3; assumption.
      * destruct (S3 H); discriminate.
    + destruct (S2 eq_refl) as [-> S2'].
      unfold bw_Buffered. rewrite Nat.ltb_irrefl. cbn.
      rewrite S2', app_nil_r. repeat split; intros; auto.
      apply S3; assumption.
Qed.

Lemma bw_Write_loop_spec (fuel : nat) : forall p nn b w,
  let '(p', nn', b', w') := bw_Write_loop fuel p nn b w in
  io_keeps b w b' w' /\
  (bw_err b' = None ->
     (nn' + length p' = nn + length p)%nat /\
     sent w' ++ bw_buf b' ++ p' = sent w ++ bw_buf b ++ p) /\
  (room w = None -> bw_err b = None -> bw_err b' = None).
Proof.
  induction fuel as [|fuel IH]; intros p nn b w; cbn [bw_Write_loop].
  - split; [apply io_keeps_refl|]. split; auto.
  - destruct ((bw_Available b <? length p)%nat && isNil (bw_err b)) eqn:C.
    2:{ split; [apply io_keeps_refl|]. split; auto. }
    apply andb_prop in C. destruct C as [C1 C2].
    destruct (bw_err b) as [e|] eqn:E; [discriminate|].
    destruct (Nat.eqb_spec (bw_Buffered b) 0) as [H0|H0].
    + pose proof (net_Write_spec w p) as S.
      destruct (net_Write w p) as [[n err] w1]. destruct S as (S1 & S2 & S3).
      specialize (IH (skipn n p) (nn + n)%nat (mkBw (bw_buf b) (bw_size b) err) w1).
      destruct (bw_Write_loop fuel (skipn n p) (nn + n) _ w1) as [[[p' nn'] b'] w'].
      destruct IH as (K & I1 & I2). cbn [bw_buf bw_size bw_err] in K, I1, I2.
      assert (K' := K). destruct K' as (K1 & K2 & K3 & K4). cbn [bw_size bw_err] in K1, K3.
      split.
      { unfold io_keeps. repeat split; auto; try congruence.
        intros R. apply K4. apply S3. exact R. }
      split.
      * intros Hb. destruct (I1 Hb) as [I1a I1b].
        destruct (S2 (K3 Hb)) as [-> S2b].
        rewrite skipn_all in I1a, I1b. cbn [length] in I1a.
        split; [lia|]. rewrite I1b, S2b.
        unfold bw_Buffered in H0. apply length_zero_iff_nil in H0.
        rewrite H0. cbn. rewrite !app_nil_r. reflexivity.
      * intros R _. apply I2; apply S3; exact R.
    + set (n := Nat.min (bw_Available b) (length p)).
      pose proof (bw_Flush_spec (mkBw (bw_buf b ++ firstn n p) (bw_size b) None) w) as F.
      destruct (bw_Flush (mkBw (bw_buf b ++ firstn n p) (bw_size b) None) w) as [[ferr b2] w2].
      destruct F as (FK & Ferr & F1 & F2).
      specialize (IH (skipn n p) (nn + n)%nat b2 w2).
      destruct (bw_Write_loop fuel (skipn n p) (nn + n) b2 w2) as [[[p' nn'] b'] w'].
      destruct IH as (K & I1 & I2).
      split.
      { eapply io_keeps_trans; [|exact K].
        unfold io_keeps in FK |- *. cbn [bw_size bw_err] in FK.
        destruct FK as (FK1 & FK2 & FK3 & FK4). repeat split; auto. }
      assert (Hlen : (n <= length p)%nat) by (unfold n; lia).
      split.
      * intros Hb. destruct (I1 Hb) as [I1a I1b].
        rewrite length_skipn in I1a. split; [lia|].
        rewrite I1b.
        destruct K as (_ & _ & K3 & _).
        assert (Hf : ferr = None) by (rewrite <- Ferr; auto).
        destruct (F1 Hf) as (F1a & F1b).
        cbn [bw_buf] in F1a. rewrite F1b in F1a |- *. rewrite app_nil_r in F1a.
        cbn [app]. rewrite F1a.
        rewrite <- !app_assoc. rewrite firstn_skipn. reflexivity.
      * intros R _. apply I2.
        -- destruct FK as (_ & _ & _ & FK4). apply FK4; exact R.
        -- rewrite Ferr. apply F2; auto.
Qed.

Lemma bw_Write_loop_direct (fuel : nat) p nn b w :
  bw_Buffered b = O ->
  let '(p', _, b', _) := bw_Write_loop (S (S fuel)) p nn b w in exited p' b'.
Proof.
  intros H0. cbn [bw_Write_loop].
  destruct ((bw_Available b <? length p)%nat && isNil (bw_err b)) eqn:C.
  - rewrite H0. cbn [Nat.eqb].
    pose proof (net_Write_spec w p) as S.
    destruct (net_Write w p) as [[n err] w1]. destruct S as (S1 & S2 & S3).
    cbn [bw_err]. destruct err as [e|].
    + rewrite andb_false_r. right. cbn. discriminate.
    + destruct (S2 eq_refl) as [-> _]. rewrite skipn_all. cbn [length].
      cbn [Nat.ltb Nat.leb andb]. left. cbn; lia.
  - apply andb_false_iff in C. destruct C as [C|C].
    + left. apply Nat.ltb_ge in C. exact C.
    + right. destruct (bw_err b); [discriminate|discriminate].
Qed.

(** Three rounds of fuel are enough for the loop of [Write]. *)
Lemma bw_Write_loop_exits p nn b w :
  let '(p', _, b', _) := bw_Write_loop 3 p nn b w in exited p' b'.
Proof.
  cbn [bw_Write_loop].
  destruct ((bw_Available b <? length p)%nat && isNil (bw_err b)) eqn:C.
  2:{ apply andb_false_iff in C. destruct C as [C|C].
      - left. apply Nat.ltb_ge in C. exact C.
      - right. destruct (bw_err b); discriminate. }
  destruct (Nat.eqb_spec (bw_Buffered b) 0) as [H0|H0].
  - pose proof (bw_Write_loop_direct 1 p nn b w H0) as D.
    cbn [bw_Write_loop] in D. rewrite C in D.
    rewrite H0 in D. cbn [Nat.eqb] in D. exact D.
  - set (n := Nat.min (bw_Available b) (length p)).
    pose proof (bw_Flush_spec (mkBw (bw_buf b ++ firstn n p) (bw_size b) (bw_err b)) w) as F.
    destruct (bw_Flush (mkBw (bw_buf b ++ firstn n p) (bw_size b) (bw_err b)) w)
      as [[ferr b2] w2].
    destruct F as (FK & Ferr & F1 & F2).
    destruct ferr as [e|].
    + rewrite Ferr. rewrite !andb_false_r. right. rewrite Ferr. discriminate.
    + destruct (F1 eq_refl) as [_ Fb].
      apply (bw_Write_loop_direct 0 (skipn n p) (nn + n)%nat b2 w2).
      unfold bw_Buffered. rewrite Fb. reflexivity.
Qed.

Lemma bw_Write_spec (p : list Z) (b : bufio_Writer) (w : netConn) :
  let '(n, err, b', w') := bw_Write p b w in
  io_keeps b w b' w' /\ bw_err b' = err /\
  (err = None ->
     n = length p /\ sent w' ++ bw_buf b' = sent w ++ bw_buf b ++ p) /\
  (room w = None -> bw_err b = None -> err = None).
Proof.
  unfold bw_Write.
  pose proof (bw_Write_loop_spec 3 p 0 b w) as L.
  pose proof (bw_Write_loop_exits p 0 b w) as X.
  destruct (bw_Write_loop 3 p 0 b w) as [[[p' nn] b'] w'].
  destruct L as (K & L1 & L2).
  destruct (bw_err b') as [e|] eqn:E.
  - split; [exact K|]. split; [exact E|]. split; [discriminate|].
    intros R Hb. exact (L2 R Hb).
  - destruct X as [X|X]; [|congruence].
    rewrite (Nat.min_r _ _ X). rewrite firstn_all.
    destruct (L1 eq_refl) as [L1a L1b].
    split.
    { unfold io_keeps in K |- *. cbn [bw_size bw_err].
      destruct K as (K1 & K2 & K3 & K4). repeat split; auto. }
    split; [reflexivity|]. split; [|reflexivity].
    intros _. cbn [bw_buf]. split; [lia|].
    rewrite <- L1b. reflexivity.
Qed.

(** A write that fits in the free part of the buffer is a plain copy. *)
Lemma bw_Write_fits (p : list Z) (b : bufio_Writer) (w : netConn) :
  bw_err b = None -> (length p <= bw_Available b)%nat ->
  bw_Write p b w = (length p, None, mkBw (bw_buf b ++ p) (bw_size b) None, w).
Proof.
  intros E H. unfold bw_Write. cbn [bw_Write_loop].
  replace (bw_Available b <? length p)%nat with false
    by (symmetry; apply Nat.ltb_ge; exact H).
  cbn [andb]. rewrite E. rewrite (Nat.min_r _ _ H), firstn_all. reflexivity.
Qed.

(** ** Frame payload *)

Lemma set_io_id (c : Conn) : set_io (bw c) (rwc c) c = c.
Proof. destruct c; reflexivity. Qed.

Lemma writeFramePayload_loop_spec (fuel : nat) : forall key p n c,
  payload_loop_post fuel key p n c (writeFramePayload_loop fuel key p n c).
Proof.
  assert (Hnil : forall fuel key n c,
            payload_loop_post fuel key [] n c (writeFramePayload_loop fuel key [] n c)).
  { intros f key n c. destruct f; cbn [writeFramePayload_loop];
      exists (bw c), (rwc c); rewrite set_io_id; unfold output;
      cbn [fst snd mask length]; rewrite app_nil_r, Nat.add_0_r;
      (split; [reflexivity|]); (split; [apply io_keeps_refl|]); split; auto. }
  induction fuel as [|fuel IH]; intros key p n c.
  - destruct p as [|x p]; [apply Hnil|].
    cbn. right. lia.
  - destruct p as [|x p'] eqn:Ep; [apply Hnil|].
    rewrite <- Ep. assert (Hp : (1 <= length p)%nat) by (subst p; cbn; lia).
    replace (writeFramePayload_loop (S fuel) key p n c) with
      (let '(ferr, b1, w1) :=
         if (bw_Available (bw c) =? 0)%nat
         then bw_Flush (bw c) (rwc c) else (None, bw c, rwc c) in
       match ferr with
       | Some e => Done (n, Some e) (set_io b1 w1 c)
       | None =>
           let i := bw_Buffered b1 in
           let j := if (bw_Available b1 <? length p)%nat
                    then bw_Available b1 else length p in
           let '(_, werr, b2, w2) := bw_Write (firstn j p) b1 w1 in
           match werr with
           | Some e => Done (n, Some e) (set_io b2 w2 c)
           | None =>
               let r := mask key (skipn i (bw_buf b2)) in
               let b3 := mkBw (firstn i (bw_buf b2) ++ snd r)
                              (bw_size b2) (bw_err b2) in
               writeFramePayload_loop fuel (fst r) (skipn j p) (n + j)%nat
                 (set_io b3 w2 c)
           end
       end) by (subst p; reflexivity).
    (* the optional flush *)
    assert (F : exists ferr b1 w1,
      (if (bw_Available (bw c) =? 0)%nat
       then bw_Flush (bw c) (rwc c) else (None, bw c, rwc c)) = (ferr, b1, w1) /\
      io_keeps (bw c) (rwc c) b1 w1 /\
      (ferr = None ->
         sent w1 ++ bw_buf b1 = output c /\
         (bw_Available b1 = O -> bw_size (bw c) = O) /\
         (bw_err (bw c) = None -> bw_err b1 = None)) /\
      (room (rwc c) = None -> bw_err (bw c) = None -> ferr = None)).
    { destruct (Nat.eqb_spec (bw_Available (bw c)) 0) as [A0|A0].
      - pose proof (bw_Flush_spec (bw c) (rwc c)) as F.
        destruct (bw_Flush (bw c) (rwc c)) as [[ferr b1] w1].
        destruct F as (FK & Ferr & F1 & F2).
        exists ferr, b1, w1. split; [reflexivity|]. split; [exact FK|].
        split; [|exact F2].
        intros ->. destruct (F1 eq_refl) as [F1a F1b].
        split; [exact F1a|]. split; [|intros _; exact Ferr].
        unfold bw_Available. rewrite F1b. cbn [length].
        destruct FK as (FK1 & _). lia.
      - exists None, (bw c), (rwc c). split; [reflexivity|].
        split; [apply io_keeps_refl|]. split; [|reflexivity].
        intros _. split; [reflexivity|]. split; [lia|auto]. }
    destruct F as (ferr & b1 & w1 & -> & FK & F1 & F2).
    destruct ferr as [e|].
    { exists b1, w1. split; [reflexivity|]. split; [exact FK|].
      cbn [snd]. split; [discriminate|].
      intros R Hb. specialize (F2 R Hb). discriminate. }
    destruct (F1 eq_refl) as (Fout & Favail & Ferr). clear F1.
    cbv zeta.
    set (j := if (bw_Available b1 <? length p)%nat then bw_Available b1 else length p).
    assert (Hj : (j <= length p)%nat /\ (j <= bw_Available b1)%nat /\
                 (j = O -> bw_size (bw c) = O)).
    { unfold j. destruct (Nat.ltb_spec (bw_Available b1) (length p));
        repeat split; try lia; auto. }
    destruct Hj as (Hj1 & Hj2 & Hj3).
    destruct (bw_err b1) as [e1|] eqn:E1.
    + (* a sticky error from before the frame *)
      pose proof (bw_Write_spec (firstn j p) b1 w1) as W.
      destruct (bw_Write (firstn j p) b1 w1) as [[[m werr] b2] w2].
      destruct W as (WK & Werr & W1 & W2).
      assert (Hne : werr <> None).
      { intros ->. destruct WK as (_ & _ & WK3 & _).
        rewrite (WK3 Werr) in E1. discriminate. }
      destruct werr as [e|]; [|congruence].
      exists b2, w2. split; [reflexivity|].
      split; [eapply io_keeps_trans; eassumption|].
      cbn [snd]. split; [discriminate|].
      intros _ Hb. specialize (Ferr Hb). congruence.
    + rewrite bw_Write_fits by (auto; rewrite length_firstn; lia).
      cbn [bw_buf bw_size bw_err].
      assert (Hi : bw_Buffered b1 = length (bw_buf b1)) by reflexivity.
      rewrite Hi, skipn_app, skipn_all, Nat.sub_diag, firstn_app,
        firstn_all, Nat.sub_diag.
      cbn [skipn firstn app]. rewrite app_nil_r.
      set (chunk := firstn j p).
      set (b3 := mkBw (bw_buf b1 ++ snd (mask key chunk)) (bw_size b1) None).
      specialize (IH (fst (mask key chunk)) (skipn j p) (n + j)%nat (set_io b3 w1 c)).
      destruct (writeFramePayload_loop fuel (fst (mask key chunk)) (skipn j p)
                  (n + j) (set_io b3 w1 c)) as [r c'|why].
      * destruct IH as (b & w & -> & K & I1 & I2).
        exists b, w. split; [reflexivity|].
        split.
        { eapply io_keeps_trans; [exact FK|].
          unfold io_keeps in K |- *. cbn [bw rwc set_io bw_size bw_err b3] in K.
          destruct K as (K1 & K2 & K3 & K4). repeat split; auto. }
        split.
        -- intros Hr. destruct (I1 Hr) as [I1a I1b]. split.
           ++ rewrite I1a, length_skipn. lia.
           ++ rewrite I1b, <- Fout. unfold output.
              cbn [bw rwc set_io sent bw_buf b3].
              replace (mask key p) with (mask key (chunk ++ skipn j p))
                by (unfold chunk; rewrite firstn_skipn; reflexivity).
              rewrite mask_app. cbn [snd]. rewrite !app_assoc. reflexivity.
        -- intros R Hb. apply I2; cbn [bw rwc set_io bw_err b3]; auto.
           destruct FK as (_ & _ & _ & FK4). auto.
      * cbn [payload_loop_post] in IH |- *. cbn [bw set_io bw_size b3] in IH.
        destruct FK as (FK1 & _).
        destruct IH as [IH|IH]; [left; lia|].
        rewrite length_skipn in IH.
        destruct (Nat.eq_dec j 0) as [J0|J0]; [left; auto|right; lia].
Qed.

(** ** One frame *)

Lemma keeps_refl c : keeps c c.
Proof. unfold keeps; repeat split. Qed.

Lemma keeps_trans c1 c2 c3 : keeps c1 c2 -> keeps c2 c3 -> keeps c1 c3.
Proof. unfold keeps; intuition congruence. Qed.

Lemma writeFramePayload_spec (p : list Z) (c : Conn) :
  match writeFramePayload p c with
  | Halts _ => bw_size (bw c) = O
  | Done r c' =>
      exists b w,
        c' = set_io b w c /\ io_keeps (bw c) (rwc c) b w /\
        (snd r = None ->
           fst r = length p /\
           sent w ++ bw_buf b = output c ++ payloadBytes (writeHeader c) p) /\
        (room (rwc c) = None -> bw_err (bw c) = None ->
           snd r = None /\ bw_err b = None)
  end.
Proof.
  unfold writeFramePayload, payloadBytes.
  destruct (h_masked (writeHeader c)); cbn [negb].
  - pose proof (writeFramePayload_loop_spec (length p) (h_maskKey (writeHeader c)) p 0 c) as L.
    destruct (writeFramePayload_loop (length p) (h_maskKey (writeHeader c)) p 0 c)
      as [r c'|why]; cbn [payload_loop_post] in L.
    + destruct L as (b & w & -> & K & L1 & L2). exists b, w.
      split; [reflexivity|]. split; [exact K|]. cbn [fst snd].
      split.
      * intros Hr. destruct (snd r); [discriminate|]. apply L1. reflexivity.
      * intros R Hb. destruct (L2 R Hb) as [-> Hb']. auto.
    + destruct L as [L|L]; [exact L|lia].
  - pose proof (bw_Write_spec p (bw c) (rwc c)) as W.
    destruct (bw_Write p (bw c) (rwc c)) as [[[n err] b] w].
    destruct W as (K & Werr & W1 & W2).
    exists b, w. split; [reflexivity|]. split; [exact K|]. cbn [fst snd].
    split.
    * intros Hr. destruct err; [discriminate|]. unfold output.
      rewrite <- app_assoc. apply W1. reflexivity.
    * intros R Hb. rewrite (W2 R Hb) in Werr |- *. auto.
Qed.

Lemma writeFrame_locked_stage ctx fin flate op p c :
  closed c = None ->
  (client c = true -> readUint32LE (randReader c) <> None) ->
  writeFrame_locked ctx fin flate op p (set_writeFrameMu true c) =
  stage p (prepared ctx (frameHeader c fin flate op p) c).
Proof.
  intros Ecl Hrd.
  unfold writeFrame_locked, stage, prepared, frameHeader, isData, bind, ret, get, modify_header.
  unfold modify, select_closed_or_send, draw_maskKey.
  cbn -[writeFrameHeader writeFramePayload bw_Flush readUint32LE len opcode_eqb skipn].
  rewrite Ecl.
  cbn -[writeFrameHeader writeFramePayload bw_Flush readUint32LE len opcode_eqb skipn].
  destruct (client c) eqn:Ecli;
    cbn -[writeFrameHeader writeFramePayload bw_Flush readUint32LE len opcode_eqb skipn].
  - destruct (readUint32LE (randReader c)) as [[k rest]|] eqn:Erd;
      [|exfalso; apply Hrd; reflexivity].
    destruct (readUint32LE_uint32 _ _ _ Erd) as [_ ->].
    destruct (flate && (opcode_eqb op opText || opcode_eqb op opBinary)); reflexivity.
  - destruct (flate && (opcode_eqb op opText || opcode_eqb op opBinary)); reflexivity.
Qed.

Lemma writeFrame_locked_nokey ctx fin flate op p c :
  closed c = None -> client c = true -> readUint32LE (randReader c) = None ->
  exists c', 
    writeFrame_locked ctx fin flate op p (set_writeFrameMu true c) =
    Done (O, Some (errWrap "failed to generate masking key"
                            (readFull_error (randReader c)))) c' /\
    keeps (set_writeFrameMu true c) c' /\ emitted c' = emitted c /\
    rwc c' = rwc c /\ bw c' = bw c /\ randReader c' = [].
Proof.
  intros Ecl Ecli Erd.
  unfold writeFrame_locked, bind, ret, get, modify_header.
  unfold modify, select_closed_or_send, draw_maskKey.
  cbn -[writeFrameHeader writeFramePayload bw_Flush readUint32LE len opcode_eqb skipn].
  rewrite Ecl.
  cbn -[writeFrameHeader writeFramePayload bw_Flush readUint32LE len opcode_eqb skipn].
  rewrite Ecli.
  cbn -[writeFrameHeader writeFramePayload bw_Flush readUint32LE len opcode_eqb skipn].
  rewrite Erd. eexists. split; [reflexivity|].
  split; [unfold keeps; cbn; repeat split|repeat split].
Qed.

Lemma io_keeps_keeps (c : Conn) (b : bufio_Writer) (w : netConn) :
  io_keeps (bw c) (rwc c) b w -> keeps c (set_io b w c).
Proof.
  intros (K1 & K2 & _). unfold keeps. cbn. repeat split; auto.
Qed.

Lemma stage_spec (p : list Z) (c1 : Conn) (r : nat * option error) (c2 : Conn) :
  stage p c1 = Done r c2 -> closed c1 = None ->
  keeps c1 c2 /\ writeHeader c2 = writeHeader c1 /\ randReader c2 = randReader c1 /\
  (room (rwc c1) = None -> room (rwc c2) = None) /\
  (room (rwc c1) = None -> bw_err (bw c1) = None ->
     snd r = None /\ bw_err (bw c2) = None) /\
  staged (writeHeader c1) p c1 r c2.
Proof.
  unfold stage, bind, get, ret, modify, select_closed_or_send, writeFrameHeader.
  intros H Ecl.
  pose proof (bw_Write_spec (encodeHeader (writeHeader c1)) (bw c1) (rwc c1)) as W.
  destruct (bw_Write (encodeHeader (writeHeader c1)) (bw c1) (rwc c1))
    as [[[hn herr] hb] hw].
  destruct W as (WK & Werr & W1 & W2).
  destruct herr as [e|]; cbn [errd_Wrap] in H.
  { inversion H; subst; clear H.
    split; [keeps_from WK|]. split; [reflexivity|].
    split; [reflexivity|]. split; [apply WK|].
    split; [intros R Hb; specialize (W2 R Hb); discriminate|].
    apply StagedNot; [reflexivity|discriminate]. }
  destruct (W1 eq_refl) as [_ Wout]. clear W1.
  pose proof (writeFramePayload_spec p (set_io hb hw c1)) as P.
  destruct (writeFramePayload p (set_io hb hw c1)) as [pr c3|]; [|discriminate].
  destruct P as (b & w & -> & PK & P1 & P2).
  cbn [bw rwc set_io] in PK, P1, P2.
  assert (K13 : io_keeps (bw c1) (rwc c1) b w) by (eapply io_keeps_trans; eassumption).
  assert (R13 : room (rwc c1) = None -> bw_err (bw c1) = None ->
                snd pr = None /\ bw_err b = None /\ room w = None).
  { intros R Hb. destruct WK as (_ & _ & _ & WK4). destruct PK as (_ & _ & _ & PK4).
    destruct (P2 (WK4 R) Werr). auto. }
  clear P2.
  destruct pr as [pn perr]. cbn [fst snd] in H, P1, R13 |- *.
  destruct perr as [e|].
  { inversion H; subst; clear H.
    split; [keeps_from K13|]. split; [reflexivity|].
    split; [reflexivity|]. split; [apply K13|].
    split; [intros R Hb; destruct (R13 R Hb); discriminate|].
    apply StagedNot; [reflexivity|discriminate]. }
  destruct (P1 eq_refl) as [-> Pout]. clear P1.
  unfold output in Pout. cbn [bw rwc set_io writeHeader] in Pout.
  cbn [writeHeader set_io set_emitted emitted bw rwc] in H.
  set (h := writeHeader c1) in H, Pout, Wout |- *.
  assert (Hout : sent w ++ bw_buf b =
                 output c1 ++ encodeHeader h ++ payloadBytes h p).
  { rewrite Pout, Wout. unfold output. rewrite <- !app_assoc. reflexivity. }
  destruct (h_fin h) eqn:Efin.
  - cbv beta in H. cbn [bw rwc set_io set_emitted] in H.
    pose proof (bw_Flush_spec b w) as F. revert H.
    destruct (bw_Flush b w) as [[ferr fb] fw]. intros H.
    destruct F as (FK & Ferr & F1 & F2).
    assert (K14 : io_keeps (bw c1) (rwc c1) fb fw)
      by (eapply io_keeps_trans; eassumption).
    destruct ferr as [e|].
    + inversion H; subst; clear H.
      split; [keeps_from K14|].
      split; [reflexivity|]. split; [reflexivity|]. split; [apply K14|].
      split.
      { intros R Hb. exfalso. destruct (R13 R Hb) as (_ & Hb' & R').
        specialize (F2 R' Hb'). discriminate. }
      apply StagedFlushFailed; [reflexivity|discriminate|exact Efin].
    + cbn [closed set_io set_emitted] in H. rewrite Ecl in H.
      inversion H; subst; clear H.
      destruct (F1 eq_refl) as [Fout Fnil].
      split; [keeps_from K14|].
      split; [reflexivity|]. split; [reflexivity|]. split; [apply K14|].
      split; [intros _ _; split; [reflexivity|exact Ferr]|].
      apply StagedOk; try reflexivity.
      * unfold output at 1. cbn. rewrite Fout. exact Hout.
      * intros _. exact Fnil.
  - cbn [closed set_io set_emitted] in H. rewrite Ecl in H.
    inversion H; subst; clear H.
    split; [keeps_from K13|].
    split; [reflexivity|]. split; [reflexivity|]. split; [apply K13|].
    split; [intros R Hb; split; [reflexivity|apply (R13 R Hb)]|].
    apply StagedOk; try reflexivity.
    + unfold output at 1. cbn. exact Hout.
    + intros E. congruence.
Qed.

Lemma stage_halts (p : list Z) (c1 : Conn) (why : halt) :
  stage p c1 = Halts why -> bw_size (bw c1) = O.
Proof.
  unfold stage, bind, get, ret, modify, select_closed_or_send, writeFrameHeader.
  pose proof (bw_Write_spec (encodeHeader (writeHeader c1)) (bw c1) (rwc c1)) as W.
  destruct (bw_Write (encodeHeader (writeHeader c1)) (bw c1) (rwc c1))
    as [[[hn herr] hb] hw].
  destruct W as ((WK & _) & _).
  destruct herr as [e|]; cbn [errd_Wrap]; [discriminate|].
  pose proof (writeFramePayload_spec p (set_io hb hw c1)) as P.
  destruct (writeFramePayload p (set_io hb hw c1)) as [pr c3|].
  - destruct (snd pr); [discriminate|].
    cbv beta. destruct (h_fin (writeHeader (set_emitted _ c3))).
    + destruct (bw_Flush _ _) as [[[e|] fb] fw]; [discriminate|].
      cbn. destruct (closed c3); discriminate.
    + cbn. destruct (closed c3); discriminate.
  - intros _. cbn in P. congruence.
Qed.

Lemma readUint32LE_some (src : list Z) :
  (4 <= length src)%nat -> readUint32LE src <> None.
Proof.
  destruct src as [|b0 [|b1 [|b2 [|b3 r]]]]; cbn; intros; try lia; discriminate.
Qed.

Lemma writeFrame_spec ctx fin flate op p c r c' :
  writeFrame ctx fin flate op p c = Done r c' ->
  keeps c c' /\
  (room (rwc c) = None -> room (rwc c') = None) /\
  frame_outcome ctx (frameHeader c fin flate op p) p c r c'.
Proof.
  unfold writeFrame.
  destruct (mu_Lock (closed c) ctx (writeFrameMu c)) eqn:L; try discriminate.
  2:{ intros H; inversion H; subst. split; [apply keeps_refl|]. split; [auto|].
      apply NotEmitted; [reflexivity|discriminate]. }
  unfold mu_Lock in L.
  destruct (closed c) as [ce|] eqn:Ecl; [discriminate|].
  destruct (ctxErr ctx) eqn:Ectx; [discriminate|].
  destruct (writeFrameMu c) eqn:Emu; [discriminate|]. clear L.
  unfold bind at 1.
  destruct (client c && isNil (readUint32LE (randReader c))) eqn:Ekey.
  - apply andb_prop in Ekey. destruct Ekey as [Ecli Erd].
    assert (Erd' : readUint32LE (randReader c) = None)
      by (destruct (readUint32LE (randReader c)); [discriminate|reflexivity]).
    destruct (writeFrame_locked_nokey ctx fin flate op p c Ecl Ecli Erd')
      as (c1 & -> & K & Hem & Hrwc & _).
    unfold bind, modify, ret. intros H; inversion H; subst; clear H.
    split.
    { unfold keeps in K |- *. cbn in K |- *. rewrite Emu.
      destruct K as (K1 & K2 & K3 & K4 & K5 & K6 & K7 & K8 & K9).
      repeat split; assumption || reflexivity. }
    split; [cbn; rewrite Hrwc; auto|].
    apply NotEmitted; [exact Hem|discriminate].
  - rewrite writeFrame_locked_stage; [|exact Ecl|].
    2:{ intros Ecli. rewrite Ecli in Ekey. cbn in Ekey.
        destruct (readUint32LE (randReader c)); [discriminate|discriminate]. }
    set (h := frameHeader c fin flate op p).
    destruct (stage p (prepared ctx h c)) as [r1 c2|] eqn:S; [|discriminate].
    unfold bind, modify, ret. intros H; inversion H; subst; clear H.
    destruct (stage_spec _ _ _ _ S Ecl) as (K & Hh & Hrd & Hroom & _ & St).
    cbn [prepared writeHeader set_randReader set_writeHeader randReader
         rwc bw set_writeTimeout set_writeFrameMu] in Hh, Hrd, Hroom.
    split.
    { unfold keeps in K |- *. cbn in K |- *. rewrite Emu.
      destruct K as (K1 & K2 & K3 & K4 & K5 & K6 & K7 & K8 & K9).
      repeat split; assumption || reflexivity. }
    split; [exact Hroom|].
    destruct St as [E1 E2|E1 E2 E3 E4 E5|E1 E2 E3];
      cbn [prepared writeHeader emitted set_randReader set_writeHeader
           set_writeTimeout set_writeFrameMu writeTimeout] in E1.
    + apply NotEmitted; auto.
    + cbn [prepared writeHeader emitted set_randReader set_writeHeader
           set_writeTimeout set_writeFrameMu writeTimeout] in E3, E4, E5.
      apply Emitted; cbn; auto.
      rewrite E5, <- app_assoc. reflexivity.
    + cbn [prepared writeHeader] in E3. apply EmittedFlushFailed; auto.
Qed.

Lemma ready_le (n m : nat) (c : Conn) : (m <= n)%nat -> ready n c -> ready m c.
Proof.
  unfold ready. intros Hle (H1 & H2 & H3 & H4 & H5 & H6).
  repeat split; auto. intros Hc. specialize (H6 Hc). lia.
Qed.

Lemma writeFrame_ok (n : nat) ctx fin flate op p c :
  ready (S n) c -> ctxErr ctx = None ->
  exists c',
    writeFrame ctx fin flate op p c = Done (length p, None) c' /\ ready n c'.
Proof.
  intros (Ecl & Emu & Eerr & Eroom & Esize & Erand) Ectx.
  assert (Hrd : client c = true -> readUint32LE (randReader c) <> None).
  { intros Hc. apply readUint32LE_some. specialize (Erand Hc). lia. }
  unfold writeFrame, mu_Lock. rewrite Ecl, Ectx, Emu.
  unfold bind at 1. rewrite writeFrame_locked_stage by assumption.
  set (h := frameHeader c fin flate op p).
  destruct (stage p (prepared ctx h c)) as [r c2|why] eqn:S.
  2:{ apply stage_halts in S. cbn in S. lia. }
  destruct (stage_spec _ _ _ _ S Ecl) as (K & Hh & Hrd' & Hroom & Hok & St).
  cbn [prepared writeHeader set_randReader set_writeHeader randReader
       rwc bw set_writeTimeout set_writeFrameMu] in Hh, Hrd', Hroom, Hok.
  destruct (Hok Eroom Eerr) as [Hr Hb].
  destruct St as [E1 E2|E1 E2 E3 E4 E5|E1 E2 E3]; try contradiction.
  subst r. unfold bind, modify, ret. eexists. split; [reflexivity|].
  clear S Hok E1 E3 E4 E5.
  destruct K as (K1 & K2 & K3 & K4 & K5 & K6 & K7 & K8 & K9).
  cbn [prepared client closed bw rwc set_randReader set_writeHeader
       set_writeTimeout set_writeFrameMu] in K1, K5, K8.
  unfold ready.
  cbn [closed writeFrameMu bw rwc client randReader set_writeFrameMu].
  repeat split; auto; try congruence; try lia.
  intros Hc. rewrite Hrd'. rewrite K1 in Hc. rewrite Hc.
  specialize (Erand Hc). rewrite length_skipn. lia.
Qed.

Lemma frame_outcome_ok ctx h p c n c' :
  frame_outcome ctx h p c (n, None) c' ->
  emitted c' = emitted c ++ [(h, p)] /\ n = length p /\
  writeHeader c' = h /\
  output c' = output c ++ encodeHeader h ++ payloadBytes h p /\
  (h_fin h = true -> bw_buf (bw c') = []) /\
  writeTimeout c' = writeTimeout c ++ [ctx; context_Background] /\
  randReader c' = (if client c then skipn 4 (randReader c) else randReader c).
Proof.
  intros [E1 E2|E1 E2 E3 E4 E5 E6 E7 _ _|E1 E2 E3]; cbn in E2; try congruence.
  inversion E2; subst. repeat split; auto.
Qed.

(** ** The message writer *)

Lemma mkeeps_refl c : mkeeps c c.
Proof. unfold mkeeps; repeat split; auto. Qed.

Lemma mkeeps_trans c1 c2 c3 : mkeeps c1 c2 -> mkeeps c2 c3 -> mkeeps c1 c3.
Proof. unfold mkeeps; intuition congruence. Qed.

Lemma mkeeps_set_mw c m : mkeeps c (set_mw m c).
Proof. unfold mkeeps; cbn; repeat split; auto. Qed.

Lemma chain_app fl o1 fs1 o2 fs2 o3 :
  chain fl o1 fs1 o2 -> chain fl o2 fs2 o3 -> chain fl o1 (fs1 ++ fs2) o3.
Proof.
  induction 1 as [o|o o' f fs H1 H2 H3 H4 IH]; intros C; cbn [app]; auto.
  apply chain_cons; auto.
Qed.

Lemma chain_end fl o fs o' :
  chain fl o fs o' -> fs <> [] -> o' = opContinuation.
Proof.
  induction 1 as [o|o o' f fs H1 H2 H3 H4 IH]; intros Hne; [congruence|].
  destruct fs as [|g fs]; [inversion H4; reflexivity|].
  apply IH; discriminate.
Qed.

Lemma chain_start_nil fl o fs o' :
  chain fl o fs o' -> o' <> opContinuation -> fs = [] /\ o' = o.
Proof.
  intros C Hne. destruct fs as [|f fs].
  - inversion C; auto.
  - exfalso. apply Hne. eapply chain_end; [exact C|discriminate].
Qed.

Lemma wsteps_refl c : wsteps c c.
Proof.
  split; [apply mkeeps_refl|]. split; [unfold wkeeps; repeat split|].
  exists []. rewrite app_nil_r. split; [reflexivity|apply chain_nil].
Qed.

Lemma wsteps_trans c1 c2 c3 : wsteps c1 c2 -> wsteps c2 c3 -> wsteps c1 c3.
Proof.
  intros (K1 & W1 & fs1 & E1 & C1) (K2 & W2 & fs2 & E2 & C2).
  split; [eapply mkeeps_trans; eassumption|].
  split; [unfold wkeeps in *; intuition congruence|].
  exists (fs1 ++ fs2). split; [rewrite E2, E1, app_assoc; reflexivity|].
  eapply chain_app; [exact C1|].
  destruct W1 as (_ & _ & _ & _ & Hf & _). rewrite <- Hf. exact C2.
Qed.

Lemma keeps_mkeeps c c' :
  keeps c c' -> (room (rwc c) = None -> room (rwc c') = None) -> mkeeps c c'.
Proof. unfold keeps, mkeeps. intuition. Qed.

(** [msgWriter.write]: either an error and no frame, or one non-final
    frame with the writer's opcode, after which the opcode is
    continuation. *)
Lemma msgWriter_write_spec (p : list Z) (c : Conn) (r : nat * option error) (c' : Conn) :
  msgWriter_write p c = Done r c' ->
  mkeeps c c' /\
  ((snd r <> None /\ mw c' = mw c /\ emitted c' = emitted c) \/
   (r = (length p, None) /\ mw c' = set_opcode opContinuation (mw c) /\
    let h := frameHeader c false (mw_flate (mw c)) (mw_opcode (mw c)) p in
    emitted c' = emitted c ++ [(h, p)] /\
    output c' = output c ++ encodeHeader h ++ payloadBytes h p)).
Proof.
  unfold msgWriter_write, bind, get.
  destruct (writeFrame (mw_ctx (mw c)) false (mw_flate (mw c)) (mw_opcode (mw c)) p c)
    as [[n err] c1|] eqn:W; [|discriminate].
  apply writeFrame_spec in W. destruct W as (K & Hroom & O).
  pose proof (keeps_mkeeps _ _ K Hroom) as MK.
  destruct K as (_ & _ & _ & _ & _ & _ & Kmw & _).
  destruct err as [e|]; cbn [snd fst]; unfold ret, bind, modify_mw.
  - intros H; inversion H; subst; clear H. split; [exact MK|]. left.
    split; [discriminate|]. split; [exact Kmw|].
    destruct O as [E1 E2|E1 E2|E1 E2 E3]; auto; cbn in *; congruence.
  - intros H; inversion H; subst; clear H.
    apply frame_outcome_ok in O. destruct O as (E1 & -> & E3 & E4 & _).
    split; [eapply mkeeps_trans; [exact MK|apply mkeeps_set_mw]|]. right.
    cbn [mw set_mw emitted]. rewrite Kmw.
    repeat split; auto.
Qed.

Lemma msgWriter_write_wsteps (p : list Z) (c : Conn) (r : nat * option error) (c' : Conn) :
  msgWriter_write p c = Done r c' ->
  wsteps c c' /\ mw_trimWriter (mw c') = mw_trimWriter (mw c).
Proof.
  intros H. apply msgWriter_write_spec in H.
  destruct H as (MK & [(_ & Hmw & Hem)|(_ & Hmw & Hem & _)]).
  - rewrite Hmw. split; [|reflexivity]. split; [exact MK|].
    split; [rewrite Hmw; unfold wkeeps; repeat split|].
    exists []. rewrite Hem, app_nil_r, Hmw. split; [reflexivity|apply chain_nil].
  - rewrite Hmw. split; [|reflexivity]. split; [exact MK|].
    split; [rewrite Hmw; unfold wkeeps; repeat split|].
    eexists. split; [exact Hem|]. rewrite Hmw. cbn [mw_opcode set_opcode].
    apply chain_cons; cbn; auto. apply chain_nil.
Qed.

Lemma trimWriter_Write_wsteps (b : list Z) (c : Conn) (r : nat * option error) (c' : Conn) :
  trimWriter_Write b c = Done r c' -> wsteps c c'.
Proof.
  unfold trimWriter_Write, bind, get.
  destruct (mw_trimWriter (mw c)) as [tw|] eqn:T; [|discriminate].
  destruct (Nat.eqb_spec (length (tw_tail tw ++ b) - 4) 0) as [K0|K0].
  - unfold modify_mw, ret. intros H; inversion H; subst; clear H.
    split; [apply mkeeps_set_mw|]. cbn [mw set_mw].
    split; [unfold wkeeps; cbn; rewrite T; repeat split|].
    exists []. rewrite app_nil_r. split; [reflexivity|apply chain_nil].
  - destruct (msgWriter_write _ c) as [r1 c1|] eqn:W; [|discriminate].
    apply msgWriter_write_wsteps in W. destruct W as [W Ht].
    destruct (snd r1) as [e|]; unfold modify_mw, ret;
      intros H; inversion H; subst; clear H; [exact W|].
    eapply wsteps_trans; [exact W|].
    split; [apply mkeeps_set_mw|]. cbn [mw set_mw].
    split; [unfold wkeeps; cbn; rewrite Ht, T; repeat split|].
    exists []. rewrite app_nil_r. split; [reflexivity|apply chain_nil].
Qed.

Lemma writeBlocks_wsteps (blocks : list (list Z)) : forall c r c',
  writeBlocks blocks c = Done r c' -> wsteps c c'.
Proof.
  induction blocks as [|b rest IH]; intros c r c'; cbn [writeBlocks].
  - unfold ret. intros H; inversion H; subst. apply wsteps_refl.
  - unfold bind. destruct (trimWriter_Write b c) as [r1 c1|] eqn:T; [|discriminate].
    apply trimWriter_Write_wsteps in T.
    destruct (snd r1) as [e|].
    + unfold ret. intros H; inversion H; subst. exact T.
    + intros H. eapply wsteps_trans; [exact T|]. eapply IH; exact H.
Qed.

(** *** [msgWriter.Write] *)

Lemma with_writeMu_held {A : Type} (body : M A) (c : Conn) :
  mw_writeMu (mw c) = true -> with_writeMu body c = Halts Blocked.
Proof. intros H. unfold with_writeMu, bind, get. rewrite H. reflexivity. Qed.

Lemma with_writeMu_free {A : Type} (body : M A) (c : Conn) :
  mw_writeMu (mw c) = false ->
  with_writeMu body c =
  match body (set_mw (set_writeMu true (mw c)) c) with
  | Done r c1 => Done r (set_mw (set_writeMu false (mw c1)) c1)
  | Halts why => Halts why
  end.
Proof.
  intros H. unfold with_writeMu, bind, get, modify_mw, ret, halts. rewrite H.
  destruct (body _); reflexivity.
Qed.

Lemma set_writeMu_id (c : Conn) :
  mw_writeMu (mw c) = false ->
  set_mw (set_writeMu false (mw (set_mw (set_writeMu true (mw c)) c)))
         (set_mw (set_writeMu true (mw c)) c) = c.
Proof. destruct c as [? ? ? ? ? ? ? ? ? ? ? m ?]; destruct m; cbn. intros ->. reflexivity. Qed.

(** A write or a close on a closed writer: the closed-writer error, and
    the connection exactly as it was. *)
Lemma msgWriter_Write_closed (p : list Z) (c : Conn) :
  mw_closed (mw c) = true -> mw_writeMu (mw c) = false ->
  msgWriter_Write p c = Done (O, Some (errWrap "failed to write" UseClosedWriter)) c.
Proof.
  intros Hc Hm. unfold msgWriter_Write, bind.
  rewrite with_writeMu_free by exact Hm.
  unfold msgWriter_Write_locked, bind, get, ret. cbn [mw set_mw mw_closed set_writeMu].
  rewrite Hc. rewrite set_writeMu_id by exact Hm. reflexivity.
Qed.

Lemma msgWriter_Close_closed (c : Conn) :
  mw_closed (mw c) = true -> mw_writeMu (mw c) = false ->
  msgWriter_Close c = Done (Some (errWrap "failed to close writer" UseClosedWriter)) c.
Proof.
  intros Hc Hm. unfold msgWriter_Close, bind.
  rewrite with_writeMu_free by exact Hm.
  unfold msgWriter_Close_locked, bind, get, ret. cbn [mw set_mw mw_closed set_writeMu].
  rewrite Hc. rewrite set_writeMu_id by exact Hm. reflexivity.
Qed.

Lemma msgWriter_Write_open (p : list Z) (c : Conn) (r : nat * option error) (c' : Conn) :
  mw_closed (mw c) = false ->
  msgWriter_Write p c = Done r c' -> write_post p c c'.
Proof.
  intros Hopen. unfold msgWriter_Write. unfold bind at 1.
  destruct (mw_writeMu (mw c)) eqn:Hm;
    [rewrite with_writeMu_held by exact Hm; discriminate|].
  rewrite with_writeMu_free by exact Hm.
  set (c0 := set_mw (set_writeMu true (mw c)) c).
  unfold msgWriter_Write_locked. unfold bind at 1, get at 1.
  replace (mw_closed (mw c0)) with false by (cbn; auto).
  unfold bind at 1.
  replace (activates c0 p) with (activates c p) by reflexivity.
  set (c1 := if activates c p then set_mw (ensureFlate_mw (mw c0)) c0 else c0).
  replace ((if activates c p then ensureFlate else ret tt) c0) with (Done tt c1).
  2:{ unfold c1. destruct (activates c p); reflexivity. }
  unfold bind at 1, get at 1.
  assert (Hfl1 : mw_flate (mw c1) = mw_flate (mw c) || activates c p).
  { unfold c1, c0, ensureFlate_mw. cbn [mw set_mw mw_trimWriter set_writeMu].
    destruct (activates c p); destruct (mw_trimWriter (mw c));
      cbn; [rewrite orb_true_r|rewrite orb_true_r|rewrite orb_false_r|rewrite orb_false_r];
      reflexivity. }
  assert (Hk1 : mkeeps c c1).
  { unfold c1. destruct (activates c p); unfold mkeeps; cbn; repeat split; auto. }
  assert (H1 : mw_mu (mw c1) = mw_mu (mw c) /\ mw_writeMu (mw c1) = true /\
               mw_ctx (mw c1) = mw_ctx (mw c) /\ mw_closed (mw c1) = false /\
               mw_opcode (mw c1) = mw_opcode (mw c) /\ emitted c1 = emitted c /\
               mw_dict (mw c1) = (if activates c p then sw_init 8192 (mw_dict (mw c))
                                  else mw_dict (mw c)) /\
               isNil (mw_trimWriter (mw c1)) =
                 (if activates c p then false else isNil (mw_trimWriter (mw c)))).
  { unfold c1, c0, ensureFlate_mw. cbn [mw set_mw mw_trimWriter set_writeMu].
    destruct (activates c p); destruct (mw_trimWriter (mw c)) eqn:Et;
      cbn; rewrite ?Et; repeat split; auto. }
  destruct H1 as (A1 & A2 & A3 & A4 & A5 & A6 & A7 & A8).
  clearbody c1. clear c0.
  destruct (mw_flate (mw c1)) eqn:Hfl.
  - unfold bind at 1.
    destruct (flate_StatelessDeflate p false (sw_bytes (mw_dict (mw c1))) c1)
      as [err c2|] eqn:D; [|discriminate].
    unfold flate_StatelessDeflate in D. apply writeBlocks_wsteps in D.
    destruct D as (K & (W1 & W2 & W3 & W4 & W5 & W6 & W7) & fs & E & C).
    unfold bind, modify_mw, ret. intros H; inversion H; subst; clear H.
    cbn [mw set_mw mw_mu mw_writeMu mw_ctx mw_closed mw_flate mw_dict mw_opcode
         mw_trimWriter set_writeMu set_dict emitted].
    constructor; cbn [mw set_mw mw_mu mw_writeMu mw_ctx mw_closed mw_flate mw_dict
         mw_opcode mw_trimWriter set_writeMu set_dict emitted]; try congruence; auto.
    + eapply mkeeps_trans; [exact Hk1|]. eapply mkeeps_trans; [exact K|].
      unfold mkeeps; cbn; repeat split; auto.
    + rewrite W5, Hfl. rewrite W6, A7. reflexivity.
    + exists fs. rewrite E, A6. split; [reflexivity|].
      rewrite W5, <- A5. exact C.
  - destruct (msgWriter_write p c1) as [r1 c2|] eqn:W; [|discriminate].
    apply msgWriter_write_wsteps in W.
    destruct W as [(K & (W1 & W2 & W3 & W4 & W5 & W6 & W7) & fs & E & C) Ht].
    intros H; inversion H; subst; clear H.
    constructor; cbn [mw set_mw mw_mu mw_writeMu mw_ctx mw_closed mw_flate mw_dict
         mw_opcode mw_trimWriter set_writeMu set_dict emitted]; try congruence; auto.
    + eapply mkeeps_trans; [exact Hk1|]. eapply mkeeps_trans; [exact K|].
      unfold mkeeps; cbn; repeat split; auto.
    + rewrite W5, Hfl. rewrite W6, A7.
      destruct (activates c p) eqn:Ea; [|reflexivity].
      rewrite orb_true_r in Hfl1. congruence.
    + exists fs. rewrite E, A6. split; [reflexivity|].
      rewrite W5, <- A5. exact C.
Qed.

(** *** [msgWriter.Close] *)

(** [Close] on an open writer, step by step: the flush of the final block
    when compression is on, the closed flag, the FIN frame, the window,
    the ownership lock. *)
Lemma msgWriter_Close_open (c : Conn) (r : option error) (c' : Conn) :
  mw_closed (mw c) = false ->
  msgWriter_Close c = Done r c' ->
  mw_writeMu (mw c) = false /\
  exists ferr c1,
    (if mw_flate (mw c) then flate_StatelessDeflate [] true [] else ret None)
      (set_mw (set_writeMu true (mw c)) c) = Done ferr c1 /\
    wsteps (set_mw (set_writeMu true (mw c)) c) c1 /\
    match ferr with
    | Some e =>
        r = Some (errWrap "failed to close writer" (errWrap "failed to flush flate" e)) /\
        c' = set_mw (set_writeMu false (mw c1)) c1
    | None =>
        exists fr c2,
          writeFrame (mw_ctx (mw c)) true (mw_flate (mw c)) (mw_opcode (mw c1)) []
            (set_mw (set_closed true (mw c1)) c1) = Done fr c2 /\
          match snd fr with
          | Some e =>
              r = Some (errWrap "failed to close writer"
                          (errWrap "failed to write fin frame" e)) /\
              c' = set_mw (set_writeMu false (mw c2)) c2
          | None =>
              r = None /\
              c' = set_mw
                     (set_writeMu false
                        (set_mu false
                           (if mw_flate (mw c) && negb (flateContextTakeover c)
                            then set_dict None (mw c2) else mw c2))) c2
          end
    end.
Proof.
  intros Hopen. unfold msgWriter_Close. unfold bind at 1.
  destruct (mw_writeMu (mw c)) eqn:Hm;
    [rewrite with_writeMu_held by exact Hm; discriminate|].
  rewrite with_writeMu_free by exact Hm.
  set (c0 := set_mw (set_writeMu true (mw c)) c).
  unfold msgWriter_Close_locked. unfold bind at 1, get at 1.
  replace (mw_closed (mw c0)) with false by (cbn; auto).
  replace (mw_flate (mw c0)) with (mw_flate (mw c)) by reflexivity.
  unfold bind at 1.
  intros H. split; [reflexivity|].
  destruct ((if mw_flate (mw c) then flate_StatelessDeflate [] true [] else ret None) c0)
    as [ferr c1|] eqn:D; [|discriminate].
  assert (W : wsteps c0 c1).
  { destruct (mw_flate (mw c)).
    - unfold flate_StatelessDeflate in D. eapply writeBlocks_wsteps; exact D.
    - unfold ret in D. inversion D; subst. apply wsteps_refl. }
  exists ferr, c1. split; [reflexivity|]. split; [exact W|].
  destruct W as (K & (W1 & W2 & W3 & W4 & W5 & W6 & W7) & _).
  destruct ferr as [e|].
  - unfold ret in H. inversion H; subst; clear H. split; reflexivity.
  - revert H. unfold bind at 1, modify_mw at 1. unfold bind at 1, get at 1.
    unfold bind at 1.
    cbn [mw set_mw mw_ctx mw_flate mw_opcode set_closed].
    replace (mw_ctx (mw c1)) with (mw_ctx (mw c)) by (rewrite W3; reflexivity).
    replace (mw_flate (mw c1)) with (mw_flate (mw c)) by (rewrite W5; reflexivity).
    destruct (writeFrame (mw_ctx (mw c)) true (mw_flate (mw c)) (mw_opcode (mw c1)) []
                (set_mw (set_closed true (mw c1)) c1)) as [fr c2|] eqn:F; [|discriminate].
    intros H. exists fr, c2. split; [reflexivity|].
    apply writeFrame_spec in F.
    destruct F as ((F1 & _ & F3 & _ & _ & _ & Fmw & _) & _).
    cbn [client copts set_mw mw] in F1, F3, Fmw.
    destruct K as (K1 & _ & K3 & _). cbn [client copts set_mw] in K1, K3.
    destruct (snd fr) as [e|].
    + unfold ret in H. inversion H; subst; clear H. split; reflexivity.
    + revert H. unfold bind at 1, get at 1. unfold bind at 1.
      replace (mw_flate (mw c2)) with (mw_flate (mw c))
        by (rewrite Fmw; cbn; rewrite W5; reflexivity).
      replace (flateContextTakeover c2) with (flateContextTakeover c)
        by (unfold flateContextTakeover; rewrite F1, F3, K1, K3; reflexivity).
      destruct (mw_flate (mw c) && negb (flateContextTakeover c));
        unfold bind, modify_mw, ret; intros H; inversion H; subst; clear H;
        split; reflexivity.
Qed.

(** ** Closed connection, closed writer, control frames *)

Lemma writeFrame_closed ctx fin flate op p c e :
  closed c = Some e -> writeFrame ctx fin flate op p c = Done (O, Some e) c.
Proof. intros H. unfold writeFrame, mu_Lock. rewrite H. reflexivity. Qed.

(** C8.  Once the close state of the connection is set, a frame write
    fails at once with the close cause itself as error and leaves the
    connection as it was: nothing is staged in the buffered writer,
    nothing reaches the byte stream, no frame is recorded.  The data-frame
    and control-frame paths inherit this, with the cause wrapped.  As the
    state is unchanged, the same holds for every later frame write. *)
Theorem C8_closed_connection_emits_nothing
    (c : Conn) (cause : error) (now : Z) (ctx : context)
    (fin flate : bool) (op : opcode) (p : list Z)
    (Hclosed : closed c = Some cause) :
  writeFrame ctx fin flate op p c = Done (O, Some cause) c /\
  msgWriter_write p c =
    Done (O, Some (errWrap "failed to write data frame" cause)) c /\
  writeControl now ctx op p c =
    Done (Some (errWrap ("failed to write control frame " ++ opcode_String op)%string
                      cause)) c /\
  (forall r c', writeFrame ctx fin flate op p c = Done r c' ->
     snd r = Some cause /\ output c' = output c /\ sent (rwc c') = sent (rwc c) /\
     emitted c' = emitted c /\ closed c' = Some cause).
Proof.
  pose proof (writeFrame_closed ctx fin flate op p c cause Hclosed) as W.
  split; [exact W|]. split.
  { unfold msgWriter_write, bind, get.
    rewrite (writeFrame_closed _ _ _ _ _ _ _ Hclosed). reflexivity. }
  split.
  { unfold writeControl, bind.
    rewrite (writeFrame_closed _ _ _ _ _ _ _ Hclosed). reflexivity. }
  intros r c' H. rewrite W in H. inversion H; subst. cbn. auto.
Qed.

(** C5.  After a [Close] that has succeeded, a [Write] fails with the
    closed-writer error ("cannot use closed writer", wrapped by the
    method's own context), and so does a second [Close]; both return the
    connection exactly as they found it, so no frame is emitted and the
    writer's state does not change. *)
Theorem C5_use_closed_writer
    (c0 c : Conn) (p : list Z)
    (Hclose : msgWriter_Close c0 = Done None c) :
  mw_closed (mw c) = true /\
  msgWriter_Write p c =
    Done (O, Some (errWrap "failed to write" UseClosedWriter)) c /\
  msgWriter_Close c =
    Done (Some (errWrap "failed to close writer" UseClosedWriter)) c /\
  rootCause (errWrap "failed to write" UseClosedWriter) =
    errNew "cannot use closed writer".
Proof.
  assert (H : mw_closed (mw c) = true /\ mw_writeMu (mw c) = false).
  { destruct (mw_closed (mw c0)) eqn:Hc0.
    - destruct (mw_writeMu (mw c0)) eqn:Hm.
      + unfold msgWriter_Close, bind in Hclose.
        rewrite with_writeMu_held in Hclose by exact Hm. discriminate.
      + rewrite msgWriter_Close_closed in Hclose by assumption. discriminate.
    - destruct (msgWriter_Close_open _ _ _ Hc0 Hclose)
        as (_ & ferr & c1 & _ & _ & Hrest).
      destruct ferr as [e|]; [destruct Hrest; discriminate|].
      destruct Hrest as (fr & c2 & F & Hrest).
      apply writeFrame_spec in F.
      destruct F as ((_ & _ & _ & _ & _ & _ & Fmw & _) & _).
      destruct (snd fr) as [e|]; [destruct Hrest; discriminate|].
      destruct Hrest as [_ ->]. cbn [mw set_mw].
      destruct (mw_flate (mw c0) && negb (flateContextTakeover c0));
        cbn; rewrite Fmw; cbn; auto. }
  destruct H as [Hc Hm].
  split; [exact Hc|].
  split; [apply msgWriter_Write_closed; assumption|].
  split; [apply msgWriter_Close_closed; assumption|reflexivity].
Qed.

Lemma context_WithTimeout_deadline (now : Z) (parent : context) (t : Z) :
  exists d,
    ctxDeadline (context_WithTimeout now parent t) = Some d /\
    d <= now + t /\
    (forall d0, ctxDeadline parent = Some d0 -> d <= d0) /\
    (forall e, ctxErr parent = Some e ->
               ctxErr (context_WithTimeout now parent t) = Some e).
Proof.
  unfold context_WithTimeout, context_WithDeadline.
  destruct (ctxDeadline parent) as [cur|] eqn:D.
  - destruct (Z.ltb_spec cur (now + t)).
    + exists cur. rewrite D. repeat split; auto; try lia.
      intros d0 H0; inversion H0; lia.
    + exists (now + t). cbn. repeat split; try lia.
      * intros d0 H0; inversion H0; lia.
      * intros e ->. reflexivity.
  - exists (now + t). cbn. repeat split; try lia.
    + intros d0 H0; discriminate.
    + intros e ->. reflexivity.
Qed.

(** C7.  A control-frame write goes straight to frame emission with a
    context derived from the caller's by a five-second timeout.  Whatever
    the outcome, the message writer is exactly as before (opcode, closed
    flag, compression flag, trim writer, window, locks); the derived
    context has a deadline no later than five seconds from now and no
    later than the caller's own, and it has fired if the caller's has;
    when the frame goes out it is a single final frame without RSV1, and
    it is this derived context that was posted on the write-timeout
    mailbox for the duration of the frame. *)
Theorem C7_control_frames_bypass_writer
    (now : Z) (ctx : context) (op : opcode) (p : list Z)
    (c : Conn) (r : option error) (c' : Conn)
    (Hrun : writeControl now ctx op p c = Done r c') :
  let ctx5 := context_WithTimeout now ctx (time_Second * 5) in
  mw c' = mw c /\
  (exists d, ctxDeadline ctx5 = Some d /\ d <= now + 5000000000 /\
             (forall d0, ctxDeadline ctx = Some d0 -> d <= d0)) /\
  (forall e, ctxErr ctx = Some e -> ctxErr ctx5 = Some e) /\
  (exists fr, writeFrame ctx5 true false op p c = Done fr c' /\
              r = match snd fr with
                  | Some e => Some (errWrap ("failed to write control frame " ++ opcode_String op)%string e)
                  | None => None
                  end) /\
  (r = None ->
     exists h,
       emitted c' = emitted c ++ [(h, p)] /\
       h_fin h = true /\ h_rsv1 h = false /\ h_opcode h = op /\
       writeTimeout c' = writeTimeout c ++ [ctx5; context_Background]).
Proof.
  intros ctx5. unfold writeControl, bind in Hrun. fold ctx5 in Hrun.
  destruct (writeFrame ctx5 true false op p c) as [fr c1|] eqn:F; [|discriminate].
  assert (Hc : c1 = c' /\ r = match snd fr with
                               | Some e => Some (errWrap ("failed to write control frame " ++ opcode_String op)%string e)
                               | None => None
                               end).
  { destruct (snd fr); unfold ret in Hrun; inversion Hrun; auto. }
  destruct Hc as [-> Hr]. clear Hrun.
  pose proof (writeFrame_spec _ _ _ _ _ _ _ _ F) as (K & _ & O).
  destruct (context_WithTimeout_deadline now ctx (time_Second * 5)) as (d & D1 & D2 & D3 & D4).
  split; [apply K|].
  split; [exists d; repeat split; auto|].
  split; [exact D4|].
  split; [exists fr; split; [reflexivity|exact Hr]|].
  intros ->. destruct fr as [n [e|]]; [discriminate|].
  apply frame_outcome_ok in O. destruct O as (E1 & _ & _ & _ & _ & E6 & _).
  eexists. split; [exact E1|]. cbn. repeat split; auto.
Qed.

(** ** Client frames *)

Lemma writeFrame_client_key ctx fin flate op p c r c' :
  client c = true ->
  writeFrame ctx fin flate op p c = Done r c' -> snd r = None ->
  exists k rest, readUint32LE (randReader c) = Some (k, rest).
Proof.
  intros Hcli H Hr.
  destruct (readUint32LE (randReader c)) as [[k rest]|] eqn:Erd; [eauto|].
  exfalso. revert H. unfold writeFrame, mu_Lock.
  destruct (closed c) as [e|] eqn:Ecl.
  { intros H; inversion H; subst. discriminate. }
  destruct (ctxErr ctx) as [e|].
  { intros H; inversion H; subst. discriminate. }
  destruct (writeFrameMu c); [discriminate|].
  unfold bind at 1.
  destruct (writeFrame_locked_nokey ctx fin flate op p c Ecl Hcli Erd) as (c1 & -> & _).
  unfold bind, modify, ret. intros H; inversion H; subst. discriminate.
Qed.

(** C6.  On a client connection, every frame that goes out has the mask
    flag set and as key the next four bytes of the random source, drawn
    (and consumed) before the header is written; what the frame adds to
    the output is its header, which carries that key, followed by the
    payload masked in one pass, and that is the payload XOR'd cyclically
    with the four key bytes.  This holds for every size of the buffered
    writer and every fill level on entry, that is wherever the flushes
    fall inside the payload.  On a ready connection the frame does go out. *)
Theorem C6_client_frames_are_masked
    (n : nat) (ctx : context) (fin flate : bool) (op : opcode) (p : list Z) (c : Conn)
    (Hclient : client c = true) :
  (forall r c',
     writeFrame ctx fin flate op p c = Done r c' -> snd r = None ->
     exists k,
       readUint32LE (randReader c) = Some (k, randReader c') /\
       uint32 k /\
       h_masked (writeHeader c') = true /\ h_maskKey (writeHeader c') = k /\
       emitted c' = emitted c ++ [(writeHeader c', p)] /\
       output c' = output c ++ encodeHeader (writeHeader c') ++ snd (mask k p) /\
       snd (mask k p) = xorCyclic k 0 p /\
       (forall i, (i < length p)%nat ->
          nth i (xorCyclic k 0 p) 0 = Z.lxor (nth i p 0) (keyByte k i)) /\
       (fin = true ->
          sent (rwc c') = output c ++ encodeHeader (writeHeader c') ++ xorCyclic k 0 p)) /\
  (ready (S n) c -> ctxErr ctx = None ->
   exists c', writeFrame ctx fin flate op p c = Done (length p, None) c').
Proof.
  split.
  - intros r c' H Hr.
    destruct (writeFrame_client_key _ _ _ _ _ _ _ _ Hclient H Hr) as (k & rest & Erd).
    destruct (readUint32LE_uint32 _ _ _ Erd) as [Hk ->].
    apply writeFrame_spec in H. destruct H as (_ & _ & O).
    destruct r as [m err]. cbn in Hr. subst err.
    apply frame_outcome_ok in O.
    destruct O as (E1 & _ & E3 & E4 & E5 & _ & E7).
    rewrite Hclient in E7.
    assert (Hh : writeHeader c' =
                 mkHeader fin (flate && isData op) op (len p) true k).
    { rewrite E3. unfold frameHeader. rewrite Hclient, Erd. reflexivity. }
    assert (Hout : output c' =
                   output c ++ encodeHeader (writeHeader c') ++ snd (mask k p)).
    { rewrite E4, <- E3, Hh. reflexivity. }
    exists k. rewrite E7. split; [exact Erd|]. split; [exact Hk|].
    split; [rewrite Hh; reflexivity|]. split; [rewrite Hh; reflexivity|].
    split; [rewrite E1, E3; reflexivity|].
    split; [exact Hout|].
    split; [apply mask_xorCyclic; exact Hk|].
    split; [intros i Hi; apply xorCyclic_nth; exact Hi|].
    intros Hfin. rewrite <- (mask_xorCyclic k p Hk), <- Hout.
    unfold output. rewrite E5 by (rewrite <- E3, Hh; exact Hfin).
    rewrite app_nil_r. reflexivity.
  - intros Hready Hctx.
    destruct (writeFrame_ok n ctx fin flate op p c Hready Hctx) as (c' & H & _).
    exists c'. exact H.
Qed.

(** ** Uncompressed messages *)

Lemma ready_set_mw n m c : ready n c -> ready n (set_mw m c).
Proof. unfold ready. cbn. auto. Qed.

Lemma msgWriter_write_ok (n : nat) (p : list Z) (c : Conn) :
  ready (S n) c -> ctxErr (mw_ctx (mw c)) = None ->
  exists c',
    msgWriter_write p c = Done (length p, None) c' /\ ready n c' /\
    mw c' = set_opcode opContinuation (mw c) /\
    let h := frameHeader c false (mw_flate (mw c)) (mw_opcode (mw c)) p in
    emitted c' = emitted c ++ [(h, p)] /\
    output c' = output c ++ encodeHeader h ++ payloadBytes h p.
Proof.
  intros Hready Hctx.
  destruct (writeFrame_ok n (mw_ctx (mw c)) false (mw_flate (mw c)) (mw_opcode (mw c)) p c
              Hready Hctx) as (c1 & W & R1).
  assert (H : msgWriter_write p c =
              Done (length p, None) (set_mw (set_opcode opContinuation (mw c1)) c1)).
  { unfold msgWriter_write, bind, get. rewrite W. reflexivity. }
  eexists. split; [exact H|]. split; [apply ready_set_mw; exact R1|].
  apply msgWriter_write_spec in H.
  destruct H as (_ & [(Hne & _)|(_ & Hmw & Hrest)]); [cbn in Hne; congruence|].
  split; [exact Hmw|exact Hrest].
Qed.

(** A write that does not compress, on a ready connection. *)
Lemma msgWriter_Write_plain_ok (n : nat) (p : list Z) (c : Conn) :
  ready (S n) c -> ctxErr (mw_ctx (mw c)) = None ->
  mw_closed (mw c) = false -> mw_writeMu (mw c) = false ->
  mw_flate (mw c) = false -> activates c p = false ->
  exists c',
    msgWriter_Write p c = Done (length p, None) c' /\ ready n c' /\
    mw c' = set_opcode opContinuation (mw c) /\
    let h := frameHeader c false false (mw_opcode (mw c)) p in
    emitted c' = emitted c ++ [(h, p)] /\
    output c' = output c ++ encodeHeader h ++ payloadBytes h p.
Proof.
  intros Hready Hctx Hopen Hm Hfl Hact.
  set (c0 := set_mw (set_writeMu true (mw c)) c).
  destruct (msgWriter_write_ok n p c0) as (c1 & W & R1 & Hmw & Hem & Hout).
  { apply ready_set_mw; exact Hready. }
  { exact Hctx. }
  cbn [c0 mw set_mw mw_flate mw_opcode set_writeMu] in Hem, Hout.
  rewrite Hfl in Hem, Hout.
  exists (set_mw (set_writeMu false (mw c1)) c1).
  split.
  { unfold msgWriter_Write, bind. rewrite with_writeMu_free by exact Hm.
    fold c0. unfold msgWriter_Write_locked, bind, get.
    replace (mw_closed (mw c0)) with false by (cbn; auto).
    replace (activates c0 p) with false by (symmetry; exact Hact).
    unfold ret at 1. replace (mw_flate (mw c0)) with false by (cbn; auto).
    rewrite W. reflexivity. }
  split; [apply ready_set_mw; exact R1|].
  split.
  { cbn [mw set_mw]. rewrite Hmw. unfold c0.
    destruct c as [? ? ? ? ? ? ? ? ? ? ? m ?]; destruct m; cbn in *.
    rewrite Hm. reflexivity. }
  exact (conj Hem Hout).
Qed.

(** A close without compression, on a ready connection. *)
Lemma msgWriter_Close_plain_ok (n : nat) (c : Conn) :
  ready (S n) c -> ctxErr (mw_ctx (mw c)) = None ->
  mw_closed (mw c) = false -> mw_writeMu (mw c) = false ->
  mw_flate (mw c) = false ->
  exists c',
    msgWriter_Close c = Done None c' /\ ready n c' /\
    mw c' = set_mu false (set_closed true (mw c)) /\
    let h := frameHeader c true false (mw_opcode (mw c)) [] in
    emitted c' = emitted c ++ [(h, [])] /\
    output c' = output c ++ encodeHeader h ++ payloadBytes h [] /\
    bw_buf (bw c') = [].
Proof.
  intros Hready Hctx Hopen Hm Hfl.
  set (c0 := set_mw (set_closed true (set_writeMu true (mw c))) c).
  destruct (writeFrame_ok n (mw_ctx (mw c)) true false (mw_opcode (mw c)) [] c0)
    as (c1 & W & R1).
  { apply ready_set_mw; exact Hready. }
  { exact Hctx. }
  pose proof (writeFrame_spec _ _ _ _ _ _ _ _ W) as (K & _ & O).
  apply frame_outcome_ok in O. destruct O as (E1 & _ & _ & E4 & E5 & _).
  destruct K as (K1 & _ & K3 & _ & _ & _ & Kmw & _).
  exists (set_mw (set_writeMu false (set_mu false (mw c1))) c1).
  split.
  { unfold msgWriter_Close, bind. rewrite with_writeMu_free by exact Hm.
    unfold msgWriter_Close_locked, bind, get, ret, modify_mw.
    cbn [mw set_mw mw_closed mw_flate mw_ctx mw_opcode set_writeMu set_closed].
    rewrite Hopen, Hfl.
    match goal with
    | |- context [writeFrame _ _ _ _ _ ?s] => change s with c0
    end.
    cbn [mw set_mw mw_ctx mw_flate mw_opcode set_writeMu set_closed]. rewrite ?Hfl.
    rewrite W. cbn [snd].
    replace (mw_flate (mw c1)) with false
      by (rewrite Kmw; cbn; symmetry; exact Hfl).
    cbn [andb]. reflexivity. }
  split; [apply ready_set_mw; exact R1|].
  split.
  { cbn [mw set_mw]. rewrite Kmw. unfold c0.
    destruct c as [? ? ? ? ? ? ? ? ? ? ? m ?]; destruct m; cbn in *.
    rewrite Hm. reflexivity. }
  cbn [emitted set_mw bw]. unfold output in *. cbn [rwc bw set_mw] in *.
  split; [exact E1|]. split; [exact E4|]. apply E5. reflexivity.
Qed.

Lemma msgWriter_reset_ok (ctx : context) (typ : MessageType) (c : Conn) :
  closed c = None -> ctxErr ctx = None -> mw_mu (mw c) = false ->
  msgWriter_reset ctx typ c = Done None (set_mw (reset_mw ctx typ (mw c)) c).
Proof.
  intros Hcl Hctx Hmu. unfold msgWriter_reset, bind, get, mu_Lock.
  rewrite Hcl, Hctx, Hmu. unfold modify_mw, ret, reset_mw.
  destruct c as [? ? ? ? ? ? ? ? ? ? ? m ?]; destruct m as [? ? ? ? ? ? tw ?].
  destruct tw; reflexivity.
Qed.

(** A caller of [reset] never gets the lock of a writer that is held. *)
Lemma msgWriter_reset_held (ctx : context) (typ : MessageType) (c : Conn) :
  mw_mu (mw c) = true ->
  msgWriter_reset ctx typ c =
  match closed c with
  | Some e => Done (Some e) c
  | None => match ctxErr ctx with
            | Some e => Done (Some e) c
            | None => Halts Blocked
            end
  end.
Proof.
  intros Hmu. unfold msgWriter_reset, bind, get, mu_Lock. rewrite Hmu.
  destruct (closed c); [reflexivity|]. destruct (ctxErr ctx); reflexivity.
Qed.

(** One whole uncompressed message through [Write] and [Close]: two
    frames, the payload in a non-final frame with the writer's opcode and
    an empty final continuation frame. *)
Lemma plain_message_ok (n : nat) (p : list Z) (c : Conn) :
  ready (S (S n)) c -> ctxErr (mw_ctx (mw c)) = None ->
  mw_closed (mw c) = false -> mw_writeMu (mw c) = false ->
  mw_flate (mw c) = false -> activates c p = false ->
  exists c1 c2,
    msgWriter_Write p c = Done (length p, None) c1 /\
    msgWriter_Close c1 = Done None c2 /\ ready n c2 /\
    mw c2 = set_mu false (set_closed true (set_opcode opContinuation (mw c))) /\
    let h1 := frameHeader c false false (mw_opcode (mw c)) p in
    let h2 := frameHeader c1 true false opContinuation [] in
    emitted c2 = emitted c ++ [(h1, p); (h2, [])] /\
    output c2 = output c ++ (encodeHeader h1 ++ payloadBytes h1 p)
                         ++ (encodeHeader h2 ++ payloadBytes h2 []) /\
    bw_buf (bw c2) = [].
Proof.
  intros Hready Hctx Hopen Hm Hfl Hact.
  destruct (msgWriter_Write_plain_ok (S n) p c Hready Hctx Hopen Hm Hfl Hact)
    as (c1 & W & R1 & Hmw1 & Hem1 & Hout1).
  destruct (msgWriter_Close_plain_ok n c1 R1) as (c2 & C & R2 & Hmw2 & Hem2 & Hout2 & Hbuf);
    try (rewrite Hmw1; cbn; assumption).
  exists c1, c2. split; [exact W|]. split; [exact C|]. split; [exact R2|].
  split; [rewrite Hmw2, Hmw1; reflexivity|].
  rewrite Hmw1 in Hem2, Hout2. cbn [mw_opcode set_opcode] in Hem2, Hout2.
  split; [rewrite Hem2, Hem1, <- app_assoc; reflexivity|].
  split; [rewrite Hout2, Hout1, <- !app_assoc; reflexivity|exact Hbuf].
Qed.

(** ** One-shot and streaming *)

Lemma mask_involutive (key : Z) (p : list Z) : snd (mask key (snd (mask key p))) = p.
Proof.
  revert key; induction p as [|x p IH]; intros key; cbn [mask snd]; [reflexivity|].
  rewrite IH. f_equal.
  rewrite Z.lxor_assoc, Z.lxor_nilpotent, Z.lxor_0_r. reflexivity.
Qed.

Lemma payloadBytes_involutive (h : header) (p : list Z) :
  payloadBytes h (payloadBytes h p) = p.
Proof.
  unfold payloadBytes. destruct (h_masked h); [apply mask_involutive|reflexivity].
Qed.

Lemma msgWriter_reset_state ctx typ c r c1 :
  msgWriter_reset ctx typ c = Done r c1 -> exists m, c1 = set_mw m c.
Proof.
  unfold msgWriter_reset, bind, get.
  destruct (mu_Lock (closed c) ctx (mw_mu (mw c))).
  - unfold modify_mw, ret. intros H; inversion H; subst. eexists. reflexivity.
  - unfold ret. intros H; inversion H; subst. exists (mw c1).
    destruct c1; reflexivity.
  - discriminate.
Qed.

Lemma isData_opcode_of typ : isData (opcode_of typ) = true.
Proof. destruct typ; reflexivity. Qed.

Lemma opcode_of_not_continuation typ :
  opcode_eqb (opcode_of typ) opContinuation = false.
Proof. destruct typ; reflexivity. Qed.

(** C1.  The one-shot [Write] and the streaming path ([Writer], one
    [Write] of the payload, [Close]) send the same message.  With
    compression negotiated the one-shot path is the streaming path: both
    end alike and in the same state, frames recorded and bytes sent
    included.  Without compression, on a ready connection, both succeed;
    the one-shot path emits exactly one frame, final, with the message
    type as opcode and the whole payload, and leaves the writer's opcode
    and closed flag as [Writer] set them; the streaming path emits two
    frames and ends with the opcode at continuation and the writer closed;
    the peer reassembles from either the message of that type, not
    compressed, with that payload; and the bytes sent are the encodings
    of these frames, headers and payloads as they travel. *)
Theorem C1_one_shot_write_equals_streaming
    (ctx : context) (typ : MessageType) (p : list Z) (c : Conn)
    (Hready : ready 2 c)
    (Hmu : mw_mu (mw c) = false) (HwriteMu : mw_writeMu (mw c) = false)
    (Hctx : ctxErr ctx = None) :
  (flateEnabled c = true ->
   match Conn_Write ctx typ p c, stream_message ctx typ p c with
   | Done e1 c1, Done e2 c2 => c1 = c2 /\ (e1 = None <-> e2 = None)
   | Halts w1, Halts w2 => w1 = w2
   | _, _ => False
   end) /\
  (flateEnabled c = false ->
   exists c1 c2 f g1 g2,
     Conn_Write ctx typ p c = Done None c1 /\
     stream_message ctx typ p c = Done None c2 /\
     emitted c1 = emitted c ++ [f] /\
     h_fin (fst f) = true /\ h_opcode (fst f) = opcode_of typ /\
     h_rsv1 (fst f) = false /\ snd f = p /\
     emitted c2 = emitted c ++ [g1; g2] /\
     reassemble (map onWire [f]) = Some (opcode_of typ, false, p) /\
     reassemble (map onWire [g1; g2]) = Some (opcode_of typ, false, p) /\
     mw_opcode (mw c1) = opcode_of typ /\ mw_closed (mw c1) = false /\
     mw_mu (mw c1) = false /\
     mw_opcode (mw c2) = opContinuation /\ mw_closed (mw c2) = true /\
     mw_mu (mw c2) = false /\
     sent (rwc c1) = output c ++ encodeHeader (fst f) ++ snd (onWire f) /\
     sent (rwc c2) =
       output c ++ (encodeHeader (fst g1) ++ snd (onWire g1))
                ++ (encodeHeader (fst g2) ++ snd (onWire g2))).
Proof.
  split.
  - intros Hfl.
    unfold Conn_Write, Conn_write, stream_message, Conn_Writer, Conn_writer, bind.
    destruct (msgWriter_reset ctx typ c) as [[e|] c1|] eqn:R.
    + cbn. split; [reflexivity|]. split; discriminate.
    + unfold ret. cbn [errd_Wrap]. unfold get.
      destruct (msgWriter_reset_state _ _ _ _ _ R) as [m ->].
      cbn [flateEnabled set_mw]. rewrite Hfl. cbn [negb].
      unfold ret. cbn [errd_Wrap].
      destruct (msgWriter_Write p (set_mw m c)) as [[k [e|]] c2|] eqn:EW;
        cbn [snd fst].
      * cbn. split; [reflexivity|]. split; discriminate.
      * destruct (msgWriter_Close c2) as [[e|] c3|] eqn:EC; cbn.
        -- split; [reflexivity|]. split; discriminate.
        -- split; [reflexivity|]. split; reflexivity.
        -- reflexivity.
      * reflexivity.
    + reflexivity.
  - intros Hfl.
    pose proof Hready as (Hcl & _).
    pose proof (msgWriter_reset_ok ctx typ c Hcl Hctx Hmu) as R.
    set (c0 := set_mw (reset_mw ctx typ (mw c)) c) in *.
    assert (R0 : ready 2 c0) by (apply ready_set_mw; exact Hready).
    (* the one-shot path *)
    destruct (writeFrame_ok 1 ctx true false (opcode_of typ) p c0 R0 Hctx)
      as (c1 & W & R1).
    pose proof (writeFrame_spec _ _ _ _ _ _ _ _ W) as (K & _ & O).
    apply frame_outcome_ok in O. destruct O as (E1 & _ & _ & E4 & E5 & _).
    destruct K as (_ & _ & _ & _ & _ & _ & Kmw & _).
    (* the streaming path *)
    destruct (plain_message_ok 0 p c0)
      as (s1 & s2 & SW & SC & _ & Smw & Sem & Sout & Sbuf); auto.
    { unfold activates. cbn [flateEnabled c0 set_mw]. rewrite Hfl. reflexivity. }
    set (f := (frameHeader c0 true false (opcode_of typ) p, p)).
    exists (set_mw (set_mu false (mw c1)) c1), s2, f.
    eexists. eexists.
    split.
    { unfold Conn_Write, Conn_write, Conn_writer, bind. rewrite R. fold c0.
      unfold get. replace (flateEnabled c0) with false by (symmetry; exact Hfl).
      cbn [negb]. replace (mw_opcode (mw c0)) with (opcode_of typ) by reflexivity.
      rewrite W. reflexivity. }
    split.
    { unfold stream_message, Conn_Writer, Conn_writer, bind. rewrite R. fold c0.
      unfold ret at 1. cbn [errd_Wrap]. rewrite SW. cbn [snd]. exact SC. }
    split; [exact E1|].
    split; [reflexivity|]. split; [reflexivity|]. split; [reflexivity|].
    split; [reflexivity|].
    split; [exact Sem|].
    split.
    { cbn [map onWire f fst snd reassemble h_opcode h_fin h_rsv1 frameHeader].
      rewrite isData_opcode_of, payloadBytes_involutive. reflexivity. }
    split.
    { cbn [map onWire fst snd reassemble reassemble_rest h_opcode h_fin h_rsv1
           frameHeader mw_opcode c0 mw set_mw reset_mw].
      rewrite isData_opcode_of, !payloadBytes_involutive, app_nil_r. reflexivity. }
    cbn [mw set_mw]. rewrite Kmw, Smw.
    cbn [mw_opcode mw_closed mw_mu set_mu set_closed set_opcode c0 mw set_mw reset_mw].
    do 6 (split; [reflexivity|]).
    split.
    + cbn [rwc set_mw onWire fst snd f].
      specialize (E5 eq_refl). unfold output in E4 at 1. rewrite E5, app_nil_r in E4.
      exact E4.
    + cbn [onWire fst snd]. unfold output in Sout at 1.
      rewrite Sbuf, app_nil_r in Sout. exact Sout.
Qed.

(** C10.  With compression negotiated and a payload shorter than the
    threshold, the one-shot [Write] on a ready connection emits two
    frames: a non-final frame with the message type as opcode, no RSV1 and
    the whole payload, then an empty final continuation frame.  Both are
    flushed to the byte stream. *)
Theorem C10_below_threshold_one_shot_emits_two_frames
    (ctx : context) (typ : MessageType) (p : list Z) (c : Conn)
    (Hflate : flateEnabled c = true)
    (Hsmall : len p < flateThreshold c)
    (Hready : ready 2 c)
    (Hmu : mw_mu (mw c) = false) (HwriteMu : mw_writeMu (mw c) = false)
    (Hctx : ctxErr ctx = None) :
  exists c' g1 g2,
    Conn_Write ctx typ p c = Done None c' /\
    emitted c' = emitted c ++ [g1; g2] /\
    h_fin (fst g1) = false /\ h_opcode (fst g1) = opcode_of typ /\
    h_rsv1 (fst g1) = false /\ h_payloadLength (fst g1) = len p /\ snd g1 = p /\
    h_fin (fst g2) = true /\ h_opcode (fst g2) = opContinuation /\
    h_rsv1 (fst g2) = false /\ h_payloadLength (fst g2) = 0 /\ snd g2 = [] /\
    sent (rwc c') =
      output c ++ (encodeHeader (fst g1) ++ payloadBytes (fst g1) p)
               ++ (encodeHeader (fst g2) ++ payloadBytes (fst g2) []).
Proof.
  pose proof Hready as (Hcl & _).
  pose proof (msgWriter_reset_ok ctx typ c Hcl Hctx Hmu) as R.
  set (c0 := set_mw (reset_mw ctx typ (mw c)) c) in *.
  assert (R0 : ready 2 c0) by (apply ready_set_mw; exact Hready).
  destruct (plain_message_ok 0 p c0) as (s1 & s2 & SW & SC & _ & Smw & Sem & Sout & Sbuf);
    auto.
  { unfold activates. cbn [flateEnabled flateThreshold c0 set_mw mw].
    destruct (Z.leb_spec (flateThreshold c) (len p)); [lia|].
    rewrite andb_false_r. reflexivity. }
  exists s2. eexists. eexists.
  split.
  { unfold Conn_Write, Conn_write, Conn_writer, bind. rewrite R. fold c0.
    unfold get. replace (flateEnabled c0) with true by (symmetry; exact Hflate).
    cbn [negb]. rewrite SW. cbn [snd]. rewrite SC. reflexivity. }
  split; [exact Sem|].
  cbn [fst snd h_fin h_opcode h_rsv1 h_payloadLength frameHeader].
  repeat (split; [reflexivity|]).
  unfold output in Sout at 1. rewrite Sbuf, app_nil_r in Sout. exact Sout.
Qed.

(** ** Callers of the message writer *)

Lemma run_ops_closed (ops : list writerOp) (c : Conn) :
  mw_closed (mw c) = true -> mw_writeMu (mw c) = false ->
  run_ops ops c = Done (map closed_writer_error ops) c.
Proof.
  intros Hc Hm. induction ops as [|o ops IH]; cbn [run_ops map]; [reflexivity|].
  unfold bind at 1.
  assert (H : run_op o c = Done (closed_writer_error o) c).
  { destruct o; cbn [run_op closed_writer_error].
    - unfold bind. rewrite msgWriter_Write_closed by assumption. reflexivity.
    - apply msgWriter_Close_closed; assumption. }
  rewrite H. unfold bind. rewrite IH. reflexivity.
Qed.

(** [Close] on an open writer with the lock free, as an equation. *)
Lemma msgWriter_Close_eq (c : Conn) :
  mw_closed (mw c) = false -> mw_writeMu (mw c) = false ->
  msgWriter_Close c =
  match (if mw_flate (mw c) then flate_StatelessDeflate [] true [] else ret None)
          (set_mw (set_writeMu true (mw c)) c) with
  | Halts why => Halts why
  | Done (Some e) c1 =>
      Done (Some (errWrap "failed to close writer" (errWrap "failed to flush flate" e)))
           (set_mw (set_writeMu false (mw c1)) c1)
  | Done None c1 =>
      match writeFrame (mw_ctx (mw c1)) true (mw_flate (mw c1)) (mw_opcode (mw c1)) []
              (set_mw (set_closed true (mw c1)) c1) with
      | Halts why => Halts why
      | Done fr c2 =>
          match snd fr with
          | Some e =>
              Done (Some (errWrap "failed to close writer"
                            (errWrap "failed to write fin frame" e)))
                   (set_mw (set_writeMu false (mw c2)) c2)
          | None =>
              Done None
                (set_mw
                   (set_writeMu false
                      (set_mu false
                         (if mw_flate (mw c2) && negb (flateContextTakeover c2)
                          then set_dict None (mw c2) else mw c2))) c2)
          end
      end
  end.
Proof.
  intros Hopen Hm. unfold msgWriter_Close. unfold bind at 1.
  rewrite with_writeMu_free by exact Hm.
  set (c0 := set_mw (set_writeMu true (mw c)) c).
  unfold msgWriter_Close_locked. unfold bind at 1, get at 1.
  replace (mw_closed (mw c0)) with false by (cbn; auto).
  replace (mw_flate (mw c0)) with (mw_flate (mw c)) by reflexivity.
  unfold bind at 1.
  destruct ((if mw_flate (mw c) then flate_StatelessDeflate [] true [] else ret None) c0)
    as [[e|] c1|]; [reflexivity| |reflexivity].
  unfold bind at 1, modify_mw at 1. unfold bind at 1, get at 1. unfold bind at 1.
  cbn [mw set_mw mw_ctx mw_flate mw_opcode set_closed].
  destruct (writeFrame (mw_ctx (mw c1)) true (mw_flate (mw c1)) (mw_opcode (mw c1)) []
              (set_mw (set_closed true (mw c1)) c1)) as [fr c2|]; [|reflexivity].
  destruct (snd fr) as [e|]; [reflexivity|].
  unfold bind at 1, get at 1. unfold bind at 1.
  destruct (mw_flate (mw c2) && negb (flateContextTakeover c2)); reflexivity.
Qed.

(** *** Compressed output on a ready connection *)

Lemma trimWriter_Write_ok (n : nat) (b : list Z) (c : Conn) :
  ready (S n) c -> ctxErr (mw_ctx (mw c)) = None ->
  isNil (mw_trimWriter (mw c)) = false ->
  exists c', trimWriter_Write b c = Done (length b, None) c' /\ ready n c'.
Proof.
  intros Hready Hctx Ht. unfold trimWriter_Write, bind, get.
  destruct (mw_trimWriter (mw c)) as [tw|]; [|discriminate].
  destruct (Nat.eqb_spec (length (tw_tail tw ++ b) - 4) 0) as [K0|K0].
  - unfold modify_mw, ret. eexists. split; [reflexivity|].
    apply ready_set_mw. eapply ready_le; [|exact Hready]. lia.
  - destruct (msgWriter_write_ok n (firstn (length (tw_tail tw ++ b) - 4) (tw_tail tw ++ b)) c
                Hready Hctx) as (c1 & W & R1 & _).
    rewrite W. cbn [snd]. unfold modify_mw, ret. eexists. split; [reflexivity|].
    apply ready_set_mw. exact R1.
Qed.

Lemma writeBlocks_ok (blocks : list (list Z)) : forall (n : nat) (c : Conn),
  ready (length blocks + n) c -> ctxErr (mw_ctx (mw c)) = None ->
  isNil (mw_trimWriter (mw c)) = false ->
  exists c', writeBlocks blocks c = Done None c' /\ ready n c'.
Proof.
  induction blocks as [|b rest IH]; intros n c Hready Hctx Ht; cbn [writeBlocks].
  - exists c. split; [reflexivity|exact Hready].
  - cbn [length Nat.add] in Hready.
    destruct (trimWriter_Write_ok _ b c Hready Hctx Ht) as (c1 & T & R1).
    pose proof (trimWriter_Write_wsteps _ _ _ _ T) as (_ & (_ & _ & W3 & _ & _ & _ & W7) & _).
    unfold bind. rewrite T. cbn [snd].
    apply IH; [exact R1|rewrite W3; exact Hctx|rewrite W7; exact Ht].
Qed.

(** ** Close under compression; a failed final frame *)

Lemma noContextTakeover_spec (c : Conn) :
  negb (flateContextTakeover c) = noContextTakeover c.
Proof.
  unfold flateContextTakeover, noContextTakeover.
  destruct (client c); apply negb_involutive.
Qed.

(** C4.  [Close] on an open writer with compression active.  First the
    final block ([eof] set, empty input, no dictionary) goes through the
    trim writer; the frames this emits are non-final.  If that fails,
    [Close] reports it, the writer stays open and no final frame is
    written.  Otherwise the closed flag is set and a frame with FIN and an
    empty payload is written; when it has gone out, it is the last frame
    recorded, the window is released exactly when the negotiated option
    forbids this side to reuse its dictionary (a client with
    client_no_context_takeover, a server with server_no_context_takeover)
    and is otherwise as it was, and the ownership lock is released.  On a
    ready connection with the writer lock free, [Close] succeeds. *)
Theorem C4_close_under_compression
    (n : nat) (c : Conn)
    (Hopen : mw_closed (mw c) = false)
    (Hflate : mw_flate (mw c) = true) :
  (forall r c',
     msgWriter_Close c = Done r c' ->
     exists ferr c1 fs,
       flate_StatelessDeflate [] true [] (set_mw (set_writeMu true (mw c)) c)
         = Done ferr c1 /\
       emitted c1 = emitted c ++ fs /\
       chain true (mw_opcode (mw c)) fs (mw_opcode (mw c1)) /\
       match ferr with
       | Some e =>
           r = Some (errWrap "failed to close writer"
                       (errWrap "failed to flush flate" e)) /\
           emitted c' = emitted c1 /\ mw_closed (mw c') = false
       | None =>
           exists fr c2,
             writeFrame (mw_ctx (mw c)) true true (mw_opcode (mw c1)) []
               (set_mw (set_closed true (mw c1)) c1) = Done fr c2 /\
             mw_closed (mw c') = true /\
             match snd fr with
             | Some e =>
                 r = Some (errWrap "failed to close writer"
                             (errWrap "failed to write fin frame" e)) /\
                 mw_dict (mw c') = mw_dict (mw c) /\
                 mw_mu (mw c') = mw_mu (mw c)
             | None =>
                 r = None /\
                 (exists h,
                    emitted c' = emitted c1 ++ [(h, [])] /\
                    h_fin h = true /\ h_payloadLength h = 0 /\
                    h_opcode h = mw_opcode (mw c1)) /\
                 mw_dict (mw c') =
                   (if noContextTakeover c then None else mw_dict (mw c)) /\
                 mw_mu (mw c') = false
             end
       end) /\
  (ready (length (deflateBlocks [] true []) + (1 + n)) c ->
   ctxErr (mw_ctx (mw c)) = None ->
   mw_writeMu (mw c) = false ->
   isNil (mw_trimWriter (mw c)) = false ->
   exists c', msgWriter_Close c = Done None c' /\ ready n c').
Proof.
  split.
  - intros r c' H.
    destruct (msgWriter_Close_open _ _ _ Hopen H) as (Hm & ferr & c1 & D & W & Hrest).
    rewrite Hflate in D, Hrest.
    destruct W as (K & (W1 & W2 & W3 & W4 & W5 & W6 & W7) & fs & E & C).
    cbn [mw set_mw emitted mw_mu mw_flate mw_dict mw_opcode mw_closed set_writeMu]
      in W1, W4, W5, W6, E, C.
    rewrite Hflate in C.
    exists ferr, c1, fs. split; [exact D|]. split; [exact E|]. split; [exact C|].
    destruct ferr as [e|].
    + destruct Hrest as [-> ->]. cbn. rewrite W4. auto.
    + destruct Hrest as (fr & c2 & F & Hrest).
      exists fr, c2. split; [exact F|].
      pose proof (writeFrame_spec _ _ _ _ _ _ _ _ F) as (KF & _ & O).
      destruct KF as (F1 & _ & F3 & _ & _ & _ & Fmw & _).
      cbn [mw set_mw client copts] in Fmw, F1, F3.
      destruct (snd fr) as [e|] eqn:Efr.
      * destruct Hrest as [-> ->]. cbn [mw set_mw]. rewrite Fmw. cbn.
        rewrite W6, W1. auto.
      * destruct Hrest as [-> ->].
        destruct fr as [k err]. cbn in Efr. subst err.
        apply frame_outcome_ok in O. destruct O as (E1 & _).
        cbn [emitted set_mw] in E1.
        rewrite noContextTakeover_spec. cbn [andb mw set_mw emitted].
        split.
        { destruct (noContextTakeover c); cbn; rewrite Fmw; reflexivity. }
        split; [reflexivity|]. split.
        { eexists. split; [exact E1|]. cbn. auto. }
        split.
        { destruct (noContextTakeover c); cbn; [reflexivity|].
          rewrite Fmw. cbn. exact W6. }
        destruct (noContextTakeover c); reflexivity.
  - intros Hready Hctx Hm Ht.
    rewrite msgWriter_Close_eq by assumption. rewrite Hflate.
    destruct (writeBlocks_ok (deflateBlocks [] true []) (1 + n)
                (set_mw (set_writeMu true (mw c)) c)) as (c1 & D & R1).
    { apply ready_set_mw. exact Hready. }
    { exact Hctx. }
    { exact Ht. }
    unfold flate_StatelessDeflate. rewrite D.
    pose proof (writeBlocks_wsteps _ _ _ _ D) as (_ & (_ & _ & W3 & _) & _).
    cbn [mw set_mw mw_ctx set_writeMu] in W3.
    destruct (writeFrame_ok n (mw_ctx (mw c1)) true (mw_flate (mw c1))
                (mw_opcode (mw c1)) [] (set_mw (set_closed true (mw c1)) c1))
      as (c2 & F & R2).
    { apply ready_set_mw. exact R1. }
    { rewrite W3. exact Hctx. }
    rewrite F. cbn [snd]. eexists. split; [reflexivity|].
    apply ready_set_mw. exact R2.
Qed.

(** C9.  When the write of the final frame inside [Close] fails, the
    writer is left closed (the flag was set before that write was made)
    and the ownership lock is still held.  From then on every [Write] and
    every [Close] on the writer returns the closed-writer error and
    changes nothing, and no call of [Writer] succeeds: while the
    connection is open it parks (or fails once its own context has fired),
    and once the connection is closed it fails with the close cause. *)
Theorem C9_failed_final_frame_leaves_writer_closed_and_locked
    (c c' : Conn) (e : error)
    (Hheld : mw_mu (mw c) = true)
    (Hfail : msgWriter_Close c =
             Done (Some (errWrap "failed to close writer"
                           (errWrap "failed to write fin frame" e))) c') :
  mw_closed (mw c) = false /\
  (exists c1 fr c2,
     mw_closed (mw (set_mw (set_closed true (mw c1)) c1)) = true /\
     writeFrame (mw_ctx (mw c)) true (mw_flate (mw c)) (mw_opcode (mw c1)) []
       (set_mw (set_closed true (mw c1)) c1) = Done fr c2 /\
     snd fr = Some e) /\
  mw_closed (mw c') = true /\ mw_mu (mw c') = true /\
  (forall ops, run_ops ops c' = Done (map closed_writer_error ops) c') /\
  (forall ctx typ,
     match Conn_Writer ctx typ c' with
     | Done None _ => False
     | _ => True
     end) /\
  (forall ctx typ, closed c' = None -> ctxErr ctx = None ->
     Conn_Writer ctx typ c' = Halts Blocked) /\
  (forall ctx typ cause, closed c' = Some cause ->
     Conn_Writer ctx typ c' =
     Done (Some (errWrap "failed to get writer" cause)) c').
Proof.
  assert (Hopen : mw_closed (mw c) = false).
  { destruct (mw_closed (mw c)) eqn:Hc; [|reflexivity].
    destruct (mw_writeMu (mw c)) eqn:Hm.
    - unfold msgWriter_Close, bind in Hfail.
      rewrite with_writeMu_held in Hfail by exact Hm. discriminate.
    - rewrite msgWriter_Close_closed in Hfail by assumption. discriminate. }
  destruct (msgWriter_Close_open _ _ _ Hopen Hfail) as (Hm & ferr & c1 & D & W & Hrest).
  destruct W as (_ & (W1 & W2 & _) & _).
  cbn [mw set_mw mw_mu mw_writeMu set_writeMu] in W1, W2.
  destruct ferr as [e1|]; [destruct Hrest as [Hr _]; inversion Hr|].
  destruct Hrest as (fr & c2 & F & Hrest).
  pose proof (writeFrame_spec _ _ _ _ _ _ _ _ F) as ((_ & _ & _ & _ & _ & _ & Fmw & _) & _).
  cbn [mw set_mw] in Fmw.
  destruct (snd fr) as [e2|] eqn:Efr; [|destruct Hrest; discriminate].
  destruct Hrest as [Hr ->]. inversion Hr; subst e2. clear Hr.
  assert (Hc' : mw_closed (mw (set_mw (set_writeMu false (mw c2)) c2)) = true)
    by (cbn; rewrite Fmw; reflexivity).
  assert (Hmu' : mw_mu (mw (set_mw (set_writeMu false (mw c2)) c2)) = true)
    by (cbn; rewrite Fmw; cbn; rewrite W1; exact Hheld).
  assert (Hm' : mw_writeMu (mw (set_mw (set_writeMu false (mw c2)) c2)) = false)
    by reflexivity.
  set (cf := set_mw (set_writeMu false (mw c2)) c2) in *.
  split; [exact Hopen|].
  split; [exists c1, fr, c2; repeat split; auto|].
  split; [exact Hc'|]. split; [exact Hmu'|].
  split; [intros ops; apply run_ops_closed; assumption|].
  split.
  { intros ctx typ. unfold Conn_Writer, Conn_writer, bind.
    rewrite msgWriter_reset_held by exact Hmu'.
    destruct (closed cf); [exact I|]. destruct (ctxErr ctx); exact I. }
  split.
  { intros ctx typ Hcl Hctx. unfold Conn_Writer, Conn_writer, bind.
    rewrite msgWriter_reset_held by exact Hmu'. rewrite Hcl, Hctx. reflexivity. }
  intros ctx typ cause Hcl. unfold Conn_Writer, Conn_writer, bind.
  rewrite msgWriter_reset_held by exact Hmu'. rewrite Hcl. reflexivity.
Qed.

(** ** The frames of a message *)

Lemma chain_cont_gen fl o0 fs o :
  chain fl o0 fs o -> o0 = opContinuation ->
  o = opContinuation /\ Forall cont_frame fs.
Proof.
  induction 1 as [o|o o' f fs H1 H2 H3 H4 IH]; intros E0.
  - split; [exact E0|constructor].
  - destruct (IH eq_refl) as [Ho HF]. split; [exact Ho|].
    constructor; [|exact HF]. split; [congruence|].
    rewrite H3, E0. apply andb_false_r.
Qed.

Lemma chain_cont fl fs o :
  chain fl opContinuation fs o -> o = opContinuation /\ Forall cont_frame fs.
Proof. intros C. eapply chain_cont_gen; [exact C|reflexivity]. Qed.

Lemma chain_flate_nil fl fl' t fs o :
  chain fl t fs o -> o <> opContinuation -> chain fl' t fs o.
Proof.
  intros C Hne. destruct (chain_start_nil _ _ _ _ C Hne) as [-> ->]. apply chain_nil.
Qed.

Lemma activates_opcode c p :
  activates c p = true -> mw_opcode (mw c) <> opContinuation.
Proof.
  unfold activates. intros H E. rewrite E in H. cbn in H.
  rewrite andb_false_r in H. discriminate.
Qed.

Lemma run_op_closed (o : writerOp) (c : Conn) (e : option error) (c' : Conn) :
  mw_closed (mw c) = true -> run_op o c = Done e c' -> c' = c.
Proof.
  intros Hc H. destruct (mw_writeMu (mw c)) eqn:Hm.
  - exfalso. destruct o; cbn [run_op] in H.
    + unfold bind at 1, msgWriter_Write, bind in H.
      rewrite with_writeMu_held in H by exact Hm. discriminate.
    + unfold msgWriter_Close, bind in H.
      rewrite with_writeMu_held in H by exact Hm. discriminate.
  - destruct o; cbn [run_op] in H.
    + unfold bind in H. rewrite msgWriter_Write_closed in H by assumption.
      inversion H; reflexivity.
    + rewrite msgWriter_Close_closed in H by assumption. inversion H; reflexivity.
Qed.

(** One call on an open writer, in terms of the trace: a run of non-final
    frames and, for a [Close] that got that far, the final frame. *)
Lemma run_op_open (o : writerOp) (c : Conn) (e : option error) (c' : Conn) :
  mw_closed (mw c) = false -> run_op o c = Done e c' ->
  mw_flate (mw c') =
    mw_flate (mw c) || match o with OpWrite p => activates c p | OpClose => false end /\
  exists fs,
    chain (mw_flate (mw c')) (mw_opcode (mw c)) fs (mw_opcode (mw c')) /\
    (emitted c' = emitted c ++ fs \/
     (mw_closed (mw c') = true /\
      exists h,
        emitted c' = emitted c ++ fs ++ [(h, [])] /\ h_fin h = true /\
        h_opcode h = mw_opcode (mw c') /\
        h_rsv1 h = mw_flate (mw c') && isData (mw_opcode (mw c')))).
Proof.
  intros Hopen H. destruct o as [p|]; cbn [run_op] in H.
  - unfold bind in H.
    destruct (msgWriter_Write p c) as [r c1|] eqn:W; [|discriminate].
    unfold ret in H. inversion H; subst; clear H.
    destruct (msgWriter_Write_open _ _ _ _ Hopen W)
      as [_ _ _ _ _ Hfl _ _ (fs & E & C)].
    split; [exact Hfl|]. exists fs. split; [exact C|]. left. exact E.
  - destruct (msgWriter_Close_open _ _ _ Hopen H) as (Hm & ferr & c1 & D & W & Hrest).
    destruct W as (_ & (_ & _ & _ & W4 & W5 & _) & fs & E & C).
    cbn [mw set_mw emitted mw_flate mw_opcode mw_closed set_writeMu] in W4, W5, E, C.
    rewrite orb_false_r.
    destruct ferr as [e1|].
    + destruct Hrest as [_ ->]. cbn [mw set_mw mw_flate mw_opcode set_writeMu emitted].
      split; [exact W5|]. exists fs. rewrite W5. split; [exact C|]. left. exact E.
    + destruct Hrest as (fr & c2 & F & Hrest).
      pose proof (writeFrame_spec _ _ _ _ _ _ _ _ F) as (KF & _ & O).
      destruct KF as (_ & _ & _ & _ & _ & _ & Fmw & _). cbn [mw set_mw] in Fmw.
      assert (Hc' : mw_flate (mw c') = mw_flate (mw c) /\
                    mw_opcode (mw c') = mw_opcode (mw c1) /\
                    mw_closed (mw c') = true /\ emitted c' = emitted c2).
      { destruct (snd fr); destruct Hrest as [_ ->]; cbn [mw set_mw emitted].
        - rewrite Fmw. cbn. auto.
        - destruct (mw_flate (mw c) && negb (flateContextTakeover c));
            cbn; rewrite Fmw; cbn; auto. }
      destruct Hc' as (A1 & A2 & A3 & A4).
      split; [exact A1|]. exists fs. rewrite A1, A2, A4.
      split; [exact C|].
      cbn [emitted set_mw] in O.
      destruct O as [E1 _|E1 _ _ _ _ _ _ _ _|E1 _ _]; cbn [emitted set_mw] in E1.
      * left. rewrite E1, E. reflexivity.
      * right. split; [exact A3|]. eexists.
        split; [rewrite E1, E, <- app_assoc; reflexivity|].
        cbn [h_fin h_opcode h_rsv1 frameHeader]. auto.
      * right. split; [exact A3|]. eexists.
        split; [rewrite E1, E, <- app_assoc; reflexivity|].
        cbn [h_fin h_opcode h_rsv1 frameHeader]. auto.
Qed.

Lemma run_op_trace (t : opcode) (c0 : Conn) (o : writerOp) (c : Conn)
    (e : option error) (c' : Conn) :
  trace_inv t c0 c -> run_op o c = Done e c' -> trace_inv t c0 c'.
Proof.
  intros Inv H. destruct (mw_closed (mw c)) eqn:Hc.
  - rewrite (run_op_closed _ _ _ _ Hc H). exact Inv.
  - destruct Inv as (fs1 & C1 & [E1|(Hcl & _)]); [|congruence].
    destruct (run_op_open _ _ _ _ Hc H) as (Hfl & fs & C & Hem).
    exists (fs1 ++ fs). split.
    + eapply chain_app; [|exact C].
      rewrite Hfl. destruct o as [p|].
      * destruct (activates c p) eqn:Ha.
        -- apply chain_flate_nil with (fl := mw_flate (mw c)); [exact C1|].
           apply activates_opcode with (p := p). exact Ha.
        -- rewrite orb_false_r. exact C1.
      * rewrite orb_false_r. exact C1.
    + destruct Hem as [E|(Hcl & h & E & Hh)].
      * left. rewrite E, E1, app_assoc. reflexivity.
      * right. split; [exact Hcl|]. exists h.
        split; [rewrite E, E1, !app_assoc; reflexivity|exact Hh].
Qed.

Lemma run_ops_trace (t : opcode) (c0 : Conn) (ops : list writerOp) :
  forall c rs c', trace_inv t c0 c -> run_ops ops c = Done rs c' -> trace_inv t c0 c'.
Proof.
  induction ops as [|o ops IH]; intros c rs c' Inv H; cbn [run_ops] in H.
  - unfold ret in H. inversion H; subst. exact Inv.
  - unfold bind at 1 in H. destruct (run_op o c) as [e c1|] eqn:R; [|discriminate].
    unfold bind at 1 in H. destruct (run_ops ops c1) as [es c2|] eqn:Rs; [|discriminate].
    unfold ret in H. inversion H; subst.
    eapply IH; [|exact Rs]. eapply run_op_trace; eassumption.
Qed.

Lemma chain_head fl t fs o :
  chain fl t fs o ->
  match fs with
  | [] => o = t
  | f :: rest =>
      h_opcode (fst f) = t /\ h_rsv1 (fst f) = fl && isData t /\
      chain fl opContinuation rest o
  end.
Proof. destruct 1; auto. Qed.

(** What [trace_inv] says about the frames themselves. *)
Lemma trace_inv_frames (t : opcode) (c0 c : Conn) :
  isData t = true -> trace_inv t c0 c ->
  exists fs,
    emitted c = emitted c0 ++ fs /\
    (mw_closed (mw c) = false -> fs <> [] -> mw_opcode (mw c) = opContinuation) /\
    match fs with
    | [] => True
    | f :: rest =>
        h_opcode (fst f) = t /\ h_rsv1 (fst f) = mw_flate (mw c) /\
        Forall cont_frame rest
    end.
Proof.
  intros Ht (fs1 & C & [E|(Hcl & h & E & Hfin & Hop & Hrsv)]).
  - exists fs1. split; [exact E|]. split.
    + intros _ Hne. eapply chain_end; eassumption.
    + apply chain_head in C. destruct fs1 as [|f rest]; [exact I|].
      destruct C as (H1 & H3 & H4).
      split; [exact H1|]. split; [rewrite H3, Ht; apply andb_true_r|].
      apply (chain_cont _ _ _ H4).
  - exists (fs1 ++ [(h, [])]). split; [exact E|]. split; [congruence|].
    apply chain_head in C. destruct fs1 as [|f rest]; cbn [app].
    + split; [cbn; congruence|]. split; [|constructor].
      cbn [fst]. rewrite Hrsv, C, Ht. apply andb_true_r.
    + destruct C as (H1 & H3 & H4).
      split; [exact H1|]. split; [rewrite H3, Ht; apply andb_true_r|].
      destruct (chain_cont _ _ _ H4) as [Ho HF].
      apply Forall_app. split; [exact HF|]. constructor; [|constructor].
      split; cbn [fst]; [congruence|]. rewrite Hrsv, Ho. apply andb_false_r.
Qed.

Lemma Conn_Writer_ok_state ctx typ c0 c1 :
  Conn_Writer ctx typ c0 = Done None c1 ->
  c1 = set_mw (reset_mw ctx typ (mw c0)) c0.
Proof.
  unfold Conn_Writer, Conn_writer, bind. intros H.
  destruct (msgWriter_reset ctx typ c0) as [[e|] c|] eqn:R;
    unfold ret in H; cbn in H; try discriminate.
  inversion H; subst; clear H.
  revert R. unfold msgWriter_reset, bind, get, mu_Lock.
  destruct (closed c0); [unfold ret; discriminate|].
  destruct (ctxErr ctx); [unfold ret; discriminate|].
  destruct (mw_mu (mw c0)); [discriminate|].
  unfold modify_mw, ret, reset_mw. intros H; inversion H; subst; clear H.
  destruct c0 as [? ? ? ? ? ? ? ? ? ? ? m ?]; destruct m as [? ? ? ? ? ? tw ?].
  destruct tw; reflexivity.
Qed.

(** ** After a failed frame *)

Lemma writeFramePayload_loop_err (fuel : nat) : forall key p n c r c',
  writeFramePayload_loop fuel key p n c = Done r c' -> snd r <> None ->
  bw_err (bw c') <> None.
Proof.
  induction fuel as [|fuel IH]; intros key p n c r c'; destruct p as [|x p'].
  - cbn. unfold ret. intros H; inversion H; subst. cbn. congruence.
  - cbn. discriminate.
  - cbn. unfold ret. intros H; inversion H; subst. cbn. congruence.
  - remember (x :: p') as p eqn:Ep.
    replace (writeFramePayload_loop (S fuel) key p n c) with
      (let '(ferr, b1, w1) :=
         if (bw_Available (bw c) =? 0)%nat
         then bw_Flush (bw c) (rwc c) else (None, bw c, rwc c) in
       match ferr with
       | Some e => Done (n, Some e) (set_io b1 w1 c)
       | None =>
           let i := bw_Buffered b1 in
           let j := if (bw_Available b1 <? length p)%nat
                    then bw_Available b1 else length p in
           let '(_, werr, b2, w2) := bw_Write (firstn j p) b1 w1 in
           match werr with
           | Some e => Done (n, Some e) (set_io b2 w2 c)
           | None =>
               let r := mask key (skipn i (bw_buf b2)) in
               let b3 := mkBw (firstn i (bw_buf b2) ++ snd r)
                              (bw_size b2) (bw_err b2) in
               writeFramePayload_loop fuel (fst r) (skipn j p) (n + j)%nat
                 (set_io b3 w2 c)
           end
       end) by (subst p; reflexivity).
    assert (F : exists ferr b1 w1,
      (if (bw_Available (bw c) =? 0)%nat
       then bw_Flush (bw c) (rwc c) else (None, bw c, rwc c)) = (ferr, b1, w1) /\
      (ferr <> None -> bw_err b1 <> None)).
    { destruct (bw_Available (bw c) =? 0)%nat.
      - pose proof (bw_Flush_spec (bw c) (rwc c)) as F.
        destruct (bw_Flush (bw c) (rwc c)) as [[ferr b1] w1].
        destruct F as (_ & Ferr & _).
        exists ferr, b1, w1. split; [reflexivity|]. congruence.
      - exists None, (bw c), (rwc c). split; [reflexivity|]. congruence. }
    destruct F as (ferr & b1 & w1 & -> & F1).
    destruct ferr as [e|].
    { intros H _; inversion H; subst. cbn [bw set_io]. apply F1. discriminate. }
    cbv zeta.
    set (j := if (bw_Available b1 <? length p)%nat then bw_Available b1 else length p).
    pose proof (bw_Write_spec (firstn j p) b1 w1) as W.
    destruct (bw_Write (firstn j p) b1 w1) as [[[m werr] b2] w2].
    destruct W as (_ & Werr & _).
    destruct werr as [e|].
    { intros H _; inversion H; subst. cbn [bw set_io]. congruence. }
    apply IH.
Qed.

Lemma writeFramePayload_err (p : list Z) (c : Conn) (r : nat * option error) (c' : Conn) :
  writeFramePayload p c = Done r c' -> snd r <> None -> bw_err (bw c') <> None.
Proof.
  unfold writeFramePayload.
  destruct (h_masked (writeHeader c)); cbn [negb].
  - destruct (writeFramePayload_loop _ _ _ _ _) as [r1 c1|] eqn:L; [|discriminate].
    intros H Hr; inversion H; subst; clear H. cbn [snd] in Hr.
    eapply writeFramePayload_loop_err; [exact L|].
    destruct (snd r1); [discriminate|]. exact Hr.
  - pose proof (bw_Write_spec p (bw c) (rwc c)) as W.
    destruct (bw_Write p (bw c) (rwc c)) as [[[n err] b] w].
    destruct W as (_ & Werr & _).
    destruct err as [e|]; intros H Hr; inversion H; subst; clear H;
      cbn [snd bw set_io errd_Wrap] in Hr |- *; congruence.
Qed.

(** An error of [stage] leaves the sticky error of the buffered writer
    set. *)
Lemma stage_err (p : list Z) (c1 : Conn) (r : nat * option error) (c2 : Conn) :
  stage p c1 = Done r c2 -> closed c1 = None -> snd r <> None ->
  bw_err (bw c2) <> None.
Proof.
  unfold stage, bind, get, ret, modify, select_closed_or_send, writeFrameHeader.
  intros H Ecl Hr.
  pose proof (bw_Write_spec (encodeHeader (writeHeader c1)) (bw c1) (rwc c1)) as W.
  destruct (bw_Write (encodeHeader (writeHeader c1)) (bw c1) (rwc c1))
    as [[[hn herr] hb] hw].
  destruct W as (_ & Werr & _).
  destruct herr as [e|]; cbn [errd_Wrap] in H.
  { inversion H; subst; clear H. cbn [bw set_io]. congruence. }
  destruct (writeFramePayload p (set_io hb hw c1)) as [pr c3|] eqn:P; [|discriminate].
  pose proof (writeFramePayload_err _ _ _ _ P) as Perr.
  pose proof (writeFramePayload_spec p (set_io hb hw c1)) as PS. rewrite P in PS.
  destruct PS as (b & w & -> & _).
  destruct (snd pr) as [e|] eqn:Epr.
  { inversion H; subst; clear H. apply Perr. discriminate. }
  cbn [writeHeader set_io set_emitted emitted bw rwc closed] in H.
  destruct (h_fin (writeHeader c1)).
  - cbv beta in H. cbn [bw rwc set_io set_emitted] in H.
    pose proof (bw_Flush_spec b w) as F. revert H.
    destruct (bw_Flush b w) as [[ferr fb] fw]. intros H.
    destruct F as (_ & Ferr & _).
    destruct ferr as [e|].
    + inversion H; subst; clear H. cbn [bw set_io]. congruence.
    + cbn [closed set_io set_emitted] in H. rewrite Ecl in H.
      inversion H; subst; clear H. cbn in Hr. congruence.
  - cbn [closed set_io set_emitted] in H. rewrite Ecl in H.
    inversion H; subst; clear H. cbn in Hr. congruence.
Qed.

Lemma stage_sticky (p : list Z) (c1 : Conn) (r : nat * option error) (c2 : Conn) :
  bw_err (bw c1) <> None -> stage p c1 = Done r c2 ->
  snd r <> None /\ emitted c2 = emitted c1.
Proof.
  unfold stage, bind, get, ret, writeFrameHeader. intros Hb.
  pose proof (bw_Write_spec (encodeHeader (writeHeader c1)) (bw c1) (rwc c1)) as W.
  destruct (bw_Write (encodeHeader (writeHeader c1)) (bw c1) (rwc c1))
    as [[[hn herr] hb] hw].
  destruct W as ((_ & _ & WK & _) & Werr & _).
  destruct herr as [e|]; cbn [errd_Wrap].
  - intros H; inversion H; subst; clear H. split; [discriminate|reflexivity].
  - exfalso. apply Hb. apply WK. exact Werr.
Qed.

(** A frame write that returns an error leaves the connection dead for
    its context. *)
Lemma writeFrame_err_dead ctx fin flate op p c r c' :
  writeFrame ctx fin flate op p c = Done r c' -> snd r <> None -> dead ctx c'.
Proof.
  unfold writeFrame.
  destruct (mu_Lock (closed c) ctx (writeFrameMu c)) eqn:L; try discriminate.
  2:{ intros H _; inversion H as [[Hr Hc]]; rewrite <- Hc; clear H Hr Hc.
      unfold mu_Lock in L.
      destruct (closed c) eqn:Ecl; [left; rewrite Ecl; discriminate|].
      destruct (ctxErr ctx) eqn:Ectx; [right; left; rewrite Ectx; discriminate|].
      destruct (writeFrameMu c); discriminate. }
  unfold mu_Lock in L.
  destruct (closed c) as [ce|] eqn:Ecl; [discriminate|].
  destruct (ctxErr ctx) eqn:Ectx; [discriminate|].
  destruct (writeFrameMu c) eqn:Emu; [discriminate|]. clear L.
  unfold bind at 1.
  destruct (client c && isNil (readUint32LE (randReader c))) eqn:Ekey.
  - apply andb_prop in Ekey. destruct Ekey as [Ecli Erd].
    assert (Erd' : readUint32LE (randReader c) = None)
      by (destruct (readUint32LE (randReader c)); [discriminate|reflexivity]).
    destruct (writeFrame_locked_nokey ctx fin flate op p c Ecl Ecli Erd')
      as (c1 & -> & K & _ & _ & _ & Hrand).
    unfold bind, modify, ret. intros H _; inversion H; subst; clear H.
    right. right. right. cbn [client randReader set_writeFrameMu].
    destruct K as (K1 & _). cbn [client set_writeFrameMu] in K1.
    rewrite K1, Hrand. split; [exact Ecli|reflexivity].
  - rewrite writeFrame_locked_stage; [|exact Ecl|].
    2:{ intros Ecli. rewrite Ecli in Ekey. cbn in Ekey.
        destruct (readUint32LE (randReader c)); [discriminate|discriminate]. }
    destruct (stage p (prepared ctx (frameHeader c fin flate op p) c))
      as [r1 c2|] eqn:S; [|discriminate].
    unfold bind, modify, ret. intros H Hr; inversion H; subst; clear H.
    right. right. left. cbn [bw set_writeFrameMu].
    eapply stage_err; [exact S|exact Ecl|exact Hr].
Qed.

(** On a dead connection a frame write fails and emits nothing. *)
Lemma writeFrame_dead ctx fin flate op p c r c' :
  dead ctx c -> writeFrame ctx fin flate op p c = Done r c' ->
  snd r <> None /\ emitted c' = emitted c.
Proof.
  intros D. unfold writeFrame.
  destruct (mu_Lock (closed c) ctx (writeFrameMu c)) eqn:L; try discriminate.
  2:{ intros H; inversion H; subst; clear H. split; [discriminate|reflexivity]. }
  unfold mu_Lock in L.
  destruct (closed c) as [ce|] eqn:Ecl; [discriminate|].
  destruct (ctxErr ctx) eqn:Ectx; [discriminate|].
  destruct (writeFrameMu c) eqn:Emu; [discriminate|]. clear L.
  unfold bind at 1.
  destruct (client c && isNil (readUint32LE (randReader c))) eqn:Ekey.
  - apply andb_prop in Ekey. destruct Ekey as [Ecli Erd].
    assert (Erd' : readUint32LE (randReader c) = None)
      by (destruct (readUint32LE (randReader c)); [discriminate|reflexivity]).
    destruct (writeFrame_locked_nokey ctx fin flate op p c Ecl Ecli Erd')
      as (c1 & -> & _ & Hem & _).
    unfold bind, modify, ret. intros H; inversion H; subst; clear H.
    split; [discriminate|exact Hem].
  - assert (Hb : bw_err (bw c) <> None).
    { destruct D as [D|[D|[D|[D1 D2]]]]; try congruence.
      rewrite D1, D2 in Ekey. discriminate. }
    rewrite writeFrame_locked_stage; [|exact Ecl|].
    2:{ intros Ecli. rewrite Ecli in Ekey. cbn in Ekey.
        destruct (readUint32LE (randReader c)); [discriminate|discriminate]. }
    destruct (stage p (prepared ctx (frameHeader c fin flate op p) c))
      as [r1 c2|] eqn:S; [|discriminate].
    unfold bind, modify, ret. intros H; inversion H; subst; clear H.
    apply stage_sticky in S; [|exact Hb]. exact S.
Qed.

Lemma mute_bind {A B : Type} (m : M A) (k : A -> M B) (c : Conn) :
  mute_at m c ->
  (forall x c1, m c = Done x c1 -> mute_at (k x) c1) ->
  mute_at (bind m k) c.
Proof.
  intros Hm Hk S r c'. unfold bind.
  destruct (m c) as [x c1|] eqn:E; [|discriminate].
  destruct (Hm S x c1 E) as [E1 S1]. intros H.
  destruct (Hk x c1 eq_refl S1 r c' H) as [E2 S2].
  split; [congruence|exact S2].
Qed.

Lemma mute_ret {A : Type} (a : A) (c : Conn) : mute_at (ret a) c.
Proof. intros S r c' H. inversion H; subst. auto. Qed.

Lemma mute_halts {A : Type} (why : halt) (c : Conn) : mute_at (@halts A why) c.
Proof. intros S r c' H. discriminate. Qed.

Lemma mute_get_bind {B : Type} (k : Conn -> M B) (c : Conn) :
  mute_at (k c) c -> mute_at (bind get k) c.
Proof. intros H. exact H. Qed.

Lemma mute_modify_mw (f : msgWriter -> msgWriter) (c : Conn) :
  mw_ctx (f (mw c)) = mw_ctx (mw c) -> mute_at (modify_mw f) c.
Proof.
  intros Hf S r c' H. inversion H; subst; clear H. split; [reflexivity|].
  unfold stuck, dead in S |- *. cbn. rewrite Hf. exact S.
Qed.

Lemma mute_writeFrame fin flate op p (c : Conn) :
  mute_at (writeFrame (mw_ctx (mw c)) fin flate op p) c.
Proof.
  intros S r c' H.
  destruct (writeFrame_dead _ _ _ _ _ _ _ _ S H) as [Hr Hem].
  split; [exact Hem|].
  pose proof (writeFrame_err_dead _ _ _ _ _ _ _ _ H Hr) as D.
  apply writeFrame_spec in H. destruct H as ((_ & _ & _ & _ & _ & _ & Kmw & _) & _).
  unfold stuck. rewrite Kmw. exact D.
Qed.

Lemma mute_msgWriter_write (p : list Z) (c : Conn) : mute_at (msgWriter_write p) c.
Proof.
  unfold msgWriter_write. apply mute_get_bind. apply mute_bind.
  - apply mute_writeFrame.
  - intros r c1 _. destruct (snd r); [apply mute_ret|].
    apply mute_bind; [apply mute_modify_mw; reflexivity|].
    intros; apply mute_ret.
Qed.

Lemma mute_trimWriter_Write (b : list Z) (c : Conn) : mute_at (trimWriter_Write b) c.
Proof.
  unfold trimWriter_Write. apply mute_get_bind.
  destruct (mw_trimWriter (mw c)) as [tw|]; [|apply mute_halts].
  cbv zeta. destruct (length (tw_tail tw ++ b) - 4 =? 0)%nat.
  - apply mute_bind; [apply mute_modify_mw; reflexivity|]. intros; apply mute_ret.
  - apply mute_bind; [apply mute_msgWriter_write|].
    intros r c1 _. destruct (snd r); [apply mute_ret|].
    apply mute_bind; [apply mute_modify_mw; reflexivity|]. intros; apply mute_ret.
Qed.

Lemma mute_writeBlocks (blocks : list (list Z)) : forall c, mute_at (writeBlocks blocks) c.
Proof.
  induction blocks as [|b rest IH]; intros c; cbn [writeBlocks].
  - apply mute_ret.
  - apply mute_bind; [apply mute_trimWriter_Write|].
    intros r c1 _. destruct (snd r); [apply mute_ret|apply IH].
Qed.

Lemma mute_with_writeMu {A : Type} (body : M A) (c : Conn) :
  (forall c1, mute_at body c1) -> mute_at (with_writeMu body) c.
Proof.
  intros Hb. unfold with_writeMu. apply mute_get_bind.
  destruct (mw_writeMu (mw c)); [apply mute_halts|].
  apply mute_bind; [apply mute_modify_mw; reflexivity|]. intros _ c1 _.
  apply mute_bind; [apply Hb|]. intros r c2 _.
  apply mute_bind; [apply mute_modify_mw; reflexivity|]. intros; apply mute_ret.
Qed.

Lemma mute_msgWriter_Write (p : list Z) (c : Conn) : mute_at (msgWriter_Write p) c.
Proof.
  unfold msgWriter_Write. apply mute_bind; [|intros; apply mute_ret].
  apply mute_with_writeMu. intros c1.
  unfold msgWriter_Write_locked. apply mute_get_bind.
  destruct (mw_closed (mw c1)); [apply mute_ret|].
  apply mute_bind.
  { destruct (activates c1 p); [|apply mute_ret].
    unfold ensureFlate. apply mute_modify_mw.
    destruct (mw_trimWriter (mw c1)); reflexivity. }
  intros _ c2 _. apply mute_get_bind.
  destruct (mw_flate (mw c2)); [|apply mute_msgWriter_write].
  apply mute_bind; [apply mute_writeBlocks|]. intros err c3 _.
  apply mute_bind; [apply mute_modify_mw; reflexivity|]. intros; apply mute_ret.
Qed.

Lemma mute_msgWriter_Close (c : Conn) : mute_at msgWriter_Close c.
Proof.
  unfold msgWriter_Close. apply mute_bind; [|intros; apply mute_ret].
  apply mute_with_writeMu. intros c1.
  unfold msgWriter_Close_locked. apply mute_get_bind.
  destruct (mw_closed (mw c1)); [apply mute_ret|].
  apply mute_bind.
  { destruct (mw_flate (mw c1)); [apply mute_writeBlocks|apply mute_ret]. }
  intros err c2 _. destruct err; [apply mute_ret|].
  apply mute_bind; [apply mute_modify_mw; reflexivity|]. intros _ c3 _.
  apply mute_get_bind. apply mute_bind; [apply mute_writeFrame|].
  intros r c4 _. destruct (snd r); [apply mute_ret|].
  apply mute_get_bind. apply mute_bind.
  { destruct (mw_flate (mw c4) && negb (flateContextTakeover c4));
      [apply mute_modify_mw; reflexivity|apply mute_ret]. }
  intros _ c5 _. apply mute_bind; [apply mute_modify_mw; reflexivity|].
  intros; apply mute_ret.
Qed.

Lemma mute_run_op (o : writerOp) (c : Conn) : mute_at (run_op o) c.
Proof.
  destruct o as [p|]; cbn [run_op]; [|apply mute_msgWriter_Close].
  apply mute_bind; [apply mute_msgWriter_Write|]. intros; apply mute_ret.
Qed.

(** Once the connection is stuck, no call on the writer emits a frame. *)
Lemma mute_run_ops (ops : list writerOp) : forall c, mute_at (run_ops ops) c.
Proof.
  induction ops as [|o ops IH]; intros c; cbn [run_ops]; [apply mute_ret|].
  apply mute_bind; [apply mute_run_op|]. intros e c1 _.
  apply mute_bind; [apply IH|]. intros; apply mute_ret.
Qed.

(** ** Activation of compression; opcode and RSV1 along a message *)

Lemma cont_frames_no_rsv1 (fs : list frame) :
  Forall cont_frame fs -> Forall (fun f => h_rsv1 (fst f) = false) fs.
Proof. apply Forall_impl. intros f [_ H]. exact H. Qed.

Lemma run_op_plain (c0 : Conn) (o : writerOp) (c : Conn) (e : option error) (c' : Conn) :
  plain_inv c0 c -> run_op o c = Done e c' -> plain_inv c0 c'.
Proof.
  intros Inv H. destruct (mw_closed (mw c)) eqn:Hc.
  - rewrite (run_op_closed _ _ _ _ Hc H). exact Inv.
  - destruct Inv as (Hfl & [Hop|Hcl] & fs0 & E0 & F0); [|congruence].
    destruct (run_op_open _ _ _ _ Hc H) as (Hfl' & fs & C & Hem).
    assert (Ha : match o with OpWrite p => activates c p | OpClose => false end = false).
    { destruct o as [p|]; [|reflexivity]. unfold activates. rewrite Hop. cbn.
      rewrite andb_false_r. reflexivity. }
    rewrite Ha, Hfl in Hfl'. cbn in Hfl'. rewrite Hfl', Hop in C.
    destruct (chain_cont _ _ _ C) as [Ho HF].
    split; [exact Hfl'|].
    split; [left; exact Ho|].
    destruct Hem as [E|(_ & h & E & _ & _ & Hrsv)].
    + exists (fs0 ++ fs). split; [rewrite E, E0, app_assoc; reflexivity|].
      apply Forall_app. split; [exact F0|apply cont_frames_no_rsv1; exact HF].
    + exists (fs0 ++ fs ++ [(h, [])]).
      split; [rewrite E, E0, !app_assoc; reflexivity|].
      apply Forall_app. split; [exact F0|].
      apply Forall_app. split; [apply cont_frames_no_rsv1; exact HF|].
      constructor; [|constructor]. cbn [fst]. rewrite Hrsv, Hfl'. reflexivity.
Qed.

Lemma run_ops_plain (c0 : Conn) (ops : list writerOp) :
  forall c rs c', plain_inv c0 c -> run_ops ops c = Done rs c' -> plain_inv c0 c'.
Proof.
  induction ops as [|o ops IH]; intros c rs c' Inv H; cbn [run_ops] in H.
  - unfold ret in H. inversion H; subst. exact Inv.
  - unfold bind at 1 in H. destruct (run_op o c) as [e c1|] eqn:R; [|discriminate].
    unfold bind at 1 in H. destruct (run_ops ops c1) as [es c2|] eqn:Rs; [|discriminate].
    unfold ret in H. inversion H; subst.
    eapply IH; [|exact Rs]. eapply run_op_plain; eassumption.
Qed.

(** A write that does not compress is [msgWriter.write] under [writeMu]. *)
Lemma msgWriter_Write_plain_eq (p : list Z) (c : Conn) :
  mw_closed (mw c) = false -> mw_writeMu (mw c) = false ->
  mw_flate (mw c) = false -> activates c p = false ->
  msgWriter_Write p c =
  match msgWriter_write p (set_mw (set_writeMu true (mw c)) c) with
  | Done r c1 =>
      Done (fst r, errd_Wrap "failed to write" (snd r))
           (set_mw (set_writeMu false (mw c1)) c1)
  | Halts why => Halts why
  end.
Proof.
  intros Hopen Hm Hfl Hact.
  unfold msgWriter_Write, bind. rewrite with_writeMu_free by exact Hm.
  set (c0 := set_mw (set_writeMu true (mw c)) c).
  unfold msgWriter_Write_locked, bind, get.
  replace (mw_closed (mw c0)) with false by (cbn; auto).
  replace (activates c0 p) with false by (symmetry; exact Hact).
  unfold ret at 1. replace (mw_flate (mw c0)) with false by (cbn; auto).
  destruct (msgWriter_write p c0); reflexivity.
Qed.

(** A failed [msgWriter.write] has emitted nothing and leaves the
    connection stuck. *)
Lemma msgWriter_write_err_stuck (p : list Z) (c : Conn) (r : nat * option error)
    (c' : Conn) :
  msgWriter_write p c = Done r c' -> snd r <> None ->
  stuck c' /\ emitted c' = emitted c.
Proof.
  intros H Hr. split.
  - revert H. unfold msgWriter_write, bind, get.
    destruct (writeFrame (mw_ctx (mw c)) false (mw_flate (mw c)) (mw_opcode (mw c)) p c)
      as [r1 c1|] eqn:W; [|discriminate].
    destruct (snd r1) as [e|] eqn:Er1; unfold ret, modify_mw; intros H;
      inversion H; subst; clear H; [|cbn in Hr; congruence].
    assert (D : dead (mw_ctx (mw c)) c').
    { eapply writeFrame_err_dead; [exact W|]. rewrite Er1. discriminate. }
    apply writeFrame_spec in W.
    destruct W as ((_ & _ & _ & _ & _ & _ & Kmw & _) & _).
    unfold stuck. rewrite Kmw. exact D.
  - apply msgWriter_write_spec in H.
    destruct H as (_ & [(_ & _ & Hem)|(-> & _)]); [exact Hem|].
    cbn in Hr. congruence.
Qed.

(** C2.  On an open writer, a [Write] turns compression on exactly when
    compression was negotiated, the writer's opcode is not continuation
    and the input is at least [flateThreshold] long; otherwise the flag
    stays as it is.  Turning it on sets the flag, leaves a trim writer
    attached and a window in place (a new, empty one of capacity 8192
    when there was none, into which this input then goes).  And after a
    write that does not turn it on, the message is never compressed: when
    that write has emitted its frame the opcode is continuation and no
    later call on this writer sets the flag; and whatever that write
    returned, no frame the writer emits from then on carries RSV1 (a
    write that fails leaves the connection unable to emit at all). *)
Theorem C2_flate_activation
    (c : Conn) (p : list Z) (r : nat * option error) (c' : Conn)
    (Hopen : mw_closed (mw c) = false)
    (Hrun : msgWriter_Write p c = Done r c') :
  mw_flate (mw c') = mw_flate (mw c) || activates c p /\
  (activates c p = true <->
   flateEnabled c = true /\ mw_opcode (mw c) <> opContinuation /\
   flateThreshold c <= len p) /\
  (activates c p = true ->
   mw_flate (mw c') = true /\ isNil (mw_trimWriter (mw c')) = false /\
   mw_dict (mw c') = sw_write p (sw_init 8192 (mw_dict (mw c))) /\
   (mw_dict (mw c) = None ->
    mw_dict (mw c') = Some (mkWindow 8192 (lastn (Z.to_nat 8192) p)))) /\
  (mw_flate (mw c) = false -> activates c p = false ->
   (snd r = None ->
    mw_opcode (mw c') = opContinuation /\
    forall ops rs c2, run_ops ops c' = Done rs c2 -> mw_flate (mw c2) = false) /\
   (snd r <> None ->
    forall ops rs c2, run_ops ops c' = Done rs c2 -> emitted c2 = emitted c) /\
   (forall ops rs c2,
      run_ops ops c' = Done rs c2 ->
      exists fs, emitted c2 = emitted c ++ fs /\
                 Forall (fun f => h_rsv1 (fst f) = false) fs)).
Proof.
  destruct (msgWriter_Write_open _ _ _ _ Hopen Hrun)
    as [_ _ [Hm _] _ Hcl' Hfl Hdict Htrim _].
  split; [exact Hfl|].
  split.
  { unfold activates. split.
    - intros H. apply andb_prop in H. destruct H as [H H3].
      apply andb_prop in H. destruct H as [H1 H2].
      split; [exact H1|]. split; [|apply Z.leb_le; exact H3].
      intros E. rewrite E in H2. discriminate.
    - intros (H1 & H2 & H3). rewrite H1.
      replace (flateThreshold c <=? len p) with true
        by (symmetry; apply Z.leb_le; exact H3).
      destruct (mw_opcode (mw c)); try reflexivity. congruence. }
  split.
  { intros Ha. rewrite Ha in Hfl, Hdict, Htrim. rewrite orb_true_r in Hfl.
    rewrite Hfl in Hdict.
    split; [exact Hfl|]. split; [exact Htrim|]. split; [exact Hdict|].
    intros Hnone. rewrite Hdict, Hnone. reflexivity. }
  intros Hfl0 Ha.
  rewrite msgWriter_Write_plain_eq in Hrun by assumption.
  destruct (msgWriter_write p (set_mw (set_writeMu true (mw c)) c)) as [r1 c1|] eqn:W;
    [|discriminate].
  inversion Hrun; subst; clear Hrun. cbn [snd].
  assert (Hok : snd r1 = None ->
                mw_opcode (mw c1) = opContinuation /\
                plain_inv c (set_mw (set_writeMu false (mw c1)) c1)).
  { intros Er1. pose proof (msgWriter_write_spec _ _ _ _ W) as S.
    destruct S as (_ & [(Hne & _)|(_ & Hmw & Hem & _)]); [congruence|].
    cbn [mw set_mw emitted mw_flate mw_opcode set_writeMu] in Hem.
    rewrite Hfl0 in Hem.
    split; [rewrite Hmw; reflexivity|].
    split; [cbn; rewrite Hmw; cbn; exact Hfl0|].
    split; [left; cbn; rewrite Hmw; reflexivity|].
    eexists. split; [exact Hem|]. constructor; [reflexivity|constructor]. }
  assert (Herr : snd r1 <> None ->
                 forall ops rs c2,
                   run_ops ops (set_mw (set_writeMu false (mw c1)) c1) = Done rs c2 ->
                   emitted c2 = emitted c).
  { intros Er1 ops rs c2 Hops.
    destruct (msgWriter_write_err_stuck _ _ _ _ W Er1) as [St Hem].
    cbn [emitted set_mw] in Hem.
    assert (St' : stuck (set_mw (set_writeMu false (mw c1)) c1)).
    { unfold stuck, dead in St |- *. cbn. exact St. }
    destruct (mute_run_ops ops _ St' rs c2 Hops) as [E _].
    rewrite E. cbn [emitted set_mw]. exact Hem. }
  split; [|split].
  - intros Er1. assert (Er1' : snd r1 = None) by (destruct (snd r1); [discriminate|reflexivity]).
    destruct (Hok Er1') as [Hop Inv].
    split; [exact Hop|].
    intros ops rs c2 Hops.
    destruct (run_ops_plain _ _ _ _ _ Inv Hops) as (H1 & _). exact H1.
  - intros Er1. apply Herr. destruct (snd r1); [discriminate|]. exact Er1.
  - intros ops rs c2 Hops. destruct (snd r1) as [e|] eqn:Er1.
    + exists []. rewrite app_nil_r. split; [|constructor].
      eapply Herr; [discriminate|exact Hops].
    + destruct (Hok eq_refl) as [_ Inv].
      destruct (run_ops_plain _ _ _ _ _ Inv Hops) as (_ & _ & H3). exact H3.
Qed.

(** C3, as the code has it.  A frame that [msgWriter.write] emits carries
    the writer's opcode and leaves the opcode at continuation; the final
    frame that [Close] emits leaves the field alone.  Along a message,
    from [Writer] through any calls of [Write] and [Close]: while the
    writer is open and a frame is out, the opcode is continuation; the
    first frame carries the message type and RSV1 exactly when the
    message is compressed; every later frame is a continuation frame
    without RSV1. *)
Theorem C3_opcode_and_rsv1_along_a_message
    (ctx : context) (typ : MessageType) (c0 c1 : Conn)
    (ops : list writerOp) (rs : list (option error)) (c : Conn)
    (Hbegin : Conn_Writer ctx typ c0 = Done None c1)
    (Hrun : run_ops ops c1 = Done rs c) :
  (forall p s r s',
     msgWriter_write p s = Done r s' -> snd r = None ->
     mw_opcode (mw s') = opContinuation /\
     exists h, emitted s' = emitted s ++ [(h, p)] /\
               h_fin h = false /\ h_opcode h = mw_opcode (mw s) /\
               h_rsv1 h = mw_flate (mw s) && isData (mw_opcode (mw s))) /\
  exists fs,
    emitted c = emitted c0 ++ fs /\
    (mw_closed (mw c) = false -> fs <> [] -> mw_opcode (mw c) = opContinuation) /\
    match fs with
    | [] => True
    | f :: rest =>
        h_opcode (fst f) = opcode_of typ /\
        h_rsv1 (fst f) = mw_flate (mw c) /\
        Forall cont_frame rest
    end.
Proof.
  split.
  - intros p s r s' W Hr. apply msgWriter_write_spec in W.
    destruct W as (_ & [(Hne & _)|(_ & Hmw & Hem & _)]); [congruence|].
    split; [rewrite Hmw; reflexivity|].
    eexists. split; [exact Hem|]. cbn. auto.
  - apply trace_inv_frames; [apply isData_opcode_of|].
    eapply run_ops_trace; [|exact Hrun].
    rewrite (Conn_Writer_ok_state _ _ _ _ Hbegin).
    exists []. cbn [mw set_mw reset_mw mw_flate mw_opcode emitted].
    split; [apply chain_nil|]. left. rewrite app_nil_r. reflexivity.
Qed.

(** ** Beginning a message; the ownership lock *)

(** X2.  [Writer] returns an error exactly when the acquisition of the
    ownership lock does; the error is that of the lock wrapped once and
    the connection is exactly as it was.  The one-shot [Write] then fails
    with the same error under its own wrapper, not under both, and leaves
    the connection as it was too. *)
Theorem X2_failed_begin_changes_nothing
    (ctx : context) (typ : MessageType) (p : list Z) (c : Conn) :
  (forall e' c',
     Conn_Writer ctx typ c = Done (Some e') c' <->
     exists e, mu_Lock (closed c) ctx (mw_mu (mw c)) = LockFailed e /\
               e' = errWrap "failed to get writer" e /\ c' = c) /\
  (forall e, mu_Lock (closed c) ctx (mw_mu (mw c)) = LockFailed e ->
     Conn_Write ctx typ p c = Done (Some (errWrap "failed to write msg" e)) c).
Proof.
  split.
  - intros e' c'. unfold Conn_Writer, Conn_writer, msgWriter_reset, bind, get.
    destruct (mu_Lock (closed c) ctx (mw_mu (mw c))) as [|e|] eqn:L.
    + unfold modify_mw, ret. cbn [errd_Wrap]. split; [discriminate|].
      intros (e & H & _). discriminate.
    + unfold ret. cbn [errd_Wrap]. split.
      * intros H. inversion H; subst. exists e. auto.
      * intros (e0 & H & -> & ->). inversion H; subst. reflexivity.
    + unfold halts. split; [discriminate|]. intros (e & H & _). discriminate.
  - intros e L. unfold Conn_Write, Conn_write, Conn_writer, msgWriter_reset, bind, get.
    rewrite L. reflexivity.
Qed.

(** X1.  Between two messages.  After a [Close] that has succeeded, a
    [Writer] that succeeds starts the next message with compression off,
    the writer open, the new type as opcode, the new context, the
    ownership lock held and nothing withheld in the trim writer.  The
    window of the message before is still there unless that message was
    compressed and the negotiated option forbids this side to reuse its
    dictionary.  [Writer] itself emits no frame. *)
Theorem X1_state_between_messages
    (ctx : context) (typ : MessageType) (c c1 c2 : Conn)
    (Hclose : msgWriter_Close c = Done None c1)
    (Hbegin : Conn_Writer ctx typ c1 = Done None c2) :
  mw_flate (mw c2) = false /\ mw_closed (mw c2) = false /\
  mw_opcode (mw c2) = opcode_of typ /\ mw_ctx (mw c2) = ctx /\
  mw_mu (mw c2) = true /\
  match mw_trimWriter (mw c2) with
  | Some tw => tw_tail tw = []
  | None => mw_trimWriter (mw c) = None
  end /\
  mw_dict (mw c2) =
    (if mw_flate (mw c) && noContextTakeover c then None else mw_dict (mw c)) /\
  emitted c2 = emitted c1 /\ output c2 = output c1.
Proof.
  rewrite (Conn_Writer_ok_state _ _ _ _ Hbegin).
  cbn [mw set_mw reset_mw mw_flate mw_closed mw_opcode mw_ctx mw_mu mw_trimWriter
       mw_dict emitted].
  do 5 (split; [reflexivity|]).
  assert (Hopen : mw_closed (mw c) = false).
  { destruct (mw_closed (mw c)) eqn:E; [|reflexivity]. exfalso.
    destruct (mw_writeMu (mw c)) eqn:Hm.
    - unfold msgWriter_Close, bind in Hclose.
      rewrite with_writeMu_held in Hclose by exact Hm. discriminate.
    - rewrite msgWriter_Close_closed in Hclose by assumption. discriminate. }
  destruct (msgWriter_Close_open _ _ _ Hopen Hclose) as (_ & ferr & s1 & _ & W & Hrest).
  destruct W as (_ & (_ & _ & _ & _ & W5 & W6 & W7) & _).
  cbn [mw set_mw mw_flate mw_dict mw_trimWriter set_writeMu] in W5, W6, W7.
  destruct ferr as [e|]; [destruct Hrest; discriminate|].
  destruct Hrest as (fr & s2 & F & Hrest).
  destruct (snd fr) as [e|]; [destruct Hrest; discriminate|].
  destruct Hrest as [_ ->].
  apply writeFrame_spec in F.
  destruct F as ((_ & _ & _ & _ & _ & _ & Kmw & _) & _). cbn [mw set_mw] in Kmw.
  rewrite noContextTakeover_spec.
  assert (Ht : mw_trimWriter
                 (if mw_flate (mw c) && noContextTakeover c
                  then set_dict None (mw s2) else mw s2) = mw_trimWriter (mw s1)).
  { destruct (mw_flate (mw c) && noContextTakeover c); rewrite Kmw; reflexivity. }
  assert (Hd : mw_dict
                 (if mw_flate (mw c) && noContextTakeover c
                  then set_dict None (mw s2) else mw s2) =
               if mw_flate (mw c) && noContextTakeover c then None else mw_dict (mw c)).
  { destruct (mw_flate (mw c) && noContextTakeover c); rewrite Kmw; cbn; congruence. }
  cbn [mw set_mw mw_trimWriter mw_dict set_writeMu set_mu emitted].
  split.
  { rewrite Ht. revert W7.
    destruct (mw_trimWriter (mw s1)); [reflexivity|].
    destruct (mw_trimWriter (mw c)); [discriminate|reflexivity]. }
  split; [exact Hd|]. split; reflexivity.
Qed.

(** What one call does to the ownership lock and to the closed flag. *)
Lemma run_op_mu (o : writerOp) (c : Conn) (e : option error) (c1 : Conn) :
  run_op o c = Done e c1 ->
  (mw_closed (mw c) = true -> c1 = c /\ e <> None) /\
  (mw_closed (mw c) = false ->
     match o, e with
     | OpClose, None => mw_mu (mw c1) = false /\ mw_closed (mw c1) = true
     | _, _ => mw_mu (mw c1) = mw_mu (mw c)
     end).
Proof.
  intros H. split.
  - intros Hc. split; [eapply run_op_closed; eassumption|].
    destruct (mw_writeMu (mw c)) eqn:Hm.
    + exfalso. destruct o; cbn [run_op] in H.
      * unfold bind at 1, msgWriter_Write, bind in H.
        rewrite with_writeMu_held in H by exact Hm. discriminate.
      * unfold msgWriter_Close, bind in H.
        rewrite with_writeMu_held in H by exact Hm. discriminate.
    + destruct o; cbn [run_op] in H.
      * unfold bind in H. rewrite msgWriter_Write_closed in H by assumption.
        inversion H; subst. discriminate.
      * rewrite msgWriter_Close_closed in H by assumption.
        inversion H; subst. discriminate.
  - intros Hopen. destruct o as [p|]; cbn [run_op] in H.
    + unfold bind in H.
      destruct (msgWriter_Write p c) as [r c2|] eqn:W; [|discriminate].
      unfold ret in H. inversion H; subst; clear H.
      destruct (msgWriter_Write_open _ _ _ _ Hopen W) as [_ Hmu _ _ _ _ _ _ _].
      exact Hmu.
    + destruct (msgWriter_Close_open _ _ _ Hopen H) as (_ & ferr & s1 & _ & W & Hrest).
      destruct W as (_ & (W1 & _ & _ & _ & _) & _).
      cbn [mw set_mw mw_mu set_writeMu] in W1.
      destruct ferr as [e1|].
      { destruct Hrest as [-> ->]. cbn. exact W1. }
      destruct Hrest as (fr & s2 & F & Hrest).
      apply writeFrame_spec in F.
      destruct F as ((_ & _ & _ & _ & _ & _ & Kmw & _) & _). cbn [mw set_mw] in Kmw.
      destruct (snd fr) as [e2|].
      { destruct Hrest as [-> ->]. cbn. rewrite Kmw. cbn. exact W1. }
      destruct Hrest as [-> ->]. cbn [mw set_mw].
      destruct (mw_flate (mw c) && negb (flateContextTakeover c));
        cbn; rewrite Kmw; cbn; auto.
Qed.

Lemma run_ops_mu (ops : list writerOp) : forall c rs c',
  mw_mu (mw c) = true \/ mw_closed (mw c) = true ->
  run_ops ops c = Done rs c' ->
  length rs = length ops /\
  (mw_mu (mw c') = false <->
   mw_mu (mw c) = false \/ In (OpClose, None) (combine ops rs)).
Proof.
  induction ops as [|o ops IH]; intros c rs c' Q H; cbn [run_ops] in H.
  - unfold ret in H. inversion H; subst. split; [reflexivity|]. cbn.
    split; [auto|]. intros [E|[]]. exact E.
  - unfold bind at 1 in H. destruct (run_op o c) as [e c1|] eqn:R; [|discriminate].
    unfold bind at 1 in H. destruct (run_ops ops c1) as [es c2|] eqn:Rs; [|discriminate].
    unfold ret in H. inversion H; subst; clear H.
    destruct (run_op_mu _ _ _ _ R) as [Hcl Hop].
    destruct (mw_closed (mw c)) eqn:Ec.
    + destruct (Hcl eq_refl) as [-> He].
      destruct (IH c es c' (or_intror Ec) Rs) as [L I]. split; [cbn; congruence|].
      rewrite I. cbn [combine In]. split; [tauto|].
      intros [E|[E|E]]; auto. inversion E; subst. congruence.
    + destruct Q as [Q|Q]; [|discriminate]. specialize (Hop eq_refl).
      assert (Q1 : mw_mu (mw c1) = true \/ mw_closed (mw c1) = true).
      { destruct o; [left; congruence|]. destruct e; [left; congruence|].
        right. apply Hop. }
      destruct (IH c1 es c' Q1 Rs) as [L I]. split; [cbn; congruence|].
      rewrite I. cbn [combine In]. rewrite Q.
      destruct o as [p|].
      * split.
        -- intros [E|E]; [congruence|auto].
        -- intros [E|[E|E]]; [discriminate|discriminate|auto].
      * destruct e as [e|].
        -- split.
           ++ intros [E|E]; [congruence|auto].
           ++ intros [E|[E|E]]; [discriminate|discriminate|auto].
        -- split; [auto|]. intros _. left. apply Hop.
Qed.

(** X3.  The ownership lock taken by [Writer] stays held through every
    [Write] and every [Close] that fails; it is free again after the calls
    exactly when one of them was a [Close] that returned no error.  Each
    call returns one result. *)
Theorem X3_ownership_lock_held_until_close_succeeds
    (ops : list writerOp) (c : Conn) (rs : list (option error)) (c' : Conn)
    (Hheld : mw_mu (mw c) = true)
    (Hrun : run_ops ops c = Done rs c') :
  length rs = length ops /\
  (mw_mu (mw c') = false <-> In (OpClose, None) (combine ops rs)).
Proof.
  destruct (run_ops_mu ops c rs c' (or_introl Hheld) Hrun) as [L I].
  split; [exact L|]. rewrite I. rewrite Hheld. split; [|auto].
  intros [E|E]; [discriminate|exact E].
Qed.

(** ** More on one frame *)

(** X4.  A server never masks and never touches the random source: a
    frame write on a server connection leaves the mask flag and key of
    the header and the random source as they were, whatever it returns;
    and when the flag is off, a frame that goes out adds its header and
    the payload as it is to the output. *)
Theorem X4_server_frames_not_masked
    (ctx : context) (fin flate : bool) (op : opcode) (p : list Z)
    (c : Conn) (r : nat * option error) (c' : Conn)
    (Hserver : client c = false)
    (Hrun : writeFrame ctx fin flate op p c = Done r c') :
  randReader c' = randReader c /\
  h_masked (writeHeader c') = h_masked (writeHeader c) /\
  h_maskKey (writeHeader c') = h_maskKey (writeHeader c) /\
  (h_masked (writeHeader c) = false -> snd r = None ->
   exists h,
     emitted c' = emitted c ++ [(h, p)] /\ h_masked h = false /\
     h_payloadLength h = len p /\
     output c' = output c ++ encodeHeader h ++ p).
Proof.
  assert (Hfirst : randReader c' = randReader c /\
                   h_masked (writeHeader c') = h_masked (writeHeader c) /\
                   h_maskKey (writeHeader c') = h_maskKey (writeHeader c)).
  { revert Hrun. unfold writeFrame.
    destruct (mu_Lock (closed c) ctx (writeFrameMu c)) eqn:L; try discriminate.
    2:{ intros H; inversion H; subst. auto. }
    unfold mu_Lock in L.
    destruct (closed c) as [ce|] eqn:Ecl; [discriminate|].
    destruct (ctxErr ctx) eqn:Ectx; [discriminate|].
    destruct (writeFrameMu c) eqn:Emu; [discriminate|]. clear L.
    unfold bind at 1.
    rewrite writeFrame_locked_stage; [|exact Ecl|intros E; congruence].
    destruct (stage p (prepared ctx (frameHeader c fin flate op p) c))
      as [r1 c2|] eqn:S; [|discriminate].
    unfold bind, modify, ret. intros H; inversion H; subst; clear H.
    destruct (stage_spec _ _ _ _ S Ecl) as (_ & Hh & Hrd & _).
    cbn [prepared writeHeader set_randReader set_writeHeader randReader
         set_writeTimeout set_writeFrameMu] in Hh, Hrd |- *.
    rewrite Hh, Hrd. unfold frameHeader. rewrite Hserver. cbn. auto. }
  destruct Hfirst as (H1 & H2 & H3).
  split; [exact H1|]. split; [exact H2|]. split; [exact H3|].
  intros Hm Hr. destruct r as [n [e|]]; [discriminate|].
  apply writeFrame_spec in Hrun. destruct Hrun as (_ & _ & O).
  apply frame_outcome_ok in O. destruct O as (E1 & _ & _ & E4 & _).
  exists (frameHeader c fin flate op p).
  assert (Hh : h_masked (frameHeader c fin flate op p) = false).
  { unfold frameHeader. rewrite Hserver. exact Hm. }
  split; [exact E1|]. split; [exact Hh|]. split; [reflexivity|].
  rewrite E4. unfold payloadBytes. rewrite Hh. reflexivity.
Qed.

(** X5.  A final frame is flushed: when the write of a frame with FIN
    returns no error the buffered writer is empty, and everything staged
    before (the non-final frames of the message among it) has reached the
    byte stream, followed by the header and the payload of this frame. *)
Theorem X5_final_frame_is_flushed
    (ctx : context) (flate : bool) (op : opcode) (p : list Z)
    (c : Conn) (r : nat * option error) (c' : Conn)
    (Hrun : writeFrame ctx true flate op p c = Done r c')
    (Hok : snd r = None) :
  bw_buf (bw c') = [] /\
  sent (rwc c') =
    sent (rwc c) ++ bw_buf (bw c) ++ encodeHeader (writeHeader c')
                 ++ payloadBytes (writeHeader c') p.
Proof.
  destruct r as [n [e|]]; [discriminate|].
  apply writeFrame_spec in Hrun. destruct Hrun as (_ & _ & O).
  apply frame_outcome_ok in O. destruct O as (_ & _ & E3 & E4 & E5 & _).
  specialize (E5 eq_refl). split; [exact E5|].
  unfold output in E4. rewrite E5, app_nil_r in E4.
  rewrite E3, E4, <- app_assoc. reflexivity.
Qed.

(** The masked loop on a payload that fits in the free part of the
    buffer: one round, no flush. *)
Lemma writeFramePayload_loop_fits (key : Z) (p : list Z) (n : nat) (c : Conn) :
  bw_err (bw c) = None -> (length p <= bw_Available (bw c))%nat ->
  writeFramePayload_loop (length p) key p n c =
  Done ((n + length p)%nat, None)
       (set_io (mkBw (bw_buf (bw c) ++ snd (mask key p)) (bw_size (bw c)) None)
               (rwc c) c).
Proof.
  intros Hb Hfit. destruct p as [|x p'] eqn:Ep.
  - cbn [length writeFramePayload_loop mask snd]. unfold ret.
    rewrite Nat.add_0_r, app_nil_r. f_equal.
    destruct c as [? ? ? ? ? ? ? ? b ? ? ? ?]; destruct b; cbn in Hb |- *.
    rewrite Hb. reflexivity.
  - rewrite <- Ep in Hfit |- *.
    assert (Hlen : length p = S (length p')) by (subst p; reflexivity).
    rewrite Hlen at 1.
    replace (writeFramePayload_loop (S (length p')) key p n c) with
      (let '(ferr, b1, w1) :=
         if (bw_Available (bw c) =? 0)%nat
         then bw_Flush (bw c) (rwc c) else (None, bw c, rwc c) in
       match ferr with
       | Some e => Done (n, Some e) (set_io b1 w1 c)
       | None =>
           let i := bw_Buffered b1 in
           let j := if (bw_Available b1 <? length p)%nat
                    then bw_Available b1 else length p in
           let '(_, werr, b2, w2) := bw_Write (firstn j p) b1 w1 in
           match werr with
           | Some e => Done (n, Some e) (set_io b2 w2 c)
           | None =>
               let r := mask key (skipn i (bw_buf b2)) in
               let b3 := mkBw (firstn i (bw_buf b2) ++ snd r)
                              (bw_size b2) (bw_err b2) in
               writeFramePayload_loop (length p') (fst r) (skipn j p) (n + j)%nat
                 (set_io b3 w2 c)
           end
       end) by (subst p; reflexivity).
    replace (bw_Available (bw c) =? 0)%nat with false
      by (symmetry; apply Nat.eqb_neq; lia).
    cbv zeta.
    replace (bw_Available (bw c) <? length p)%nat with false
      by (symmetry; apply Nat.ltb_ge; exact Hfit).
    rewrite firstn_all, bw_Write_fits by assumption.
    cbn [bw_buf bw_size bw_err]. unfold bw_Buffered.
    rewrite skipn_app, skipn_all, Nat.sub_diag, firstn_app, firstn_all, Nat.sub_diag.
    cbn [skipn firstn app]. rewrite app_nil_r, skipn_all.
    destruct (length p'); reflexivity.
Qed.

Lemma writeFramePayload_fits (p : list Z) (c : Conn) :
  bw_err (bw c) = None -> (length p <= bw_Available (bw c))%nat ->
  writeFramePayload p c =
  Done (length p, None)
       (set_io (mkBw (bw_buf (bw c) ++ payloadBytes (writeHeader c) p)
                     (bw_size (bw c)) None) (rwc c) c).
Proof.
  intros Hb Hfit. unfold writeFramePayload, payloadBytes.
  destruct (h_masked (writeHeader c)); cbn [negb].
  - rewrite writeFramePayload_loop_fits by assumption. reflexivity.
  - rewrite bw_Write_fits by assumption. reflexivity.
Qed.

(** X6.  A non-final frame that fits in the free part of the buffer is
    only staged: the call succeeds, nothing is handed to the byte stream,
    and the buffer grows by the header and the payload.  The state of the
    byte stream plays no part: a stream that is already broken is noticed
    only by a later flush. *)
Theorem X6_non_final_frame_stays_in_buffer
    (ctx : context) (flate : bool) (op : opcode) (p : list Z) (c : Conn)
    (Hopen : closed c = None) (Hctx : ctxErr ctx = None)
    (Hfree : writeFrameMu c = false) (Herr : bw_err (bw c) = None)
    (Hrand : client c = true -> (4 <= length (randReader c))%nat)
    (Hfits : (length (encodeHeader (frameHeader c false flate op p)) + length p
              <= bw_Available (bw c))%nat) :
  exists c',
    writeFrame ctx false flate op p c = Done (length p, None) c' /\
    rwc c' = rwc c /\
    bw_buf (bw c') =
      bw_buf (bw c) ++ encodeHeader (frameHeader c false flate op p)
                    ++ payloadBytes (frameHeader c false flate op p) p.
Proof.
  set (h := frameHeader c false flate op p) in *.
  unfold writeFrame, mu_Lock. rewrite Hopen, Hctx, Hfree. unfold bind at 1.
  rewrite writeFrame_locked_stage;
    [|exact Hopen|intros E; apply readUint32LE_some; auto].
  fold h. set (c1 := prepared ctx h c).
  assert (B1 : bw c1 = bw c) by reflexivity.
  assert (R1 : rwc c1 = rwc c) by reflexivity.
  assert (H1 : writeHeader c1 = h) by reflexivity.
  assert (C1 : closed c1 = None) by (exact Hopen).
  unfold stage, bind, get, ret, writeFrameHeader. rewrite H1.
  rewrite bw_Write_fits by (rewrite B1; first [exact Herr|lia]).
  cbn [errd_Wrap]. rewrite B1, R1.
  set (c2 := set_io (mkBw (bw_buf (bw c) ++ encodeHeader h) (bw_size (bw c)) None)
                    (rwc c) c1).
  rewrite (writeFramePayload_fits p c2); [|reflexivity|].
  2:{ unfold bw_Available in Hfits |- *. cbn [c2 bw set_io bw_buf bw_size].
      rewrite length_app. lia. }
  cbn [snd fst]. unfold modify, select_closed_or_send.
  cbn [writeHeader set_io set_emitted c2 bw rwc closed bw_buf bw_size].
  rewrite H1. replace (h_fin h) with false by reflexivity.
  cbv beta. cbn [closed set_emitted set_io]. unfold c2. cbn [closed set_io].
  rewrite C1. eexists. split; [reflexivity|].
  cbn [rwc bw set_writeFrameMu set_writeTimeout set_emitted set_io bw_buf].
  split; [reflexivity|]. rewrite <- app_assoc. reflexivity.
Qed.

(** ** Failed frames; the locks *)

Lemma bw_Write_sticky (p : list Z) (b : bufio_Writer) (w : netConn) (e : error) :
  bw_err b = Some e -> bw_Write p b w = (O, Some e, b, w).
Proof.
  intros E. unfold bw_Write. cbn [bw_Write_loop]. rewrite E. cbn [isNil].
  rewrite andb_false_r. rewrite E. reflexivity.
Qed.

Lemma stage_sticky_io (p : list Z) (c1 : Conn) (e : error) :
  bw_err (bw c1) = Some e ->
  stage p c1 = Done (O, Some (errWrap "failed to write frame header" e)) c1.
Proof.
  intros E. unfold stage, bind, get, ret, writeFrameHeader.
  rewrite (bw_Write_sticky _ _ _ _ E). cbn [errd_Wrap]. rewrite set_io_id.
  reflexivity.
Qed.

(** Why a frame write fails: the key could not be drawn, or the
    connection is broken for its context when the call returns. *)
Lemma writeFrame_err_cause ctx fin flate op p c r c' :
  writeFrame ctx fin flate op p c = Done r c' -> snd r <> None ->
  (exists e0, snd r = Some (errWrap "failed to generate masking key" e0)) \/
  broken ctx c'.
Proof.
  unfold writeFrame.
  destruct (mu_Lock (closed c) ctx (writeFrameMu c)) eqn:L; try discriminate.
  2:{ intros H _; inversion H as [[Hr Hc]]; rewrite <- Hc; clear H Hr Hc.
      right. unfold mu_Lock in L.
      destruct (closed c) eqn:Ecl; [left; rewrite Ecl; discriminate|].
      destruct (ctxErr ctx) eqn:Ectx; [right; left; rewrite Ectx; discriminate|].
      destruct (writeFrameMu c); discriminate. }
  unfold mu_Lock in L.
  destruct (closed c) as [ce|] eqn:Ecl; [discriminate|].
  destruct (ctxErr ctx) eqn:Ectx; [discriminate|].
  destruct (writeFrameMu c) eqn:Emu; [discriminate|]. clear L.
  unfold bind at 1.
  destruct (client c && isNil (readUint32LE (randReader c))) eqn:Ekey.
  - apply andb_prop in Ekey. destruct Ekey as [Ecli Erd].
    assert (Erd' : readUint32LE (randReader c) = None)
      by (destruct (readUint32LE (randReader c)); [discriminate|reflexivity]).
    destruct (writeFrame_locked_nokey ctx fin flate op p c Ecl Ecli Erd')
      as (c1 & -> & _).
    unfold bind, modify, ret. intros H _; inversion H; subst; clear H.
    left. eexists. reflexivity.
  - rewrite writeFrame_locked_stage; [|exact Ecl|].
    2:{ intros Ecli. rewrite Ecli in Ekey. cbn in Ekey.
        destruct (readUint32LE (randReader c)); [discriminate|discriminate]. }
    destruct (stage p (prepared ctx (frameHeader c fin flate op p) c))
      as [r1 c2|] eqn:S; [|discriminate].
    unfold bind, modify, ret. intros H Hr; inversion H; subst; clear H.
    right. right. right. cbn [bw set_writeFrameMu].
    eapply stage_err; [exact S|exact Ecl|exact Hr].
Qed.

(** On a broken connection a frame write fails without touching the
    buffered writer or the byte stream, and the connection stays broken. *)
Lemma writeFrame_broken ctx fin flate op p c r c' :
  broken ctx c -> writeFrame ctx fin flate op p c = Done r c' ->
  snd r <> None /\ emitted c' = emitted c /\ rwc c' = rwc c /\ bw c' = bw c /\
  broken ctx c'.
Proof.
  intros B. unfold writeFrame.
  destruct (mu_Lock (closed c) ctx (writeFrameMu c)) eqn:L; try discriminate.
  2:{ intros H; inversion H as [[Hr Hc]]; rewrite <- Hc.
      split; [discriminate|]. auto. }
  unfold mu_Lock in L.
  destruct (closed c) as [ce|] eqn:Ecl; [discriminate|].
  destruct (ctxErr ctx) eqn:Ectx; [discriminate|].
  destruct (writeFrameMu c) eqn:Emu; [discriminate|]. clear L.
  assert (Hb : bw_err (bw c) <> None).
  { destruct B as [B|[B|B]]; [congruence|congruence|exact B]. }
  unfold bind at 1.
  destruct (client c && isNil (readUint32LE (randReader c))) eqn:Ekey.
  - apply andb_prop in Ekey. destruct Ekey as [Ecli Erd].
    assert (Erd' : readUint32LE (randReader c) = None)
      by (destruct (readUint32LE (randReader c)); [discriminate|reflexivity]).
    destruct (writeFrame_locked_nokey ctx fin flate op p c Ecl Ecli Erd')
      as (c1 & -> & _ & Hem & Hrwc & Hbw & _).
    unfold bind, modify, ret. intros H; inversion H; subst; clear H.
    cbn [emitted rwc bw set_writeFrameMu].
    split; [discriminate|]. split; [exact Hem|]. split; [exact Hrwc|].
    split; [exact Hbw|]. right. right. cbn [bw set_writeFrameMu].
    rewrite Hbw. exact Hb.
  - rewrite writeFrame_locked_stage; [|exact Ecl|].
    2:{ intros Ecli. rewrite Ecli in Ekey. cbn in Ekey.
        destruct (readUint32LE (randReader c)); [discriminate|discriminate]. }
    destruct (bw_err (bw c)) as [e|] eqn:Eb; [|congruence].
    rewrite (stage_sticky_io p _ e) by exact Eb.
    unfold bind, modify, ret. intros H; inversion H; subst; clear H.
    cbn [emitted rwc bw set_writeFrameMu prepared set_randReader set_writeHeader
         set_writeTimeout snd].
    split; [discriminate|]. repeat split.
    right. right. cbn [bw set_writeFrameMu prepared set_randReader set_writeHeader
                       set_writeTimeout]. rewrite Eb. discriminate.
Qed.

(** X7.  A failed frame write is final.  When [writeFrame] returns an
    error, either the masking key could not be drawn or the connection is
    left broken for the context of the call: closed, the context fired, or
    the buffered writer with its sticky error.  On a broken connection
    every frame write under that context returns an error, records no
    frame, hands nothing to the buffered writer or the byte stream, and
    leaves the connection broken. *)
Theorem X7_failed_frame_is_final
    (ctx : context) (c : Conn) :
  (forall fin flate op p r c',
     writeFrame ctx fin flate op p c = Done r c' -> snd r <> None ->
     (exists e0, snd r = Some (errWrap "failed to generate masking key" e0)) \/
     broken ctx c') /\
  (broken ctx c ->
   forall fin flate op p r c',
     writeFrame ctx fin flate op p c = Done r c' ->
     snd r <> None /\ emitted c' = emitted c /\ rwc c' = rwc c /\ bw c' = bw c /\
     broken ctx c').
Proof.
  split.
  - intros fin flate op p r c'. apply writeFrame_err_cause.
  - intros B fin flate op p r c'. apply writeFrame_broken. exact B.
Qed.

(** X8.  No call that returns keeps a lock it took for its own
    duration: after [writeFrame] and [writeControl] the frame lock is as
    before the call; after [Write] and [Close] of the message writer the
    frame lock is as before and the writer's own lock is free. *)
Theorem X8_locks_released_on_return (c : Conn) :
  (forall ctx fin flate op p r c',
     writeFrame ctx fin flate op p c = Done r c' ->
     writeFrameMu c' = writeFrameMu c) /\
  (forall now ctx op p r c',
     writeControl now ctx op p c = Done r c' ->
     writeFrameMu c' = writeFrameMu c) /\
  (forall p r c',
     msgWriter_Write p c = Done r c' ->
     writeFrameMu c' = writeFrameMu c /\ mw_writeMu (mw c') = false) /\
  (forall r c',
     msgWriter_Close c = Done r c' ->
     writeFrameMu c' = writeFrameMu c /\ mw_writeMu (mw c') = false).
Proof.
  assert (HF : forall s ctx fin flate op p r s',
            writeFrame ctx fin flate op p s = Done r s' ->
            writeFrameMu s' = writeFrameMu s).
  { intros s ctx fin flate op p r s' H. apply writeFrame_spec in H.
    destruct H as ((_ & _ & _ & _ & _ & K & _) & _). exact K. }
  assert (HM : mw_writeMu (mw c) = true ->
               (forall p, msgWriter_Write p c = Halts Blocked) /\
               msgWriter_Close c = Halts Blocked).
  { intros Hm. split; [intros p|].
    - unfold msgWriter_Write, bind. rewrite with_writeMu_held by exact Hm. reflexivity.
    - unfold msgWriter_Close, bind. rewrite with_writeMu_held by exact Hm. reflexivity. }
  split; [apply HF|]. split.
  { intros now ctx op p r c' H. unfold writeControl, bind in H.
    destruct (writeFrame _ true false op p c) as [fr c1|] eqn:F; [|discriminate].
    apply HF in F. destruct (snd fr); unfold ret in H; inversion H; subst; exact F. }
  split.
  - intros p r c' H. destruct (mw_writeMu (mw c)) eqn:Hm.
    { destruct (HM eq_refl) as [HW _]. rewrite HW in H. discriminate. }
    destruct (mw_closed (mw c)) eqn:Hc.
    + rewrite msgWriter_Write_closed in H by assumption.
      inversion H; subst. auto.
    + destruct (msgWriter_Write_open _ _ _ _ Hc H) as [K _ [_ W] _ _ _ _ _ _].
      split; [apply K|exact W].
  - intros r c' H. destruct (mw_writeMu (mw c)) eqn:Hm.
    { destruct (HM eq_refl) as [_ HC]. rewrite HC in H. discriminate. }
    destruct (mw_closed (mw c)) eqn:Hc.
    + rewrite msgWriter_Close_closed in H by assumption.
      inversion H; subst. auto.
    + destruct (msgWriter_Close_open _ _ _ Hc H) as (_ & ferr & s1 & _ & W & Hrest).
      destruct W as ((_ & _ & _ & _ & _ & W6 & _) & _).
      cbn [writeFrameMu set_mw] in W6.
      destruct ferr as [e1|].
      { destruct Hrest as [_ ->]. cbn. auto. }
      destruct Hrest as (fr & s2 & F & Hrest).
      apply HF in F. cbn [writeFrameMu set_mw] in F.
      destruct (snd fr) as [e2|]; destruct Hrest as [_ ->]; cbn; split;
        congruence || reflexivity.
Qed.

(** ** More on the message writer *)

(** X9.  With compression active (already, or turned on by this call) a
    [Write] on an open writer reports the whole input as written and
    appends it to the window, whether or not the compressed output could
    be written: the count is [len(p)] also when an error is returned. *)
Theorem X9_compressed_write_reports_full_length
    (p : list Z) (c : Conn) (r : nat * option error) (c' : Conn)
    (Hopen : mw_closed (mw c) = false)
    (Hflate : mw_flate (mw c) || activates c p = true)
    (Hrun : msgWriter_Write p c = Done r c') :
  fst r = length p /\
  mw_flate (mw c') = true /\
  mw_dict (mw c') =
    sw_write p (if activates c p then sw_init 8192 (mw_dict (mw c))
                else mw_dict (mw c)).
Proof.
  destruct (msgWriter_Write_open _ _ _ _ Hopen Hrun)
    as [_ _ [Hm _] _ _ Hfl Hdict _ _].
  rewrite Hflate in Hfl. rewrite Hfl in Hdict.
  split; [|split; [exact Hfl|exact Hdict]].
  revert Hrun. unfold msgWriter_Write. unfold bind at 1.
  rewrite with_writeMu_free by exact Hm.
  set (c0 := set_mw (set_writeMu true (mw c)) c).
  unfold msgWriter_Write_locked. unfold bind at 1, get at 1.
  replace (mw_closed (mw c0)) with false by (cbn; auto).
  unfold bind at 1.
  replace (activates c0 p) with (activates c p) by reflexivity.
  set (c1 := if activates c p then set_mw (ensureFlate_mw (mw c0)) c0 else c0).
  replace ((if activates c p then ensureFlate else ret tt) c0) with (Done tt c1).
  2:{ unfold c1. destruct (activates c p); reflexivity. }
  unfold bind at 1, get at 1.
  assert (Hfl1 : mw_flate (mw c1) = true).
  { rewrite <- Hflate. unfold c1, c0, ensureFlate_mw.
    cbn [mw set_mw mw_trimWriter set_writeMu].
    destruct (activates c p); destruct (mw_trimWriter (mw c));
      cbn; [rewrite orb_true_r|rewrite orb_true_r|rewrite orb_false_r|rewrite orb_false_r];
      reflexivity. }
  rewrite Hfl1. unfold bind at 1.
  destruct (flate_StatelessDeflate p false (sw_bytes (mw_dict (mw c1))) c1)
    as [err c2|]; [|discriminate].
  unfold bind, modify_mw, ret. intros H; inversion H; subst. reflexivity.
Qed.

(** X10.  [msgWriter.close] takes the writer's own lock and never gives
    it back: it releases the window and emits nothing, and from then on
    no [Write] and no [Close] on the writer returns, nor does a second
    [close]. *)
Theorem X10_writer_close_blocks_later_calls
    (c c' : Conn)
    (Hrun : msgWriter_close c = Done tt c') :
  mw_writeMu (mw c') = true /\
  mw_dict (mw c') = sw_close (mw_dict (mw c)) /\
  emitted c' = emitted c /\ output c' = output c /\
  (forall p, msgWriter_Write p c' = Halts Blocked) /\
  msgWriter_Close c' = Halts Blocked /\
  msgWriter_close c' = Halts Blocked.
Proof.
  revert Hrun. unfold msgWriter_close at 1. unfold bind, get.
  destruct (mw_writeMu (mw c)) eqn:Hm; [discriminate|].
  unfold modify_mw. intros H; inversion H; subst; clear H.
  cbn [mw set_mw mw_writeMu mw_dict set_dict set_writeMu emitted].
  split; [reflexivity|]. split; [reflexivity|]. split; [reflexivity|].
  split; [reflexivity|].
  split; [intros p; unfold msgWriter_Write, bind;
          rewrite with_writeMu_held by reflexivity; reflexivity|].
  split; [unfold msgWriter_Close, bind;
          rewrite with_writeMu_held by reflexivity; reflexivity|].
  reflexivity.
Qed.

(** [reset] that returns an error has changed nothing; one that returns
    none has set the writer as [reset_mw] says. *)
Lemma msgWriter_reset_cases (ctx : context) (typ : MessageType) (c : Conn)
    (r : option error) (c1 : Conn) :
  msgWriter_reset ctx typ c = Done r c1 ->
  match r with
  | Some _ => c1 = c
  | None => c1 = set_mw (reset_mw ctx typ (mw c)) c /\ mw_mu (mw c) = false
  end.
Proof.
  intros H. destruct r as [e|].
  - revert H. unfold msgWriter_reset, bind, get.
    destruct (mu_Lock (closed c) ctx (mw_mu (mw c))); unfold ret, halts, modify_mw;
      intros H; inversion H; reflexivity.
  - split.
    + apply (Conn_Writer_ok_state ctx typ).
      unfold Conn_Writer, Conn_writer, bind. rewrite H. reflexivity.
    + revert H. unfold msgWriter_reset, bind, get, mu_Lock.
      destruct (closed c); [unfold ret; discriminate|].
      destruct (ctxErr ctx); [unfold ret; discriminate|].
      destruct (mw_mu (mw c)); [discriminate|reflexivity].
Qed.

(** X11.  Without compression the one-shot [Write] always gives the
    ownership lock back: whatever it returns, the lock that was free
    before the call is free after it, so that no later [Writer] parks. *)
Theorem X11_one_shot_without_compression_releases_the_writer
    (ctx : context) (typ : MessageType) (p : list Z)
    (c : Conn) (r : option error) (c' : Conn)
    (Hplain : flateEnabled c = false)
    (Hfree : mw_mu (mw c) = false)
    (Hrun : Conn_Write ctx typ p c = Done r c') :
  mw_mu (mw c') = false /\
  (forall ctx2 typ2, Conn_Writer ctx2 typ2 c' <> Halts Blocked).
Proof.
  assert (Hmu : mw_mu (mw c') = false).
  { revert Hrun. unfold Conn_Write, Conn_write, Conn_writer. unfold bind at 1 2.
    destruct (msgWriter_reset ctx typ c) as [[e|] c1|] eqn:R; [| |discriminate].
    - apply msgWriter_reset_cases in R. subst c1.
      unfold ret, bind. intros H; inversion H; subst. exact Hfree.
    - apply msgWriter_reset_cases in R. destruct R as [-> _].
      unfold bind at 1, get at 1. cbn [flateEnabled set_mw]. rewrite Hplain.
      cbn [negb]. unfold bind at 1.
      destruct (writeFrame _ _ _ _ _ _) as [fr c2|]; [|discriminate].
      unfold bind, modify_mw, ret. intros H; inversion H; subst. reflexivity. }
  split; [exact Hmu|].
  intros ctx2 typ2. unfold Conn_Writer, Conn_writer, msgWriter_reset, bind, get, mu_Lock.
  rewrite Hmu. destruct (closed c'); [discriminate|].
  destruct (ctxErr ctx2); discriminate.
Qed.

(** X12.  With compression negotiated the one-shot [Write] goes through
    [Write] and [Close] of the message writer and gives the ownership lock
    back only in a [Close] that succeeds.  So when it returns an error,
    either it never got the writer and nothing has changed, or the lock
    is still held; and then, while the connection is open, the next
    one-shot [Write] and the next [Writer] under a context that has not
    fired never return. *)
Theorem X12_one_shot_with_compression_keeps_the_writer_on_failure
    (ctx : context) (typ : MessageType) (p : list Z)
    (c : Conn) (e : error) (c' : Conn)
    (Hflate : flateEnabled c = true)
    (Hrun : Conn_Write ctx typ p c = Done (Some e) c') :
  c' = c \/
  (mw_mu (mw c') = true /\
   forall ctx2 typ2 p2, closed c' = None -> ctxErr ctx2 = None ->
     Conn_Write ctx2 typ2 p2 c' = Halts Blocked /\
     Conn_Writer ctx2 typ2 c' = Halts Blocked).
Proof.
  assert (Hmu : c' = c \/ mw_mu (mw c') = true).
  { revert Hrun. unfold Conn_Write, Conn_write, Conn_writer. unfold bind at 1 2.
    destruct (msgWriter_reset ctx typ c) as [[e0|] c1|] eqn:R; [| |discriminate].
    - apply msgWriter_reset_cases in R. subst c1.
      unfold ret, bind. intros H; inversion H; subst. left. reflexivity.
    - apply msgWriter_reset_cases in R. destruct R as [-> _].
      set (c1 := set_mw (reset_mw ctx typ (mw c)) c).
      unfold bind at 1, get at 1.
      replace (flateEnabled c1) with true by (symmetry; exact Hflate).
      cbn [negb]. unfold bind at 1.
      destruct (msgWriter_Write p c1) as [r1 c2|] eqn:W; [|discriminate].
      assert (Hc1 : mw_closed (mw c1) = false) by reflexivity.
      destruct (msgWriter_Write_open _ _ _ _ Hc1 W) as [_ Wmu _ _ Wcl _ _ _ _].
      assert (M2 : mw_mu (mw c2) = true) by (rewrite Wmu; reflexivity).
      destruct (snd r1) as [e1|].
      + unfold ret, bind. intros H; inversion H; subst. right. exact M2.
      + unfold bind at 1.
        destruct (msgWriter_Close c2) as [cerr c3|] eqn:C; [|discriminate].
        unfold ret, bind. cbn [snd errd_Wrap]. intros H.
        destruct cerr as [e2|]; [|discriminate].
        inversion H; subst; clear H. right.
        destruct (run_op_mu OpClose c2 (Some e2) c' C) as [_ Hop].
        rewrite (Hop Wcl). exact M2. }
  destruct Hmu as [E|Hmu]; [left; exact E|right].
  split; [exact Hmu|].
  intros ctx2 typ2 p2 Hcl Hctx.
  unfold Conn_Write, Conn_write, Conn_Writer, Conn_writer, bind.
  rewrite msgWriter_reset_held by exact Hmu. rewrite Hcl, Hctx. auto.
Qed.

(** ** Whole messages *)

Lemma plain_frames_payloads o ps fs :
  plain_frames o ps fs -> map snd fs = ps ++ [[]].
Proof. induction 1; cbn; congruence. Qed.

Lemma plain_frames_reassemble_rest o ps fs :
  plain_frames o ps fs -> o = opContinuation ->
  forall acc, reassemble_rest acc (map onWire fs) = Some (acc ++ concat ps).
Proof.
  induction 1 as [o h H1 H2 H3|o h p ps fs H1 H2 H3 H4 IH]; intros Eo acc;
    cbn [map onWire fst snd reassemble_rest concat].
  - rewrite H2, Eo, H1, payloadBytes_involutive. reflexivity.
  - rewrite H2, Eo, H1, payloadBytes_involutive, (IH eq_refl), app_assoc. reflexivity.
Qed.

Lemma plain_frames_reassemble o ps fs :
  isData o = true -> plain_frames o ps fs ->
  reassemble (map onWire fs) = Some (o, false, concat ps).
Proof.
  intros Ho H. destruct H as [o h H1 H2 H3|o h p ps fs H1 H2 H3 H4];
    cbn [map onWire fst snd reassemble concat].
  - rewrite H2, Ho, H1, H3, payloadBytes_involutive. reflexivity.
  - rewrite H2, Ho, H1, H3, payloadBytes_involutive.
    rewrite (plain_frames_reassemble_rest _ _ _ H4 eq_refl). reflexivity.
Qed.

(** The pieces written one after the other and the writer closed, on a
    ready connection without compression. *)
Lemma plain_message_run (ps : list (list Z)) : forall c,
  ready (S (length ps)) c -> ctxErr (mw_ctx (mw c)) = None ->
  mw_closed (mw c) = false -> mw_writeMu (mw c) = false ->
  mw_flate (mw c) = false -> flateEnabled c = false ->
  exists c' fs,
    run_ops (map OpWrite ps ++ [OpClose]) c = Done (repeat None (S (length ps))) c' /\
    emitted c' = emitted c ++ fs /\
    plain_frames (mw_opcode (mw c)) ps fs /\
    output c' = output c ++ wireBytes fs /\ bw_buf (bw c') = [] /\
    mw_mu (mw c') = false /\ mw_closed (mw c') = true.
Proof.
  induction ps as [|p ps IH]; intros c Hready Hctx Hopen Hm Hfl Hen.
  - destruct (msgWriter_Close_plain_ok 0 c Hready Hctx Hopen Hm Hfl)
      as (c' & C & _ & Hmw & Hem & Hout & Hbuf).
    exists c'. eexists. cbn [map app run_ops length repeat].
    unfold bind at 1. cbn [run_op]. rewrite C. unfold bind, ret.
    split; [reflexivity|]. split; [exact Hem|].
    split; [apply plain_last; reflexivity|].
    split; [unfold wireBytes; cbn [map concat fst snd]; rewrite app_nil_r; exact Hout|].
    split; [exact Hbuf|]. rewrite Hmw. split; reflexivity.
  - assert (Hact : activates c p = false) by (unfold activates; rewrite Hen; reflexivity).
    cbn [length] in Hready.
    destruct (msgWriter_Write_plain_ok (S (length ps)) p c Hready Hctx Hopen Hm Hfl Hact)
      as (c1 & W & R1 & Hmw1 & Hem1 & Hout1).
    destruct (msgWriter_Write_open _ _ _ _ Hopen W) as [K _ _ _ _ _ _ _ _].
    destruct K as (_ & Ken & _).
    destruct (IH c1 R1) as (c' & fs & Run & Hem & Hpf & Hout & Hbuf & Hmu & Hcl);
      try (rewrite Hmw1; cbn; assumption).
    { rewrite Ken. exact Hen. }
    exists c', ((frameHeader c false false (mw_opcode (mw c)) p, p) :: fs).
    cbn [map app run_ops length repeat].
    unfold bind at 1. cbn [run_op]. unfold bind at 1. rewrite W. unfold ret at 1.
    cbn [snd]. unfold bind at 1. rewrite Run. unfold ret.
    split; [reflexivity|].
    split; [rewrite Hem, Hem1, <- app_assoc; reflexivity|].
    split.
    { apply plain_more; try reflexivity.
      rewrite Hmw1 in Hpf. exact Hpf. }
    split; [|auto].
    rewrite Hout, Hout1. unfold wireBytes. cbn [map concat fst snd].
    rewrite <- !app_assoc. reflexivity.
Qed.

(** X13.  A message streamed in pieces.  On a ready connection without
    compression, [Writer], a [Write] for each piece and [Close] all
    succeed and emit one non-final frame for each piece, empty pieces
    included, the first with the message type as opcode and the others
    continuation frames, then an empty final continuation frame (with the
    message type when there was no piece); none has RSV1.  All their bytes
    have reached the byte stream, in this order, and the peer reassembles
    the message of that type whose payload is the pieces joined.  The
    writer ends closed with the ownership lock free. *)
Theorem X13_streamed_message
    (ctx : context) (typ : MessageType) (ps : list (list Z)) (c0 c1 : Conn)
    (Hplain : flateEnabled c0 = false)
    (Hready : ready (S (length ps)) c0)
    (HwriteMu : mw_writeMu (mw c0) = false)
    (Hbegin : Conn_Writer ctx typ c0 = Done None c1) :
  exists c fs,
    run_ops (map OpWrite ps ++ [OpClose]) c1 = Done (repeat None (S (length ps))) c /\
    emitted c = emitted c0 ++ fs /\
    plain_frames (opcode_of typ) ps fs /\
    map snd fs = ps ++ [[]] /\
    sent (rwc c) = output c0 ++ wireBytes fs /\
    reassemble (map onWire fs) = Some (opcode_of typ, false, concat ps) /\
    mw_mu (mw c) = false /\ mw_closed (mw c) = true.
Proof.
  assert (Hctx : ctxErr ctx = None).
  { revert Hbegin. unfold Conn_Writer, Conn_writer, msgWriter_reset, bind, get, mu_Lock.
    destruct (closed c0); [unfold ret; discriminate|].
    destruct (ctxErr ctx); [unfold ret; discriminate|reflexivity]. }
  rewrite (Conn_Writer_ok_state _ _ _ _ Hbegin).
  destruct (plain_message_run ps (set_mw (reset_mw ctx typ (mw c0)) c0))
    as (c & fs & Run & Hem & Hpf & Hout & Hbuf & Hmu & Hcl);
    [apply ready_set_mw; exact Hready|exact Hctx|reflexivity|exact HwriteMu
    |reflexivity|exact Hplain|].
  cbn [mw set_mw reset_mw mw_opcode emitted] in Hem, Hpf.
  exists c, fs. split; [exact Run|]. split; [exact Hem|]. split; [exact Hpf|].
  split; [eapply plain_frames_payloads; exact Hpf|].
  split.
  { unfold output in Hout at 1. rewrite Hbuf, app_nil_r in Hout. exact Hout. }
  split; [apply plain_frames_reassemble; [apply isData_opcode_of|exact Hpf]|].
  split; assumption.
Qed.

(** ** Control frames while a message is written *)

Lemma dataFrames_app (a b : list frame) :
  dataFrames (a ++ b) = dataFrames a ++ dataFrames b.
Proof. apply filter_app. Qed.

Lemma dataFrames_all (fs : list frame) :
  Forall (fun f => isControl (h_opcode (fst f)) = false) fs -> dataFrames fs = fs.
Proof.
  induction 1 as [|f fs H HF IH]; [reflexivity|].
  unfold dataFrames in IH |- *. cbn [filter]. rewrite H. cbn [negb]. rewrite IH.
  reflexivity.
Qed.

Lemma chain_data fl o fs o' :
  chain fl o fs o' -> isControl o = false ->
  Forall (fun f => isControl (h_opcode (fst f)) = false) fs /\ isControl o' = false.
Proof.
  induction 1 as [o|o o' f fs H1 H2 H3 H4 IH]; intros Ho.
  - split; [constructor|exact Ho].
  - destruct (IH eq_refl) as [HF Ho']. split; [|exact Ho'].
    constructor; [rewrite H1; exact Ho|exact HF].
Qed.

(** One call on the writer adds data frames only and keeps [data_inv]. *)
Lemma run_op_data (t : opcode) (ds : list frame) (o : writerOp) (c : Conn)
    (e : option error) (c' : Conn) :
  isControl t = false -> data_inv t ds (mw c) -> run_op o c = Done e c' ->
  exists new,
    emitted c' = emitted c ++ new /\
    Forall (fun f => isControl (h_opcode (fst f)) = false) new /\
    data_inv t (ds ++ new) (mw c').
Proof.
  intros Ht Inv H. destruct (mw_closed (mw c)) eqn:Hc.
  - rewrite (run_op_closed _ _ _ _ Hc H). exists [].
    rewrite !app_nil_r. split; [reflexivity|]. split; [constructor|exact Inv].
  - destruct Inv as (fs1 & C1 & [E1|(Hcl & _)]); [|congruence]. subst ds.
    destruct (chain_data _ _ _ _ C1 Ht) as [_ Hop].
    destruct (run_op_open _ _ _ _ Hc H) as (Hfl & fs & C & Hem).
    destruct (chain_data _ _ _ _ C Hop) as [HF Hop'].
    assert (C' : chain (mw_flate (mw c')) t (fs1 ++ fs) (mw_opcode (mw c'))).
    { eapply chain_app; [|exact C].
      rewrite Hfl. destruct o as [p|].
      - destruct (activates c p) eqn:Ha.
        + apply chain_flate_nil with (fl := mw_flate (mw c)); [exact C1|].
          apply activates_opcode with (p := p). exact Ha.
        + rewrite orb_false_r. exact C1.
      - rewrite orb_false_r. exact C1. }
    destruct Hem as [E|(Hcl & h & E & Hfin & Hoph & Hrsv)].
    + exists fs. split; [exact E|]. split; [exact HF|].
      exists (fs1 ++ fs). split; [exact C'|]. left. reflexivity.
    + exists (fs ++ [(h, [])]). split; [exact E|]. split.
      { apply Forall_app. split; [exact HF|].
        constructor; [|constructor]. cbn [fst]. rewrite Hoph. exact Hop'. }
      exists (fs1 ++ fs). split; [exact C'|]. right. split; [exact Hcl|].
      exists h. split; [rewrite app_assoc; reflexivity|]. auto.
Qed.

(** A control write leaves the writer alone and adds at most one frame,
    final, without RSV1, with its opcode. *)
Lemma writeControl_frames (now : Z) (ctx : context) (op : opcode) (p : list Z)
    (c : Conn) (r : option error) (c' : Conn) :
  writeControl now ctx op p c = Done r c' ->
  mw c' = mw c /\
  exists new,
    emitted c' = emitted c ++ new /\
    Forall (fun f => h_opcode (fst f) = op /\ h_fin (fst f) = true /\
                     h_rsv1 (fst f) = false) new.
Proof.
  unfold writeControl, bind.
  destruct (writeFrame _ true false op p c) as [fr c1|] eqn:F; [|discriminate].
  intros H. assert (Hc : c1 = c') by (destruct (snd fr); inversion H; reflexivity).
  subst c1. clear H.
  apply writeFrame_spec in F. destruct F as (K & _ & O).
  destruct K as (_ & _ & _ & _ & _ & _ & Kmw & _).
  split; [exact Kmw|].
  destruct O as [E1 _|E1 _ _ _ _ _ _ _ _|E1 _ _].
  - exists []. rewrite app_nil_r. split; [exact E1|constructor].
  - eexists. split; [exact E1|]. constructor; [|constructor]. cbn. auto.
  - eexists. split; [exact E1|]. constructor; [|constructor]. cbn. auto.
Qed.

Lemma run_connOps_data (t : opcode) (l : list connOp) : forall ds c rs c',
  isControl t = false -> control_opcodes l -> data_inv t ds (mw c) ->
  run_connOps l c = Done rs c' ->
  exists new,
    emitted c' = emitted c ++ new /\
    data_inv t (ds ++ dataFrames new) (mw c') /\
    Forall (fun f => isControl (h_opcode (fst f)) = true ->
                     h_fin (fst f) = true /\ h_rsv1 (fst f) = false) new.
Proof.
  induction l as [|a l IH]; intros ds c rs c' Ht Hctl Inv H; cbn [run_connOps] in H.
  - unfold ret in H. inversion H; subst. exists []. cbn. rewrite !app_nil_r.
    split; [reflexivity|]. split; [exact Inv|constructor].
  - unfold bind at 1 in H. destruct (run_connOp a c) as [e c1|] eqn:R; [|discriminate].
    unfold bind at 1 in H. destruct (run_connOps l c1) as [es c2|] eqn:Rs; [|discriminate].
    unfold ret in H. inversion H; subst; clear H.
    inversion Hctl as [|a' l' Ha Hl]; subst.
    assert (Step : exists new1,
              emitted c1 = emitted c ++ new1 /\
              data_inv t (ds ++ dataFrames new1) (mw c1) /\
              Forall (fun f => isControl (h_opcode (fst f)) = true ->
                               h_fin (fst f) = true /\ h_rsv1 (fst f) = false) new1).
    { destruct a as [o|now ctx op p]; cbn [run_connOp] in R.
      - destruct (run_op_data _ _ _ _ _ _ Ht Inv R) as (new1 & E & HF & Inv1).
        exists new1. split; [exact E|]. rewrite (dataFrames_all _ HF).
        split; [exact Inv1|].
        eapply Forall_impl; [|exact HF]. cbn beta. intros f Hf Hc. congruence.
      - destruct (writeControl_frames _ _ _ _ _ _ _ R) as (Kmw & new1 & E & HF).
        exists new1. split; [exact E|]. split.
        + assert (Hd : dataFrames new1 = []).
          { clear E. induction HF as [|f fs (Hf & _) _ IHf]; [reflexivity|].
            unfold dataFrames in IHf |- *. cbn [filter]. rewrite Hf, Ha. cbn [negb].
            exact IHf. }
          rewrite Hd, app_nil_r, Kmw. exact Inv.
        + eapply Forall_impl; [|exact HF]. cbn beta. intros f (_ & H1 & H2) _. auto. }
    destruct Step as (new1 & E1 & Inv1 & F1).
    destruct (IH _ _ _ _ Ht Hl Inv1 Rs) as (new2 & E2 & Inv2 & F2).
    exists (new1 ++ new2). split; [rewrite E2, E1, app_assoc; reflexivity|].
    split; [rewrite dataFrames_app, app_assoc; exact Inv2|].
    apply Forall_app. split; assumption.
Qed.

(** X14.  Control frames written between the calls of a message writer
    leave the message alone.  Whatever the order of writer calls and
    control writes after [Writer], every control frame on the trace is
    final and without RSV1, and the data frames, taken by themselves, are
    as for a message written alone: the first carries the message type and
    RSV1 exactly when the message is compressed, every later one is a
    continuation frame without RSV1, and while the writer is open and a
    data frame is out its opcode is continuation. *)
Theorem X14_control_frames_between_data_frames
    (ctx : context) (typ : MessageType) (c0 c1 : Conn)
    (l : list connOp) (rs : list (option error)) (c : Conn)
    (Hctl : control_opcodes l)
    (Hbegin : Conn_Writer ctx typ c0 = Done None c1)
    (Hrun : run_connOps l c1 = Done rs c) :
  exists fs,
    emitted c = emitted c0 ++ fs /\
    Forall (fun f => isControl (h_opcode (fst f)) = true ->
                     h_fin (fst f) = true /\ h_rsv1 (fst f) = false) fs /\
    (mw_closed (mw c) = false -> dataFrames fs <> [] ->
     mw_opcode (mw c) = opContinuation) /\
    match dataFrames fs with
    | [] => True
    | f :: rest =>
        h_opcode (fst f) = opcode_of typ /\ h_rsv1 (fst f) = mw_flate (mw c) /\
        Forall cont_frame rest
    end.
Proof.
  assert (Ht : isControl (opcode_of typ) = false) by (destruct typ; reflexivity).
  assert (Inv0 : data_inv (opcode_of typ) [] (mw c1)).
  { rewrite (Conn_Writer_ok_state _ _ _ _ Hbegin). exists [].
    cbn [mw set_mw reset_mw mw_flate mw_opcode]. split; [apply chain_nil|]. left.
    reflexivity. }
  destruct (run_connOps_data _ _ _ _ _ _ Ht Hctl Inv0 Hrun) as (fs & E & Inv & HF).
  cbn [app] in Inv.
  exists fs. split.
  { rewrite E, (Conn_Writer_ok_state _ _ _ _ Hbegin). reflexivity. }
  split; [exact HF|].
  assert (T : trace_inv (opcode_of typ) (set_emitted [] c)
                        (set_emitted (dataFrames fs) c)).
  { destruct Inv as (fs1 & C & Hds). exists fs1.
    cbn [mw emitted set_emitted app]. split; [exact C|exact Hds]. }
  apply trace_inv_frames in T; [|apply isData_opcode_of].
  destruct T as (ds & Eds & T1 & T2).
  cbn [mw emitted set_emitted app] in Eds, T1, T2. subst ds.
  split; assumption.
Qed.

(** ** What the write path leaves alone; one-shot writes in a row *)

Lemma run_op_mkeeps (o : writerOp) (c : Conn) (e : option error) (c' : Conn) :
  run_op o c = Done e c' -> mkeeps c c'.
Proof.
  intros H. destruct (mw_closed (mw c)) eqn:Hc.
  - rewrite (run_op_closed _ _ _ _ Hc H). apply mkeeps_refl.
  - destruct o as [p|]; cbn [run_op] in H.
    + unfold bind in H.
      destruct (msgWriter_Write p c) as [r c2|] eqn:W; [|discriminate].
      unfold ret in H. inversion H; subst; clear H.
      destruct (msgWriter_Write_open _ _ _ _ Hc W) as [K _ _ _ _ _ _ _ _]. exact K.
    + destruct (msgWriter_Close_open _ _ _ Hc H) as (_ & ferr & s1 & _ & W & Hrest).
      destruct W as (K1 & _).
      assert (K01 : mkeeps c s1).
      { eapply mkeeps_trans; [apply mkeeps_set_mw|exact K1]. }
      destruct ferr as [e1|].
      { destruct Hrest as [_ ->]. eapply mkeeps_trans; [exact K01|apply mkeeps_set_mw]. }
      destruct Hrest as (fr & s2 & F & Hrest).
      apply writeFrame_spec in F. destruct F as (K & Hroom & _).
      pose proof (keeps_mkeeps _ _ K Hroom) as K2.
      assert (K02 : mkeeps c s2).
      { eapply mkeeps_trans; [exact K01|].
        eapply mkeeps_trans; [apply mkeeps_set_mw|exact K2]. }
      destruct (snd fr); destruct Hrest as [_ ->];
        (eapply mkeeps_trans; [exact K02|apply mkeeps_set_mw]).
Qed.

Lemma writeControl_mkeeps (now : Z) (ctx : context) (op : opcode) (p : list Z)
    (c : Conn) (r : option error) (c' : Conn) :
  writeControl now ctx op p c = Done r c' -> mkeeps c c'.
Proof.
  unfold writeControl, bind.
  destruct (writeFrame _ true false op p c) as [fr c1|] eqn:F; [|discriminate].
  intros H. assert (Hc : c1 = c') by (destruct (snd fr); inversion H; reflexivity).
  subst c1. apply writeFrame_spec in F. destruct F as (K & Hroom & _).
  exact (keeps_mkeeps _ _ K Hroom).
Qed.

Lemma run_connOps_mkeeps (l : list connOp) : forall c rs c',
  run_connOps l c = Done rs c' -> mkeeps c c'.
Proof.
  induction l as [|a l IH]; intros c rs c' H; cbn [run_connOps] in H.
  - unfold ret in H. inversion H; subst. apply mkeeps_refl.
  - unfold bind at 1 in H. destruct (run_connOp a c) as [e c1|] eqn:R; [|discriminate].
    unfold bind at 1 in H. destruct (run_connOps l c1) as [es c2|] eqn:Rs; [|discriminate].
    unfold ret in H. inversion H; subst; clear H.
    eapply mkeeps_trans; [|eapply IH; exact Rs].
    destruct a; cbn [run_connOp] in R;
      [eapply run_op_mkeeps|eapply writeControl_mkeeps]; exact R.
Qed.

Lemma Conn_Write_mkeeps (ctx : context) (typ : MessageType) (p : list Z)
    (c : Conn) (r : option error) (c' : Conn) :
  Conn_Write ctx typ p c = Done r c' -> mkeeps c c'.
Proof.
  unfold Conn_Write, Conn_write, Conn_writer. unfold bind at 1 2.
  destruct (msgWriter_reset ctx typ c) as [res c1|] eqn:R; [|discriminate].
  destruct (msgWriter_reset_state _ _ _ _ _ R) as [m ->].
  pose proof (mkeeps_set_mw c m) as K0.
  destruct res as [e0|].
  { unfold ret, bind. intros H; inversion H; subst. exact K0. }
  unfold bind at 1, get at 1.
  destruct (negb (flateEnabled (set_mw m c))).
  - unfold bind at 1.
    destruct (writeFrame _ _ _ _ _ _) as [fr c2|] eqn:F; [|discriminate].
    apply writeFrame_spec in F. destruct F as (K & Hroom & _).
    unfold bind, modify_mw, ret. intros H; inversion H; subst.
    eapply mkeeps_trans; [exact K0|].
    eapply mkeeps_trans; [exact (keeps_mkeeps _ _ K Hroom)|apply mkeeps_set_mw].
  - unfold bind at 1.
    destruct (msgWriter_Write p (set_mw m c)) as [r1 c2|] eqn:W; [|discriminate].
    assert (K1 : mkeeps (set_mw m c) c2).
    { apply (run_op_mkeeps (OpWrite p) _ (snd r1)). cbn [run_op]. unfold bind.
      rewrite W. reflexivity. }
    destruct (snd r1) as [e1|].
    + unfold ret, bind. intros H; inversion H; subst.
      exact (mkeeps_trans _ _ _ K0 K1).
    + unfold bind at 1.
      destruct (msgWriter_Close c2) as [cerr c3|] eqn:C; [|discriminate].
      unfold ret, bind. intros H; inversion H; subst.
      eapply mkeeps_trans; [exact K0|]. eapply mkeeps_trans; [exact K1|].
      apply (run_op_mkeeps OpClose _ cerr). exact C.
Qed.

(** X15.  The write path never changes what the connection is: after
    any run of writer calls and control writes, and after a one-shot
    [Write], the role, the negotiated compression and its options, the
    threshold and the close state are as before.  In particular no write,
    failed or not, marks the connection closed. *)
Theorem X15_write_path_leaves_the_connection_settings
    (c : Conn) :
  (forall l rs c',
     run_connOps l c = Done rs c' ->
     client c' = client c /\ flateEnabled c' = flateEnabled c /\
     copts c' = copts c /\ flateThreshold c' = flateThreshold c /\
     closed c' = closed c) /\
  (forall ctx typ p r c',
     Conn_Write ctx typ p c = Done r c' ->
     client c' = client c /\ flateEnabled c' = flateEnabled c /\
     copts c' = copts c /\ flateThreshold c' = flateThreshold c /\
     closed c' = closed c).
Proof.
  split.
  - intros l rs c' H. apply run_connOps_mkeeps in H.
    destruct H as (H1 & H2 & H3 & H4 & H5 & _). auto.
  - intros ctx typ p r c' H. apply Conn_Write_mkeeps in H.
    destruct H as (H1 & H2 & H3 & H4 & H5 & _). auto.
Qed.

Lemma Conn_Write_plain_ok (n : nat) (ctx : context) (typ : MessageType)
    (p : list Z) (c : Conn) :
  ready (S n) c -> mw_mu (mw c) = false -> ctxErr ctx = None ->
  flateEnabled c = false ->
  exists c',
    Conn_Write ctx typ p c = Done None c' /\ ready n c' /\
    mw_mu (mw c') = false /\ flateEnabled c' = false /\
    let h := frameHeader c true false (opcode_of typ) p in
    emitted c' = emitted c ++ [(h, p)] /\
    output c' = output c ++ encodeHeader h ++ payloadBytes h p /\
    bw_buf (bw c') = [].
Proof.
  intros Hready Hmu Hctx Hen. pose proof Hready as (Hcl & _).
  pose proof (msgWriter_reset_ok ctx typ c Hcl Hctx Hmu) as R.
  set (c0 := set_mw (reset_mw ctx typ (mw c)) c) in *.
  assert (R0 : ready (S n) c0) by (apply ready_set_mw; exact Hready).
  destruct (writeFrame_ok n ctx true false (opcode_of typ) p c0 R0 Hctx)
    as (c1 & W & R1).
  pose proof (writeFrame_spec _ _ _ _ _ _ _ _ W) as (K & _ & O).
  apply frame_outcome_ok in O. destruct O as (E1 & _ & _ & E4 & E5 & _).
  destruct K as (_ & Ken & _).
  exists (set_mw (set_mu false (mw c1)) c1).
  split.
  { unfold Conn_Write, Conn_write, Conn_writer, bind. rewrite R. fold c0.
    unfold get. replace (flateEnabled c0) with false by (symmetry; exact Hen).
    cbn [negb]. replace (mw_opcode (mw c0)) with (opcode_of typ) by reflexivity.
    rewrite W. reflexivity. }
  split; [apply ready_set_mw; exact R1|].
  split; [reflexivity|].
  split; [cbn [flateEnabled set_mw]; rewrite Ken; exact Hen|].
  cbv zeta. cbn [emitted set_mw bw].
  split; [exact E1|]. split; [exact E4|]. apply E5. reflexivity.
Qed.

(** X16.  One-shot writes in a row.  On a ready connection without
    compression, any number of one-shot [Write]s under a live context all
    succeed and emit one frame each, in the order of the calls: final,
    without RSV1, with the type and the payload of its message.  Each
    call ends with its frame flushed and the ownership lock free. *)
Theorem X16_one_shot_writes_in_a_row
    (ctx : context) (ms : list (MessageType * list Z)) (c : Conn)
    (Hplain : flateEnabled c = false)
    (Hready : ready (length ms) c)
    (Hfree : mw_mu (mw c) = false)
    (Hctx : ctxErr ctx = None) :
  exists c' fs,
    write_all ctx ms c = Done (repeat None (length ms)) c' /\
    emitted c' = emitted c ++ fs /\
    map (fun f => (h_opcode (fst f), snd f)) fs =
      map (fun m => (opcode_of (fst m), snd m)) ms /\
    Forall (fun f => h_fin (fst f) = true /\ h_rsv1 (fst f) = false) fs /\
    output c' = output c ++ wireBytes fs /\
    (ms <> [] -> bw_buf (bw c') = []) /\
    mw_mu (mw c') = false.
Proof.
  revert c Hplain Hready Hfree.
  induction ms as [|m ms IH]; intros c Hplain Hready Hfree.
  - exists c, []. cbn. unfold ret, wireBytes. cbn. rewrite !app_nil_r.
    repeat split; auto. congruence.
  - cbn [length] in Hready.
    destruct (Conn_Write_plain_ok (length ms) ctx (fst m) (snd m) c Hready Hfree Hctx Hplain)
      as (c1 & W & R1 & M1 & En1 & E1 & O1 & B1).
    destruct (IH c1 En1 R1 M1) as (c' & fs & Run & Hem & Hmap & HF & Hout & Hbuf & Hmu).
    exists c', ((frameHeader c true false (opcode_of (fst m)) (snd m), snd m) :: fs).
    cbn [write_all length repeat].
    unfold bind at 1. rewrite W. unfold bind at 1. rewrite Run. unfold ret.
    split; [reflexivity|].
    split; [rewrite Hem, E1, <- app_assoc; reflexivity|].
    split; [cbn [map fst snd h_opcode frameHeader]; rewrite Hmap; reflexivity|].
    split; [constructor; [cbn; auto|exact HF]|].
    split.
    { rewrite Hout, O1. unfold wireBytes. cbn [map concat fst snd].
      rewrite <- !app_assoc. reflexivity. }
    split; [|exact Hmu].
    intros _. destruct ms as [|m2 ms2]; [|apply Hbuf; discriminate].
    cbn in Run. unfold ret in Run. inversion Run; subst. exact B1.
Qed.

(** ** The write-timeout mailbox *)

Lemma stage_mailbox (p : list Z) (c1 : Conn) (r : nat * option error) (c2 : Conn) :
  stage p c1 = Done r c2 -> closed c1 = None ->
  writeTimeout c2 =
    writeTimeout c1 ++ (if isNil (snd r) then [context_Background] else []).
Proof.
  unfold stage, bind, get, ret, modify, select_closed_or_send, writeFrameHeader.
  intros H Ecl.
  destruct (bw_Write (encodeHeader (writeHeader c1)) (bw c1) (rwc c1))
    as [[[hn herr] hb] hw].
  destruct herr as [e|]; cbn [errd_Wrap] in H.
  { inversion H; subst; clear H. cbn. rewrite app_nil_r. reflexivity. }
  pose proof (writeFramePayload_spec p (set_io hb hw c1)) as P.
  destruct (writeFramePayload p (set_io hb hw c1)) as [pr c3|]; [|discriminate].
  destruct P as (b & w & -> & _).
  destruct (snd pr) as [e|] eqn:Epr.
  { inversion H; subst; clear H. cbn. rewrite app_nil_r. reflexivity. }
  cbn [writeHeader set_io set_emitted emitted bw rwc closed] in H.
  destruct (h_fin (writeHeader c1)).
  - cbv beta in H. cbn [bw rwc set_io set_emitted] in H. revert H.
    destruct (bw_Flush b w) as [[ferr fb] fw]. intros H.
    destruct ferr as [e|].
    + inversion H; subst; clear H. cbn. rewrite app_nil_r. reflexivity.
    + cbn [closed set_io set_emitted] in H. rewrite Ecl in H.
      inversion H; subst; clear H. reflexivity.
  - cbn [closed set_io set_emitted] in H. rewrite Ecl in H.
    inversion H; subst; clear H. reflexivity.
Qed.

(** X18.  A frame write posts its context on the write-timeout mailbox
    once it holds the frame lock, and posts the background context, which
    disarms the deadline, only when the frame has gone out.  So a write
    that succeeds adds the context and then the background context; one
    that fails adds nothing, when the lock was not acquired, or the
    context alone: after a failure in the frame the deadline stays armed. *)
Theorem X18_write_timeout_mailbox
    (ctx : context) (fin flate : bool) (op : opcode) (p : list Z)
    (c : Conn) (r : nat * option error) (c' : Conn)
    (Hrun : writeFrame ctx fin flate op p c = Done r c') :
  (snd r = None ->
   writeTimeout c' = writeTimeout c ++ [ctx; context_Background]) /\
  (snd r <> None ->
   writeTimeout c' = writeTimeout c \/ writeTimeout c' = writeTimeout c ++ [ctx]) /\
  (snd r <> None -> closed c = None -> ctxErr ctx = None ->
   writeTimeout c' = writeTimeout c ++ [ctx]).
Proof.
  revert Hrun. unfold writeFrame.
  destruct (mu_Lock (closed c) ctx (writeFrameMu c)) eqn:L; try discriminate.
  2:{ intros H; inversion H; subst; clear H. cbn [snd].
      split; [discriminate|]. split; [auto|].
      intros _ Hcl Hctx. unfold mu_Lock in L. rewrite Hcl, Hctx in L.
      destruct (writeFrameMu c'); discriminate. }
  unfold mu_Lock in L.
  destruct (closed c) as [ce|] eqn:Ecl; [discriminate|].
  destruct (ctxErr ctx) eqn:Ectx; [discriminate|].
  destruct (writeFrameMu c) eqn:Emu; [discriminate|]. clear L.
  unfold bind at 1.
  destruct (client c && isNil (readUint32LE (randReader c))) eqn:Ekey.
  - apply andb_prop in Ekey. destruct Ekey as [Ecli Erd].
    assert (Erd' : readUint32LE (randReader c) = None)
      by (destruct (readUint32LE (randReader c)); [discriminate|reflexivity]).
    revert Erd'. clear Erd. intros Erd.
    unfold writeFrame_locked, bind, ret, get, modify_header.
    unfold modify, select_closed_or_send, draw_maskKey.
    cbn -[writeFrameHeader writeFramePayload bw_Flush readUint32LE len opcode_eqb skipn].
    rewrite Ecl.
    cbn -[writeFrameHeader writeFramePayload bw_Flush readUint32LE len opcode_eqb skipn].
    rewrite Ecli.
    cbn -[writeFrameHeader writeFramePayload bw_Flush readUint32LE len opcode_eqb skipn].
    rewrite Erd. intros H; inversion H; subst; clear H. cbn.
    split; [discriminate|]. split; [auto|auto].
  - rewrite writeFrame_locked_stage; [|exact Ecl|].
    2:{ intros Ecli. rewrite Ecli in Ekey. cbn in Ekey.
        destruct (readUint32LE (randReader c)); [discriminate|discriminate]. }
    destruct (stage p (prepared ctx (frameHeader c fin flate op p) c))
      as [r1 c2|] eqn:S; [|discriminate].
    unfold bind, modify, ret. intros H; inversion H; subst; clear H.
    apply stage_mailbox in S; [|exact Ecl].
    cbn [writeTimeout prepared set_randReader set_writeHeader set_writeTimeout
         set_writeFrameMu] in S |- *.
    rewrite S. destruct (snd r) as [e|]; cbn [isNil].
    + rewrite app_nil_r. split; [discriminate|]. split; auto.
    + rewrite <- app_assoc. split; [reflexivity|]. split; intros H; congruence.
Qed.

End WritePath.

(** * The compressor *)

Section Compressors.

Variables d1 d2 : list Z -> bool -> list Z -> list (list Z).

Lemma msgWriter_Write_plain_indep (p : list Z) (c : Conn) :
  flateEnabled c = false -> mw_flate (mw c) = false ->
  msgWriter_Write d1 p c = msgWriter_Write d2 p c.
Proof.
  intros Hen Hfl. destruct (mw_writeMu (mw c)) eqn:Hm.
  - unfold msgWriter_Write, bind. rewrite !with_writeMu_held by exact Hm. reflexivity.
  - destruct (mw_closed (mw c)) eqn:Hc.
    + rewrite !msgWriter_Write_closed by assumption. reflexivity.
    + assert (Hact : activates c p = false) by (unfold activates; rewrite Hen; reflexivity).
      rewrite (msgWriter_Write_plain_eq d1 p c Hc Hm Hfl Hact).
      rewrite (msgWriter_Write_plain_eq d2 p c Hc Hm Hfl Hact). reflexivity.
Qed.

Lemma msgWriter_Close_plain_indep (c : Conn) :
  mw_flate (mw c) = false -> msgWriter_Close d1 c = msgWriter_Close d2 c.
Proof.
  intros Hfl. destruct (mw_writeMu (mw c)) eqn:Hm.
  - unfold msgWriter_Close, bind. rewrite !with_writeMu_held by exact Hm. reflexivity.
  - destruct (mw_closed (mw c)) eqn:Hc.
    + rewrite !msgWriter_Close_closed by assumption. reflexivity.
    + rewrite (msgWriter_Close_eq d1 c Hc Hm), (msgWriter_Close_eq d2 c Hc Hm).
      rewrite Hfl. reflexivity.
Qed.

Lemma run_op_plain_indep (o : writerOp) (c : Conn) :
  flateEnabled c = false -> mw_flate (mw c) = false ->
  run_op d1 o c = run_op d2 o c.
Proof.
  intros Hen Hfl. destruct o as [p|]; cbn [run_op].
  - unfold bind. rewrite (msgWriter_Write_plain_indep p c Hen Hfl). reflexivity.
  - apply msgWriter_Close_plain_indep. exact Hfl.
Qed.

Lemma run_op_plain_keeps (d : list Z -> bool -> list Z -> list (list Z))
    (o : writerOp) (c : Conn) (e : option error) (c' : Conn) :
  flateEnabled c = false -> mw_flate (mw c) = false ->
  run_op d o c = Done e c' ->
  flateEnabled c' = false /\ mw_flate (mw c') = false.
Proof.
  intros Hen Hfl H. split.
  - apply run_op_mkeeps in H. destruct H as (_ & H & _). congruence.
  - destruct (mw_closed (mw c)) eqn:Hc.
    + rewrite (run_op_closed d _ _ _ _ Hc H). exact Hfl.
    + destruct (run_op_open d _ _ _ _ Hc H) as (H1 & _). rewrite H1, Hfl.
      destruct o as [p|]; [|reflexivity]. unfold activates. rewrite Hen. reflexivity.
Qed.

Lemma run_ops_plain_indep (ops : list writerOp) : forall c,
  flateEnabled c = false -> mw_flate (mw c) = false ->
  run_ops d1 ops c = run_ops d2 ops c.
Proof.
  induction ops as [|o ops IH]; intros c Hen Hfl; cbn [run_ops]; [reflexivity|].
  unfold bind at 1 3. rewrite (run_op_plain_indep o c Hen Hfl).
  destruct (run_op d2 o c) as [e c1|] eqn:R; [|reflexivity].
  destruct (run_op_plain_keeps d2 _ _ _ _ Hen Hfl R) as [Hen1 Hfl1].
  unfold bind. rewrite (IH c1 Hen1 Hfl1). reflexivity.
Qed.

Lemma Conn_Write_plain_eq (d : list Z -> bool -> list Z -> list (list Z))
    (ctx : context) (typ : MessageType) (p : list Z) (c : Conn) :
  flateEnabled c = false ->
  Conn_Write d ctx typ p c =
  match msgWriter_reset ctx typ c with
  | Done (Some e) c1 => Done (Some (errWrap "failed to write msg" e)) c1
  | Done None c1 =>
      match writeFrame ctx true false (mw_opcode (mw c1)) p c1 with
      | Done r c2 =>
          Done (errd_Wrap "failed to write msg" (snd r))
               (set_mw (set_mu false (mw c2)) c2)
      | Halts why => Halts why
      end
  | Halts why => Halts why
  end.
Proof.
  intros Hen. unfold Conn_Write, Conn_write, Conn_writer, bind.
  destruct (msgWriter_reset ctx typ c) as [[e|] c1|] eqn:R; try reflexivity.
  destruct (msgWriter_reset_state _ _ _ _ _ R) as [m ->].
  unfold get. cbn [flateEnabled set_mw]. rewrite Hen. cbn [negb].
  destruct (writeFrame _ _ _ _ _ _); reflexivity.
Qed.

(** X17.  Without compression negotiated the compressor is never called:
    the one-shot [Write], the streaming path and, on a writer whose
    compression flag is off, every run of [Write] and [Close] calls give
    the same result and the same state whatever the compressor is. *)
Theorem X17_no_compressor_without_negotiation
    (c : Conn) (Hplain : flateEnabled c = false) :
  (forall ctx typ p, Conn_Write d1 ctx typ p c = Conn_Write d2 ctx typ p c) /\
  (forall ctx typ p, stream_message d1 ctx typ p c = stream_message d2 ctx typ p c) /\
  (mw_flate (mw c) = false -> forall ops, run_ops d1 ops c = run_ops d2 ops c).
Proof.
  split; [|split].
  - intros ctx typ p. rewrite !Conn_Write_plain_eq by exact Hplain. reflexivity.
  - intros ctx typ p. unfold stream_message. unfold bind at 1 3.
    destruct (Conn_Writer ctx typ c) as [[e|] c1|] eqn:B; try reflexivity.
    rewrite (Conn_Writer_ok_state _ _ _ _ B).
    set (s := set_mw (reset_mw ctx typ (mw c)) c).
    assert (Hen : flateEnabled s = false) by exact Hplain.
    assert (Hfl : mw_flate (mw s) = false) by reflexivity.
    unfold bind. rewrite (msgWriter_Write_plain_indep p s Hen Hfl).
    destruct (msgWriter_Write d2 p s) as [r s1|] eqn:W; [|reflexivity].
    destruct (snd r) as [e|] eqn:Er; [reflexivity|].
    apply msgWriter_Close_plain_indep.
    apply (run_op_plain_keeps d2 (OpWrite p) s (snd r) s1 Hen Hfl).
    cbn [run_op]. unfold bind. rewrite W. reflexivity.
  - intros Hfl ops. apply run_ops_plain_indep; assumption.
Qed.

End Compressors.

(** * Examples: the theorems at concrete inputs *)

Lemma sampleConn_ready (isClient flate : bool) (threshold : Z) (size : nat) :
  (0 < size)%nat -> ready 3 (sampleConn isClient flate threshold size sampleRand).
Proof.
  intros H. unfold ready, sampleConn. cbn. repeat split; auto; intros _; lia.
Qed.

(** Server, no compression, a four-byte buffer: "Hello" in one shot and
    streamed. *)
Lemma C1_witness :
  let c := sampleConn false false 3 4 sampleRand in
  ready 2 c /\ mw_mu (mw c) = false /\ mw_writeMu (mw c) = false /\
  ctxErr context_Background = None /\
  exists c1 c2 f g1 g2,
    Conn_Write sampleDeflate context_Background MessageText hello c = Done None c1 /\
    stream_message sampleDeflate context_Background MessageText hello c = Done None c2 /\
    emitted c1 = emitted c ++ [f] /\ emitted c2 = emitted c ++ [g1; g2] /\
    reassemble (map onWire [f]) = reassemble (map onWire [g1; g2]).
Proof.
  intros c.
  assert (R : ready 2 c).
  { eapply ready_le; [|apply sampleConn_ready]; lia. }
  split; [exact R|]. split; [reflexivity|]. split; [reflexivity|].
  split; [reflexivity|].
  destruct (C1_one_shot_write_equals_streaming sampleDeflate context_Background
              MessageText hello c R eq_refl eq_refl eq_refl) as [_ H].
  destruct (H eq_refl)
    as (c1 & c2 & f & g1 & g2 & A1 & A2 & A3 & _ & _ & _ & _ & A8 & A9 & A10 & _).
  exists c1, c2, f, g1, g2. repeat split; auto; congruence.
Defined.

(** Server, compression negotiated with threshold 3: a write of "Hello"
    turns compression on. *)
Lemma C2_witness :
  let c := set_mw (reset_mw context_Background MessageText newMsgWriter)
             (sampleConn false true 3 16 sampleRand) in
  mw_closed (mw c) = false /\
  exists r c',
    msgWriter_Write sampleDeflate hello c = Done r c' /\
    mw_flate (mw c') = true.
Proof.
  intros c. split; [reflexivity|].
  destruct (msgWriter_Write sampleDeflate hello c) as [r c'|] eqn:E;
    [|vm_compute in E; discriminate].
  exists r, c'. split; [reflexivity|].
  destruct (C2_flate_activation sampleDeflate c hello r c' eq_refl E) as (Hfl & _).
  rewrite Hfl. reflexivity.
Defined.

(** Server, compression negotiated with threshold 3: a message of three
    writes, the first one long enough to be compressed. *)
Lemma C3_witness :
  let c0 := sampleConn false true 3 16 sampleRand in
  exists c1 rs c,
    Conn_Writer context_Background MessageText c0 = Done None c1 /\
    run_ops sampleDeflate [OpWrite hello; OpWrite [33]; OpClose] c1 = Done rs c /\
    exists fs,
      emitted c = emitted c0 ++ fs /\
      match fs with
      | [] => True
      | f :: rest =>
          h_opcode (fst f) = opText /\ h_rsv1 (fst f) = mw_flate (mw c) /\
          Forall cont_frame rest
      end.
Proof.
  intros c0.
  destruct (Conn_Writer context_Background MessageText c0) as [[e|] c1|] eqn:B;
    try (vm_compute in B; discriminate).
  destruct (run_ops sampleDeflate [OpWrite hello; OpWrite [33]; OpClose] c1)
    as [rs c|] eqn:R.
  2:{ vm_compute in B. inversion B; subst. vm_compute in R. discriminate. }
  exists c1, rs, c. split; [reflexivity|]. split; [exact R|].
  destruct (C3_opcode_and_rsv1_along_a_message sampleDeflate context_Background
              MessageText c0 c1 _ rs c B R) as (_ & fs & H1 & _ & H3).
  exists fs. split; [exact H1|exact H3].
Defined.

(** On the empty message the opcode does not flip: after [Writer] and
    [Close] one frame is out, the final one, and the writer's opcode is
    still the message type. *)
Lemma C3_counterexample :
  ~ (forall c1 rs c,
       Conn_Writer context_Background MessageText (sampleConn false false 3 16 sampleRand)
         = Done None c1 ->
       run_ops sampleDeflate [OpClose] c1 = Done rs c ->
       emitted c <> emitted (sampleConn false false 3 16 sampleRand) ->
       mw_opcode (mw c) = opContinuation).
Proof.
  intros H.
  match eval vm_compute in
        (Conn_Writer context_Background MessageText
           (sampleConn false false 3 16 sampleRand)) with
  | Done None ?c1 =>
      match eval vm_compute in (run_ops sampleDeflate [OpClose] c1) with
      | Done ?rs ?c => specialize (H c1 rs c)
      end
  end.
  assert (Hop : opText = opContinuation).
  { apply H.
    - vm_compute. reflexivity.
    - vm_compute. reflexivity.
    - vm_compute. discriminate. }
  discriminate.
Qed.

(** Server with server_no_context_takeover, a compressed message in
    progress: [Close] succeeds, closes the writer and releases the window. *)
Lemma C4_witness :
  let c := set_mw (mkMsgWriter true false context_Background opContinuation false true
                     (Some (mkTrim [0; 0; 255; 255])) (Some (mkWindow 8192 hello)))
             (sampleConn false true 3 16 sampleRand) in
  mw_closed (mw c) = false /\ mw_flate (mw c) = true /\
  exists c',
    msgWriter_Close sampleDeflate c = Done None c' /\
    mw_closed (mw c') = true /\ mw_dict (mw c') = None.
Proof.
  intros c. split; [reflexivity|]. split; [reflexivity|].
  destruct (C4_close_under_compression sampleDeflate 0 c eq_refl eq_refl) as [H1 H2].
  assert (R : ready (length (sampleDeflate [] true []) + (1 + 0)) c).
  { apply ready_set_mw. eapply ready_le; [|apply sampleConn_ready]; cbn; lia. }
  destruct (H2 R eq_refl eq_refl eq_refl) as (c' & E & _).
  exists c'. split; [exact E|].
  destruct (H1 _ _ E) as (ferr & c1 & fs & _ & _ & _ & Hm).
  destruct ferr as [e|]; [destruct Hm as [Hr _]; discriminate|].
  destruct Hm as (fr & c2 & _ & Hcl & Hm).
  destruct (snd fr); [destruct Hm; discriminate|].
  destruct Hm as (_ & _ & Hd & _). split; [exact Hcl|]. rewrite Hd. reflexivity.
Defined.

(** Server: after [Writer] and a [Close] that succeeds, a [Write] gets
    the closed-writer error. *)
Lemma C5_witness :
  let c0 := set_mw (reset_mw context_Background MessageText newMsgWriter)
              (sampleConn false false 3 16 sampleRand) in
  exists c,
    msgWriter_Close sampleDeflate c0 = Done None c /\
    msgWriter_Write sampleDeflate hello c =
      Done (O, Some (errWrap "failed to write" UseClosedWriter)) c.
Proof.
  intros c0.
  destruct (msgWriter_Close sampleDeflate c0) as [[e|] c|] eqn:E;
    try (vm_compute in E; discriminate).
  exists c. split; [reflexivity|].
  apply (C5_use_closed_writer sampleDeflate c0 c hello E).
Defined.

(** Client with a three-byte buffer: a final binary frame of seven bytes
    crosses several flushes and arrives masked in one piece. *)
Lemma C6_witness :
  let c := sampleConn true false 3 3 sampleRand in
  let p := [1; 2; 3; 4; 5; 6; 7] in
  client c = true /\
  exists r c',
    writeFrame context_Background true false opBinary p c = Done r c' /\
    snd r = None /\ h_masked (writeHeader c') = true /\
    sent (rwc c') =
      output c ++ encodeHeader (writeHeader c')
               ++ xorCyclic (h_maskKey (writeHeader c')) 0 p.
Proof.
  intros c p. split; [reflexivity|].
  destruct (writeFrame context_Background true false opBinary p c) as [r c'|] eqn:E;
    [|vm_compute in E; discriminate].
  assert (Hr : snd r = None) by (vm_compute in E; inversion E; reflexivity).
  exists r, c'. split; [reflexivity|]. split; [exact Hr|].
  destruct (C6_client_frames_are_masked 0 context_Background true false opBinary p c
              eq_refl) as [H _].
  destruct (H r c' E Hr) as (k & _ & _ & Hm & Hk & _ & _ & _ & _ & Hs).
  split; [exact Hm|]. rewrite Hk. apply Hs. reflexivity.
Defined.

(** Server: a ping leaves the message writer alone. *)
Lemma C7_witness :
  let c := sampleConn false false 3 16 sampleRand in
  exists r c',
    writeControl 0 context_Background opPing [65; 66; 67] c = Done r c' /\
    mw c' = mw c.
Proof.
  intros c.
  destruct (writeControl 0 context_Background opPing [65; 66; 67] c) as [r c'|] eqn:E;
    [|vm_compute in E; discriminate].
  exists r, c'. split; [reflexivity|].
  apply (C7_control_frames_bypass_writer 0 context_Background opPing [65; 66; 67]
           c r c' E).
Defined.

(** A closed connection: the frame write returns the close cause. *)
Lemma C8_witness :
  let cause := errNew "status = StatusNormalClosure" in
  let c := closedWith cause (sampleConn false false 3 16 sampleRand) in
  closed c = Some cause /\
  writeFrame context_Background true false opText hello c = Done (O, Some cause) c.
Proof.
  intros cause c. split; [reflexivity|].
  apply (C8_closed_connection_emits_nothing c cause 0 context_Background
           true false opText hello eq_refl).
Defined.

(** Server, writer begun, the byte stream broken: the flush of the final
    frame fails, the writer is closed and still locked, and a new
    [Writer] parks. *)
Lemma C9_witness :
  let c := withRoom 0 (set_mw (reset_mw context_Background MessageText newMsgWriter)
                         (sampleConn false false 3 16 sampleRand)) in
  mw_mu (mw c) = true /\
  exists e c',
    msgWriter_Close sampleDeflate c =
      Done (Some (errWrap "failed to close writer"
                    (errWrap "failed to write fin frame" e))) c' /\
    mw_closed (mw c') = true /\ mw_mu (mw c') = true /\
    Conn_Writer context_Background MessageBinary c' = Halts Blocked.
Proof.
  intros c. split; [reflexivity|].
  destruct (msgWriter_Close sampleDeflate c) as [[e|] c'|] eqn:E;
    try (vm_compute in E; discriminate).
  destruct e as [m|m e]; [vm_compute in E; discriminate|].
  destruct e as [m2|m2 e]; [vm_compute in E; discriminate|].
  assert (Hm : m = "failed to close writer" /\ m2 = "failed to write fin frame"
               /\ closed c' = None).
  { vm_compute in E. inversion E; subst. repeat split. }
  destruct Hm as (-> & -> & Hcl).
  exists e, c'. split; [reflexivity|].
  destruct (C9_failed_final_frame_leaves_writer_closed_and_locked sampleDeflate
              c c' e eq_refl E) as (_ & _ & H1 & H2 & _ & _ & H3 & _).
  split; [exact H1|]. split; [exact H2|]. apply H3; [exact Hcl|reflexivity].
Defined.

(** Server, compression negotiated with threshold 9: "Hello" in one
    shot goes out as two frames. *)
Lemma C10_witness :
  let c := sampleConn false true 9 16 sampleRand in
  flateEnabled c = true /\ len hello < flateThreshold c /\ ready 2 c /\
  mw_mu (mw c) = false /\ mw_writeMu (mw c) = false /\
  ctxErr context_Background = None /\
  exists c' g1 g2,
    Conn_Write sampleDeflate context_Background MessageText hello c = Done None c' /\
    emitted c' = emitted c ++ [g1; g2] /\
    h_fin (fst g1) = false /\ h_fin (fst g2) = true /\
    h_opcode (fst g2) = opContinuation.
Proof.
  intros c.
  assert (R : ready 2 c).
  { eapply ready_le; [|apply sampleConn_ready]; lia. }
  split; [reflexivity|]. split; [reflexivity|]. split; [exact R|].
  split; [reflexivity|]. split; [reflexivity|]. split; [reflexivity|].
  destruct (C10_below_threshold_one_shot_emits_two_frames sampleDeflate
              context_Background MessageText hello c eq_refl eq_refl R
              eq_refl eq_refl eq_refl)
    as (c' & g1 & g2 & A1 & A2 & A3 & _ & _ & _ & _ & A8 & A9 & _).
  exists c', g1, g2. repeat split; assumption.
Defined.

(** ** Further examples *)

Lemma sampleConn_server_ready (n : nat) (flate : bool) (threshold : Z) (size : nat) :
  (0 < size)%nat -> ready n (sampleConn false flate threshold size sampleRand).
Proof.
  intros H. unfold ready, sampleConn. cbn. repeat split; auto. discriminate.
Qed.

(** Server with server_no_context_takeover: a compressed message is
    closed and the next one begun; compression is off again and the
    window is gone. *)
Lemma X1_witness :
  let c := set_mw (mkMsgWriter true false context_Background opContinuation false true
                     (Some (mkTrim [0; 0; 255; 255])) (Some (mkWindow 8192 hello)))
             (sampleConn false true 3 16 sampleRand) in
  exists c1 c2,
    msgWriter_Close sampleDeflate c = Done None c1 /\
    Conn_Writer context_Background MessageBinary c1 = Done None c2 /\
    mw_flate (mw c2) = false /\ mw_opcode (mw c2) = opBinary /\
    mw_dict (mw c2) = None.
Proof.
  intros c.
  destruct (msgWriter_Close sampleDeflate c) as [[e|] c1|] eqn:E1;
    try (vm_compute in E1; discriminate).
  destruct (Conn_Writer context_Background MessageBinary c1) as [[e|] c2|] eqn:E2;
    try (vm_compute in E1; inversion E1; subst; vm_compute in E2; discriminate).
  exists c1, c2. split; [reflexivity|]. split; [exact E2|].
  destruct (X1_state_between_messages sampleDeflate context_Background MessageBinary
              c c1 c2 E1 E2) as (H1 & _ & H3 & _ & _ & _ & H7 & _).
  split; [exact H1|]. split; [exact H3|]. rewrite H7. reflexivity.
Defined.

(** Server, writer begun: a write and a close; the lock is free at the
    end because the close succeeded. *)
Lemma X3_witness :
  let c := set_mw (reset_mw context_Background MessageText newMsgWriter)
             (sampleConn false false 3 16 sampleRand) in
  mw_mu (mw c) = true /\
  exists rs c',
    run_ops sampleDeflate [OpWrite hello; OpClose] c = Done rs c' /\
    length rs = 2%nat /\ mw_mu (mw c') = false.
Proof.
  intros c. split; [reflexivity|].
  destruct (run_ops sampleDeflate [OpWrite hello; OpClose] c) as [rs c'|] eqn:E;
    [|vm_compute in E; discriminate].
  exists rs, c'. split; [reflexivity|].
  destruct (X3_ownership_lock_held_until_close_succeeds sampleDeflate
              [OpWrite hello; OpClose] c rs c' eq_refl E) as [L I].
  split; [exact L|]. apply I.
  vm_compute in E. inversion E; subst. cbn. right. left. reflexivity.
Defined.

(** Server: a text frame leaves the random source alone. *)
Lemma X4_witness :
  let c := sampleConn false false 3 16 sampleRand in
  client c = false /\
  exists r c',
    writeFrame context_Background false false opText hello c = Done r c' /\
    randReader c' = sampleRand /\ h_masked (writeHeader c') = false.
Proof.
  intros c. split; [reflexivity|].
  destruct (writeFrame context_Background false false opText hello c) as [r c'|] eqn:E;
    [|vm_compute in E; discriminate].
  exists r, c'. split; [reflexivity|].
  destruct (X4_server_frames_not_masked context_Background false false opText hello
              c r c' eq_refl E) as (H1 & H2 & _).
  split; [rewrite H1; reflexivity|rewrite H2; reflexivity].
Defined.

(** Server, a buffer of four bytes: a final frame of five bytes leaves
    the buffer empty. *)
Lemma X5_witness :
  let c := sampleConn false false 3 4 sampleRand in
  exists r c',
    writeFrame context_Background true false opText hello c = Done r c' /\
    snd r = None /\ bw_buf (bw c') = [].
Proof.
  intros c.
  destruct (writeFrame context_Background true false opText hello c) as [r c'|] eqn:E;
    [|vm_compute in E; discriminate].
  assert (Hr : snd r = None) by (vm_compute in E; inversion E; reflexivity).
  exists r, c'. split; [reflexivity|]. split; [exact Hr|].
  apply (X5_final_frame_is_flushed context_Background false opText hello c r c' E Hr).
Defined.

(** Client, a byte stream that accepts nothing more: a non-final frame
    that fits in the buffer still succeeds. *)
Lemma X6_witness :
  let c := withRoom 0 (sampleConn true false 3 16 sampleRand) in
  room (rwc c) = Some O /\
  exists c',
    writeFrame context_Background false false opText hello c
      = Done (length hello, None) c' /\
    rwc c' = rwc c.
Proof.
  intros c. split; [reflexivity|].
  destruct (X6_non_final_frame_stays_in_buffer context_Background false opText hello c)
    as (c' & E & H & _); try reflexivity.
  - intros _. cbn. lia.
  - cbn. lia.
  - exists c'. split; [exact E|exact H].
Defined.

(** Server, compression negotiated with threshold 3, a byte stream that
    accepts nothing more and a buffer of four bytes: the compressed
    write fails and still reports five bytes. *)
Lemma X9_witness :
  let c := withRoom 0 (set_mw (reset_mw context_Background MessageText newMsgWriter)
                         (sampleConn false true 3 4 sampleRand)) in
  mw_closed (mw c) = false /\ mw_flate (mw c) || activates c hello = true /\
  exists r c',
    msgWriter_Write sampleDeflate hello c = Done r c' /\
    snd r <> None /\ fst r = 5%nat.
Proof.
  intros c. split; [reflexivity|]. split; [reflexivity|].
  destruct (msgWriter_Write sampleDeflate hello c) as [r c'|] eqn:E;
    [|vm_compute in E; discriminate].
  exists r, c'. split; [reflexivity|].
  split; [vm_compute in E; inversion E; discriminate|].
  apply (X9_compressed_write_reports_full_length sampleDeflate hello c r c'
           eq_refl eq_refl E).
Defined.

(** After [close] of the writer a [Write] never returns. *)
Lemma X10_witness :
  let c := sampleConn false false 3 16 sampleRand in
  exists c',
    msgWriter_close c = Done tt c' /\
    msgWriter_Write sampleDeflate hello c' = Halts Blocked.
Proof.
  intros c.
  destruct (msgWriter_close c) as [[] c'|] eqn:E; [|vm_compute in E; discriminate].
  exists c'. split; [reflexivity|].
  destruct (X10_writer_close_blocks_later_calls sampleDeflate c c' E)
    as (_ & _ & _ & _ & H & _).
  apply H.
Defined.

(** Server without compression, a byte stream that accepts nothing more:
    the one-shot write fails and the lock is free. *)
Lemma X11_witness :
  let c := withRoom 0 (sampleConn false false 3 16 sampleRand) in
  flateEnabled c = false /\ mw_mu (mw c) = false /\
  exists r c',
    Conn_Write sampleDeflate context_Background MessageText hello c = Done r c' /\
    r <> None /\ mw_mu (mw c') = false.
Proof.
  intros c. split; [reflexivity|]. split; [reflexivity|].
  destruct (Conn_Write sampleDeflate context_Background MessageText hello c)
    as [r c'|] eqn:E; [|vm_compute in E; discriminate].
  exists r, c'. split; [reflexivity|].
  split; [vm_compute in E; inversion E; discriminate|].
  apply (X11_one_shot_without_compression_releases_the_writer sampleDeflate
           context_Background MessageText hello c r c' eq_refl eq_refl E).
Defined.

(** The same with compression negotiated (threshold 9): the one-shot
    write fails in the final flush and the lock stays held. *)
Lemma X12_witness :
  let c := withRoom 0 (sampleConn false true 9 16 sampleRand) in
  flateEnabled c = true /\
  exists e c',
    Conn_Write sampleDeflate context_Background MessageText hello c
      = Done (Some e) c' /\
    mw_mu (mw c') = true.
Proof.
  intros c. split; [reflexivity|].
  destruct (Conn_Write sampleDeflate context_Background MessageText hello c)
    as [[e|] c'|] eqn:E; try (vm_compute in E; discriminate).
  exists e, c'. split; [reflexivity|].
  destruct (X12_one_shot_with_compression_keeps_the_writer_on_failure sampleDeflate
              context_Background MessageText hello c e c' eq_refl E) as [H|[H _]].
  - exfalso. subst c'. vm_compute in E. inversion E.
  - exact H.
Defined.

(** Server, a buffer of four bytes: "Hello", nothing and "!" streamed as
    one text message. *)
Lemma X13_witness :
  let c0 := sampleConn false false 3 4 sampleRand in
  let ps := [hello; []; [33]] in
  flateEnabled c0 = false /\ ready (S (length ps)) c0 /\ mw_writeMu (mw c0) = false /\
  exists c1 c fs,
    Conn_Writer context_Background MessageText c0 = Done None c1 /\
    run_ops sampleDeflate (map OpWrite ps ++ [OpClose]) c1
      = Done (repeat None (S (length ps))) c /\
    emitted c = emitted c0 ++ fs /\
    reassemble (map onWire fs) = Some (opText, false, hello ++ [33]).
Proof.
  intros c0 ps.
  assert (R : ready (S (length ps)) c0) by (apply sampleConn_server_ready; lia).
  split; [reflexivity|]. split; [exact R|]. split; [reflexivity|].
  destruct (Conn_Writer context_Background MessageText c0) as [[e|] c1|] eqn:B;
    try (vm_compute in B; discriminate).
  destruct (X13_streamed_message sampleDeflate context_Background MessageText ps c0 c1
              eq_refl R eq_refl B) as (c & fs & H1 & H2 & _ & _ & _ & H6 & _).
  exists c1, c, fs. split; [reflexivity|]. split; [exact H1|]. split; [exact H2|].
  exact H6.
Defined.

(** Server, compression negotiated: a ping between the write and the
    close of a compressed message. *)
Lemma X14_witness :
  let c0 := sampleConn false true 3 16 sampleRand in
  let l := [OnWriter (OpWrite hello);
            OnControl 0 context_Background opPing [1];
            OnWriter OpClose] in
  control_opcodes l /\
  exists c1 rs c fs,
    Conn_Writer context_Background MessageText c0 = Done None c1 /\
    run_connOps sampleDeflate l c1 = Done rs c /\
    emitted c = emitted c0 ++ fs /\
    match dataFrames fs with
    | [] => True
    | f :: rest =>
        h_opcode (fst f) = opText /\ h_rsv1 (fst f) = mw_flate (mw c) /\
        Forall cont_frame rest
    end.
Proof.
  intros c0 l.
  assert (Hl : control_opcodes l).
  { unfold l, control_opcodes. repeat constructor. }
  split; [exact Hl|].
  destruct (Conn_Writer context_Background MessageText c0) as [[e|] c1|] eqn:B;
    try (vm_compute in B; discriminate).
  destruct (run_connOps sampleDeflate l c1) as [rs c|] eqn:R.
  2:{ vm_compute in B. inversion B; subst. vm_compute in R. discriminate. }
  destruct (X14_control_frames_between_data_frames sampleDeflate context_Background
              MessageText c0 c1 l rs c Hl B R) as (fs & H1 & _ & _ & H4).
  exists c1, rs, c, fs. split; [reflexivity|]. split; [exact R|].
  split; [exact H1|exact H4].
Defined.

(** Server without compression: a text message and an empty binary
    message, one shot each. *)
Lemma X16_witness :
  let c := sampleConn false false 3 16 sampleRand in
  let ms := [(MessageText, hello); (MessageBinary, [])] in
  flateEnabled c = false /\ ready (length ms) c /\ mw_mu (mw c) = false /\
  ctxErr context_Background = None /\
  exists c' fs,
    write_all sampleDeflate context_Background ms c
      = Done (repeat None (length ms)) c' /\
    emitted c' = emitted c ++ fs /\
    map (fun f => (h_opcode (fst f), snd f)) fs = [(opText, hello); (opBinary, [])].
Proof.
  intros c ms.
  assert (R : ready (length ms) c) by (apply sampleConn_server_ready; lia).
  split; [reflexivity|]. split; [exact R|]. split; [reflexivity|].
  split; [reflexivity|].
  destruct (X16_one_shot_writes_in_a_row sampleDeflate context_Background ms c
              eq_refl R eq_refl eq_refl) as (c' & fs & H1 & H2 & H3 & _).
  exists c', fs. split; [exact H1|]. split; [exact H2|exact H3].
Defined.

(** Server without compression: the sample compressor and one that
    writes nothing give the same one-shot write. *)
Lemma X17_witness :
  let c := sampleConn false false 3 16 sampleRand in
  flateEnabled c = false /\
  Conn_Write sampleDeflate context_Background MessageText hello c =
  Conn_Write (fun _ _ _ => []) context_Background MessageText hello c.
Proof.
  intros c. split; [reflexivity|].
  destruct (X17_no_compressor_without_negotiation sampleDeflate (fun _ _ _ => []) c
              eq_refl) as [H _].
  apply H.
Defined.

(** A closed connection: the one-shot write returns the close cause
    under one wrapper and changes nothing. *)
Lemma X2_witness :
  let cause := errNew "status = StatusGoingAway" in
  let c := closedWith cause (sampleConn false true 3 16 sampleRand) in
  mu_Lock (closed c) context_Background (mw_mu (mw c)) = LockFailed cause /\
  Conn_Write sampleDeflate context_Background MessageText hello c =
    Done (Some (errWrap "failed to write msg" cause)) c.
Proof.
  intros cause c. split; [reflexivity|].
  destruct (X2_failed_begin_changes_nothing sampleDeflate context_Background
              MessageText hello c) as [_ H].
  apply H. reflexivity.
Defined.

(** Server, a byte stream that accepts nothing more: the flush of a
    final frame fails and the connection is left broken. *)
Lemma X7_witness :
  let c := withRoom 0 (sampleConn false false 3 16 sampleRand) in
  exists r c',
    writeFrame context_Background true false opText hello c = Done r c' /\
    snd r <> None /\ broken context_Background c'.
Proof.
  intros c.
  destruct (writeFrame context_Background true false opText hello c) as [r c'|] eqn:E;
    [|vm_compute in E; discriminate].
  assert (Hr : snd r <> None) by (vm_compute in E; inversion E; discriminate).
  exists r, c'. split; [reflexivity|]. split; [exact Hr|].
  destruct (X7_failed_frame_is_final context_Background c) as [H _].
  destruct (H true false opText hello r c' E Hr) as [[e0 He]|B]; [|exact B].
  exfalso. vm_compute in E. inversion E; subst. discriminate He.
Defined.

(** Server: after a frame the frame lock is free again. *)
Lemma X8_witness :
  let c := sampleConn false false 3 16 sampleRand in
  exists r c',
    writeFrame context_Background true false opText hello c = Done r c' /\
    writeFrameMu c' = false.
Proof.
  intros c.
  destruct (writeFrame context_Background true false opText hello c) as [r c'|] eqn:E;
    [|vm_compute in E; discriminate].
  exists r, c'. split; [reflexivity|].
  destruct (X8_locks_released_on_return sampleDeflate c) as [H _].
  apply (H _ _ _ _ _ _ _ E).
Defined.

(** Server, a byte stream that accepts nothing more: the write fails and
    the connection is still not marked closed. *)
Lemma X15_witness :
  let c := withRoom 0 (sampleConn false false 3 16 sampleRand) in
  exists r c',
    Conn_Write sampleDeflate context_Background MessageText hello c = Done r c' /\
    r <> None /\ closed c' = None.
Proof.
  intros c.
  destruct (Conn_Write sampleDeflate context_Background MessageText hello c)
    as [r c'|] eqn:E; [|vm_compute in E; discriminate].
  exists r, c'. split; [reflexivity|].
  split; [vm_compute in E; inversion E; discriminate|].
  destruct (X15_write_path_leaves_the_connection_settings sampleDeflate c) as [_ H].
  destruct (H _ _ _ _ _ E) as (_ & _ & _ & _ & H5). rewrite H5. reflexivity.
Defined.

(** Server, a byte stream that accepts nothing more: the final frame
    fails in the flush and its context is still on the mailbox. *)
Lemma X18_witness :
  let ctx := mkContext (Some 5) None in
  let c := withRoom 0 (sampleConn false false 3 16 sampleRand) in
  exists r c',
    writeFrame ctx true false opText hello c = Done r c' /\
    snd r <> None /\ writeTimeout c' = [ctx].
Proof.
  intros ctx c.
  destruct (writeFrame ctx true false opText hello c) as [r c'|] eqn:E;
    [|vm_compute in E; discriminate].
  assert (Hr : snd r <> None) by (vm_compute in E; inversion E; discriminate).
  exists r, c'. split; [reflexivity|]. split; [exact Hr|].
  destruct (X18_write_timeout_mailbox ctx true false opText hello c r c' E)
    as (_ & _ & H).
  apply (H Hr eq_refl eq_refl).
Defined.
